(** * Tutorial.ipynb: the air-quality preprocessing pipeline

    A shallow embedding of the consolidated cell of [Tutorial.ipynb]
    (the notebook's last code cell; the cells of its steps 2 to 6 hold the
    same statements one stage at a time) and the properties of its stages.

    The notebook is a sequence of pandas and scikit-learn calls on one
    DataFrame.  The embedding keeps the DataFrame as pandas has it, an index
    and named, typed columns, and gives each call the meaning it has in those
    libraries.  Numbers are treated as follows:

    - a float64 value of the table is a real number, and [NaN] is the [None]
      of an [option]; infinities are not values of the table.
    - int64 columns are held as [Float64] columns: every step of the notebook
      treats the two alike.
    - where a property turns on the value of a statistic that a library
      computes in binary64 (the mean the imputer writes, the mean, variance
      and scale the scalers fit), the stage takes the computation as a
      parameter: the mean as computed, the rounding of an operation.  The
      stages of the cell itself, [impute_CO], [cleaner] and [scaler], are the
      instances in exact arithmetic; the properties stated on them do not
      turn on a rounding.
    - the two scalers are also given on binary64 numbers themselves
      ([f64_standard_scale], [f64_minmax_scale]), to run them on a column. *)

From Stdlib Require Import Floats.
From Stdlib Require Import String Ascii.
From Stdlib Require Import List Bool Arith ZArith Lia.
From Stdlib Require Import Reals Lra.
Import ListNotations.

Local Open Scope string_scope.
Local Open Scope R_scope.

(** ** Exceptions and results *)

Inductive exn : Type :=
| KeyError
| ValueError
| TypeError
| FileNotFoundError
| PermissionError
| OSError
| LibraryError (msg : string).

Inductive result (A : Type) : Type :=
| Ok (a : A)
| Err (e : exn).

Arguments Ok {A} a.
Arguments Err {A} e.

Definition bind {A B : Type} (r : result A) (k : A -> result B) : result B :=
  match r with
  | Ok a => k a
  | Err e => Err e
  end.

Notation "x <- r ;; k" := (bind r (fun x => k))
  (at level 61, r at next level, right associativity).

Fixpoint traverse {A B : Type} (f : A -> result B) (l : list A)
  : result (list B) :=
  match l with
  | [] => Ok []
  | a :: l' => b <- f a ;; bs <- traverse f l' ;; Ok (b :: bs)
  end.

(** ** The DataFrame *)

(** A column with its dtype.  A missing entry ([NaN], and [NaT] in a
    datetime column) is [None].  An [Object] column is what [read_csv] makes
    of a column that is not numeric: str objects and [NaN].  A [Datetime64]
    entry is a count of nanoseconds since 1970-01-01 00:00:00. *)
Inductive Series : Type :=
| Float64 (xs : list (option R))
| Object (xs : list (option string))
| Datetime64 (xs : list (option Z)).

Record DataFrame : Type := mkDataFrame {
  index : list nat;
  columns : list (string * Series)
}.

Definition series_len (s : Series) : nat :=
  match s with
  | Float64 xs => length xs
  | Object xs => length xs
  | Datetime64 xs => length xs
  end.

(** Row alignment: every column is as long as the index. *)
Definition aligned (df : DataFrame) : Prop :=
  Forall (fun c => series_len (snd c) = length (index df)) (columns df).

(** [data[name]] *)
Fixpoint lookup (name : string) (cols : list (string * Series))
  : option Series :=
  match cols with
  | [] => None
  | (n, s) :: cols' => if String.eqb n name then Some s else lookup name cols'
  end.

Definition getitem (df : DataFrame) (name : string) : result Series :=
  match lookup name (columns df) with
  | Some s => Ok s
  | None => Err KeyError
  end.

(** [data[name] = s]: an existing column is overwritten in place, a new one
    is appended. *)
Definition setitem (df : DataFrame) (name : string) (s : Series) : DataFrame :=
  match lookup name (columns df) with
  | Some _ =>
      mkDataFrame (index df)
        (map (fun c => if String.eqb (fst c) name then (fst c, s) else c)
             (columns df))
  | None => mkDataFrame (index df) (columns df ++ [(name, s)])
  end.

(** [data[[n1, n2, ...]] = array]: column [k] of the array goes to [nk]. *)
Fixpoint setitems (df : DataFrame) (names : list string)
  (vals : list (list (option R))) : DataFrame :=
  match names, vals with
  | n :: names', v :: vals' => setitems (setitem df n (Float64 v)) names' vals'
  | _, _ => df
  end.

(** The scalar a cell holds, whatever its column's dtype. *)
Inductive cell : Type :=
| Num (r : R)
| Text (s : string)
| Stamp (t : Z)
| Missing.

Definition opt_cell {A : Type} (mk : A -> cell) (x : option A) : cell :=
  match x with
  | Some a => mk a
  | None => Missing
  end.

Definition series_cells (s : Series) : list cell :=
  match s with
  | Float64 xs => map (opt_cell Num) xs
  | Object xs => map (opt_cell Text) xs
  | Datetime64 xs => map (opt_cell Stamp) xs
  end.

(** The table read row by row: each index label with the cells of its row,
    in column order. *)
Fixpoint rows_of (idx : list nat) (cols : list (list cell))
  : list (nat * list cell) :=
  match idx with
  | [] => []
  | l :: idx' =>
      (l, map (hd Missing) cols) :: rows_of idx' (map (@tl cell) cols)
  end.

Definition rows (df : DataFrame) : list (nat * list cell) :=
  rows_of (index df) (map (fun c => series_cells (snd c)) (columns df)).

(** ** Cleaner, operation B: the sentinel filter

    [data = data[(data != -200).all(axis=1)]] *)

Definition sentinel : R := -200.

Definition Reqb (x y : R) : bool :=
  if Req_dec_T x y then true else false.

(** [s != v], element by element.  A float64 entry differs from [v] unless it
    is that number ([NaN != v] is [True]); a str, a [NaN] in an object column
    and a timestamp all differ from a number. *)
Definition ne_scalar (v : R) (s : Series) : list bool :=
  match s with
  | Float64 xs =>
      map (fun x => match x with
                    | Some r => negb (Reqb r v)
                    | None => true
                    end) xs
  | Object xs => map (fun _ => true) xs
  | Datetime64 xs => map (fun _ => true) xs
  end.

Definition and_rows (c acc : list bool) : list bool :=
  map (fun p => andb (fst p) (snd p)) (combine c acc).

(** [.all(axis=1)] of a boolean frame of [n] rows: the conjunction along
    each row, [True] for a frame without columns. *)
Definition all_axis1 (n : nat) (cols : list (list bool)) : list bool :=
  fold_right and_rows (repeat true n) cols.

(** [l[mask]]: the entries at which the mask is [True], in order. *)
Fixpoint select {A : Type} (mask : list bool) (l : list A) : list A :=
  match mask, l with
  | b :: mask', x :: l' => if b then x :: select mask' l' else select mask' l'
  | _, _ => []
  end.

Definition series_select (mask : list bool) (s : Series) : Series :=
  match s with
  | Float64 xs => Float64 (select mask xs)
  | Object xs => Object (select mask xs)
  | Datetime64 xs => Datetime64 (select mask xs)
  end.

(** [data[mask]]: rows keep their index labels. *)
Definition getitem_mask (df : DataFrame) (mask : list bool) : DataFrame :=
  mkDataFrame (select mask (index df))
    (map (fun c => (fst c, series_select mask (snd c))) (columns df)).

Definition row_mask (df : DataFrame) : list bool :=
  all_axis1 (length (index df))
    (map (fun c => ne_scalar sentinel (snd c)) (columns df)).

Definition drop_sentinel (df : DataFrame) : DataFrame :=
  getitem_mask df (row_mask df).

(** The numeric columns of a table: what is left when the string-valued
    and the datetime columns are taken away. *)
Definition is_float64 (s : Series) : bool :=
  match s with
  | Float64 _ => true
  | _ => false
  end.

Definition numeric_part (df : DataFrame) : DataFrame :=
  mkDataFrame (index df) (filter (fun c => is_float64 (snd c)) (columns df)).

(** The spec's wording of operation B: remove every row in which any column
    equals the sentinel. *)
Definition is_sentinel (c : cell) : bool :=
  match c with
  | Num r => Reqb r sentinel
  | _ => false
  end.

Definition row_clean (r : nat * list cell) : bool :=
  forallb (fun c => negb (is_sentinel c)) (snd r).

Definition filter_rows_spec (rs : list (nat * list cell))
  : list (nat * list cell) :=
  filter row_clean rs.

(** ** Cleaner, operation A: mean imputation of [CO(GT)]

    [imputer = SimpleImputer(strategy='mean')]
    [data['CO(GT)'] = imputer.fit_transform(data[['CO(GT)']])] *)

Definition present {A : Type} (xs : list (option A)) : list A :=
  flat_map (fun x => match x with Some a => [a] | None => [] end) xs.

Definition sum (xs : list R) : R := fold_right Rplus 0 xs.

Definition mean (xs : list R) : R := sum xs / INR (length xs).

(** What scikit-learn's input validation does to a column: float64 data is
    taken as it is; an object column is converted entry by entry with
    Python's [float], here the parameter [float_of_str], which gives [None]
    where [float] raises and [Some None] for the text of a [NaN]; the
    conversion error of one entry is the error of the call.  A datetime
    column is refused; the notebook has none before the Feature Deriver. *)
Definition object_to_float (float_of_str : string -> option (option R))
  (x : option string) : result (option R) :=
  match x with
  | None => Ok None
  | Some t =>
      match float_of_str t with
      | Some v => Ok v
      | None => Err ValueError
      end
  end.

Definition to_float64 (float_of_str : string -> option (option R))
  (s : Series) : result (list (option R)) :=
  match s with
  | Float64 xs => Ok xs
  | Object xs => traverse (object_to_float float_of_str) xs
  | Datetime64 _ => Err TypeError
  end.

Definition fillna (m : R) (xs : list (option R)) : list (option R) :=
  map (fun x => match x with Some r => Some r | None => Some m end) xs.

(** [fit_transform] of the imputer on one column.  [fit] takes the mean of
    the entries that are present, [transform] writes it into the others;
    [np_mean] is that mean as numpy computes it.  A table without rows is
    refused by the validation.  A column without a present entry is dropped
    by the imputer: the array it returns has the rows and no column, and
    the call returns. *)
Definition simple_imputer (np_mean : list R -> R) (xs : list (option R))
  : result (list (option R)) :=
  match xs with
  | [] => Err ValueError
  | _ :: _ =>
      match present xs with
      | [] => Ok []
      | _ :: _ => Ok (fillna (np_mean (present xs)) xs)
      end
  end.

(** The assignment writes the values returned into [CO(GT)].  After the
    array without a column the column is left without values: the table is
    not aligned any more, and nothing is stated below of what a later
    statement makes of it. *)
Definition impute_CO_with (np_mean : list R -> R)
  (float_of_str : string -> option (option R))
  (df : DataFrame) : result DataFrame :=
  s <- getitem df "CO(GT)" ;;
  xs <- to_float64 float_of_str s ;;
  ys <- simple_imputer np_mean xs ;;
  Ok (setitem df "CO(GT)" (Float64 ys)).

Definition cleaner_with (np_mean : list R -> R)
  (float_of_str : string -> option (option R))
  (df : DataFrame) : result DataFrame :=
  df1 <- impute_CO_with np_mean float_of_str df ;;
  Ok (drop_sentinel df1).

(** The two steps with the mean in exact arithmetic. *)
Definition impute_CO (float_of_str : string -> option (option R))
  (df : DataFrame) : result DataFrame :=
  impute_CO_with mean float_of_str df.

Definition cleaner (float_of_str : string -> option (option R))
  (df : DataFrame) : result DataFrame :=
  cleaner_with mean float_of_str df.

(** ** Scaler

    [data[cols] = StandardScaler().fit_transform(data[cols])] and
    [data[cols] = MinMaxScaler().fit_transform(data[cols])] *)

(** The machine epsilon of float64, [np.finfo(np.float64).eps]. *)
Definition eps : R := / 2 ^ 52.

Definition Rleb (x y : R) : bool := if Rle_dec x y then true else false.
Definition Rltb (x y : R) : bool := if Rlt_dec x y then true else false.

Definition list_min (xs : list R) : R :=
  match xs with
  | [] => 0
  | x :: xs' => fold_right Rmin x xs'
  end.

Definition list_max (xs : list R) : R :=
  match xs with
  | [] => 0
  | x :: xs' => fold_right Rmax x xs'
  end.

(** [data[names] = scaler.fit_transform(data[names])]: the columns are
    fetched, validated (converted to float64; at least one row), fitted and
    transformed one by one, and written back. *)
Definition fit_transform (float_of_str : string -> option (option R))
  (transform : list (option R) -> list (option R))
  (names : list string) (df : DataFrame) : result DataFrame :=
  cols <- traverse (getitem df) names ;;
  xss <- traverse (to_float64 float_of_str) cols ;;
  if Nat.eqb (length (index df)) 0 then Err ValueError
  else Ok (setitems df names (map transform xss)).

Definition std_columns : list string := ["CO(GT)"; "PT08.S1(CO)"; "C6H6(GT)"].
Definition minmax_columns : list string := ["T"; "RH"; "AH"].

(** The two scalers, with the arithmetic of float64 as parameters.
    [rnd x] is the float64 nearest to the real [x]: every operation returns
    the rounding of its exact result.  [fit_mean] and [fit_var] are the
    [mean_] and [var_] that [StandardScaler.fit] computes for a column
    (scikit-learn's [_incremental_mean_and_var]).  A division by zero and
    the square root of a negative number raise nothing: they give an
    infinity or [NaN], here [None], which is not a number. *)

Section Binary64.

Variable rnd : R -> R.
Variable fit_mean : list R -> R.
Variable fit_var : list R -> R.

Definition fdiv (x y : R) : option R :=
  if Reqb y 0 then None else Some (rnd (x / y)).

Definition fsqrt (x : R) : option R :=
  if Rltb x 0 then None else Some (rnd (sqrt x)).

(** scikit-learn's [_is_constant_feature]: a column counts as constant when
    its variance is within the error bound of the variance of a constant,
    [var <= n_samples * eps * var + (n_samples * mean * eps) ** 2], computed
    operation by operation. *)
Definition is_constant_feature (var_ mean_ n_samples : R) : bool :=
  let t := rnd (rnd (n_samples * mean_) * eps) in
  Rleb var_ (rnd (rnd (rnd (n_samples * eps) * var_) + rnd (t * t))).

(** scikit-learn's [_handle_zeros_in_scale]: where the mask holds the scale
    is replaced by one, so that a constant column is not divided by zero. *)
Definition handle_zeros_in_scale (scale : option R) (constant_mask : bool)
  : option R :=
  if constant_mask then Some 1 else scale.

(** The columns that [StandardScaler] takes for constant. *)
Definition constant_for_standard_with (xs : list (option R)) : bool :=
  is_constant_feature (fit_var (present xs)) (fit_mean (present xs))
    (INR (length (present xs))).

(** [StandardScaler]: [mean_] and [var_] are fitted on the present entries
    of the column, [scale_] is the square root of [var_], handled where the
    column counts as constant, and [transform] is [X -= mean_] followed by
    [X /= scale_]; a [NaN] stays a [NaN]. *)
Definition standard_scale_with (xs : list (option R)) : list (option R) :=
  let mean_ := fit_mean (present xs) in
  let var_ := fit_var (present xs) in
  let scale_ :=
    handle_zeros_in_scale (fsqrt var_) (constant_for_standard_with xs) in
  map (fun x => match x, scale_ with
                | Some v, Some sc => fdiv (rnd (v - mean_)) sc
                | _, _ => None
                end) xs.

(** [MinMaxScaler] with its default [feature_range=(0, 1)]: the range is
    handled where it is below [10 * eps],
    [scale_ = (1 - 0) / _handle_zeros_in_scale(data_max_ - data_min_)],
    [min_ = 0 - data_min_ * scale_], and [transform] is [X *= scale_]
    followed by [X += min_].  The minimum and the maximum of a column are
    entries of it and are exact. *)
Definition minmax_scale_with (xs : list (option R)) : list (option R) :=
  let data_min := list_min (present xs) in
  let data_max := list_max (present xs) in
  let data_range := rnd (data_max - data_min) in
  let scale_ :=
    match handle_zeros_in_scale (Some data_range)
            (Rltb data_range (10 * eps)) with
    | Some d => fdiv (1 - 0) d
    | None => None
    end in
  map (fun x => match x, scale_ with
                | Some v, Some sc =>
                    Some (rnd (rnd (v * sc) + rnd (0 - rnd (data_min * sc))))
                | _, _ => None
                end) xs.

Definition scaler_with (float_of_str : string -> option (option R))
  (df : DataFrame) : result DataFrame :=
  df1 <- fit_transform float_of_str standard_scale_with std_columns df ;;
  fit_transform float_of_str minmax_scale_with minmax_columns df1.

End Binary64.

(** The two scalers in exact arithmetic: nothing is rounded, and the mean
    and the variance fitted are the mean and the mean squared deviation,
    divisor [n]. *)
Definition exact (x : R) : R := x.

Definition variance (xs : list R) : R :=
  mean (map (fun x => (x - mean xs) * (x - mean xs)) xs).

Definition standard_scale (xs : list (option R)) : list (option R) :=
  standard_scale_with exact mean variance xs.

Definition minmax_scale (xs : list (option R)) : list (option R) :=
  minmax_scale_with exact xs.

Definition constant_for_standard (xs : list (option R)) : bool :=
  constant_for_standard_with exact mean variance xs.

Definition constant_for_minmax (xs : list (option R)) : bool :=
  Rltb (list_max (present xs) - list_min (present xs)) (10 * eps).

Definition scaler (float_of_str : string -> option (option R))
  (df : DataFrame) : result DataFrame :=
  df1 <- fit_transform float_of_str standard_scale std_columns df ;;
  fit_transform float_of_str minmax_scale minmax_columns df1.

(** The two scalers on binary64 numbers, a column as a list of floats and
    a missing entry as a [NaN].  The sums are taken from left to right, as
    NumPy takes them on a column of fewer than eight entries. *)
Definition f64_eps : float := 0x1p-52%float.

Definition f64_present (xs : list float) : list float :=
  filter (fun x => negb (PrimFloat.is_nan x)) xs.

Definition f64_sum (xs : list float) : float :=
  fold_left PrimFloat.add xs 0%float.

Definition f64_count (xs : list float) : float :=
  PrimFloat.of_uint63 (Uint63.of_Z (Z.of_nat (length xs))).

(** [mean_] and [var_] as [_incremental_mean_and_var] computes them on the
    first batch: [T = new_sum / n], [temp = X - T],
    [correction = sum(temp)], and
    [var_ = (sum(temp ** 2) - correction ** 2 / n) / n]. *)
Definition f64_fit_mean (xs : list float) : float :=
  (f64_sum xs / f64_count xs)%float.

Definition f64_fit_var (xs : list float) : float :=
  let T := (f64_sum xs / f64_count xs)%float in
  let temp := map (fun x => (x - T)%float) xs in
  let correction := f64_sum temp in
  ((f64_sum (map (fun t => t * t) temp)
    - correction * correction / f64_count xs) / f64_count xs)%float.

Definition f64_is_constant_feature (var_ mean_ n_samples : float) : bool :=
  (var_ <=? n_samples * f64_eps * var_
            + (n_samples * mean_ * f64_eps) * (n_samples * mean_ * f64_eps))%float.

Definition f64_constant_for_standard (xs : list float) : bool :=
  f64_is_constant_feature (f64_fit_var (f64_present xs))
    (f64_fit_mean (f64_present xs)) (f64_count (f64_present xs)).

Definition f64_standard_scale (xs : list float) : list float :=
  let mean_ := f64_fit_mean (f64_present xs) in
  let var_ := f64_fit_var (f64_present xs) in
  let scale_ :=
    if f64_constant_for_standard xs then 1%float else PrimFloat.sqrt var_ in
  map (fun x => ((x - mean_) / scale_)%float) xs.

(** [np.nanmin] and [np.nanmax] of a column with a present entry. *)
Definition f64_min (xs : list float) : float :=
  match xs with
  | [] => PrimFloat.nan
  | x :: xs' => fold_left (fun a b => if (b <? a)%float then b else a) xs' x
  end.

Definition f64_max (xs : list float) : float :=
  match xs with
  | [] => PrimFloat.nan
  | x :: xs' => fold_left (fun a b => if (a <? b)%float then b else a) xs' x
  end.

Definition f64_minmax_scale (xs : list float) : list float :=
  let data_min := f64_min (f64_present xs) in
  let data_max := f64_max (f64_present xs) in
  let data_range := (data_max - data_min)%float in
  let scale_ :=
    ((1 - 0) / (if (data_range <? 10 * f64_eps)%float then 1%float
                else data_range))%float in
  let min_ := (0 - data_min * scale_)%float in
  map (fun x => (x * scale_ + min_)%float) xs.

(** ** Feature deriver

    [data['DateTime'] = pd.to_datetime(data['Date'] + ' ' + data['Time'])]
    [data['Hour'] = data['DateTime'].dt.hour]
    [data['Day'] = data['DateTime'].dt.day] *)

(** [series + ' ']: defined on an object column, where a [NaN] stays a
    [NaN]; on a numeric or datetime column it raises. *)
Definition add_str (s : Series) (t : string) : result (list (option string)) :=
  match s with
  | Object xs => Ok (map (option_map (fun a => String.append a t)) xs)
  | _ => Err TypeError
  end.

Definition cat (a b : option string) : option string :=
  match a, b with
  | Some x, Some y => Some (String.append x y)
  | _, _ => None
  end.

Definition both_present {A B : Type} (p : option A * option B) : bool :=
  match p with
  | (Some _, Some _) => true
  | _ => false
  end.

(** [left + series] for an object column [left]: the addition is carried out
    at the rows where both sides are present, the others are [NaN]; a str
    cannot be added to a number or a timestamp. *)
Definition add_series (left : list (option string)) (s : Series)
  : result (list (option string)) :=
  match s with
  | Object ys => Ok (map (fun p => cat (fst p) (snd p)) (combine left ys))
  | Float64 ys =>
      if existsb both_present (combine left ys) then Err TypeError
      else Ok (map (fun _ => None) (combine left ys))
  | Datetime64 ys =>
      if existsb both_present (combine left ys) then Err TypeError
      else Ok (map (fun _ => None) (combine left ys))
  end.

(** [pd.to_datetime] on a column of str and [NaN].  A [NaN] becomes [NaT].
    How a str is read is settled by the first str of the column, from which
    the format is inferred: [parse first s] is the timestamp of [s] under
    that reading, [None] if [s] cannot be read.  With the default
    [errors='raise'], one str that cannot be read raises for the call. *)
Definition parse_entry (parse : string -> option Z) (x : option string)
  : result (option Z) :=
  match x with
  | None => Ok None
  | Some s =>
      match parse s with
      | Some t => Ok (Some t)
      | None => Err ValueError
      end
  end.

Definition to_datetime (parse : string -> string -> option Z)
  (xs : list (option string)) : result (list (option Z)) :=
  match present xs with
  | [] => Ok (map (fun _ => None) xs)
  | first :: _ => traverse (parse_entry (parse first)) xs
  end.

Definition ns_per_hour : Z := 3600000000000.
Definition ns_per_day : Z := 86400000000000.

(** [.hour] of a timestamp. *)
Definition hour_of (t : Z) : Z := ((t / ns_per_hour) mod 24)%Z.

(** Day of the month of the day that is [z] days after 1970-01-01, in the
    proleptic Gregorian calendar: the day within its 400-year era, the year
    within the era, the day within the year counted from 1 March, the month
    counted from March, and the day within that month. *)
Definition day_of_days (z : Z) : Z :=
  let z1 := (z + 719468)%Z in
  let doe := (z1 mod 146097)%Z in
  let yoe := ((doe - doe / 1460 + doe / 36524 - doe / 146096) / 365)%Z in
  let doy := (doe - (365 * yoe + yoe / 4 - yoe / 100))%Z in
  let mp := ((5 * doy + 2) / 153)%Z in
  (doy - (153 * mp + 2) / 5 + 1)%Z.

(** [.day] of a timestamp. *)
Definition day_of (t : Z) : Z := day_of_days (t / ns_per_day).

(** [series.dt.hour] and [series.dt.day]: the field of every timestamp,
    [NaN] where the timestamp is [NaT]. *)
Definition dt_field (field : Z -> Z) (s : Series) : result Series :=
  match s with
  | Datetime64 ts => Ok (Float64 (map (option_map (fun t => IZR (field t))) ts))
  | _ => Err (LibraryError "AttributeError")
  end.

Definition feature_deriver (parse : string -> string -> option Z)
  (df : DataFrame) : result DataFrame :=
  date <- getitem df "Date" ;;
  date_sp <- add_str date " " ;;
  time <- getitem df "Time" ;;
  text <- add_series date_sp time ;;
  stamps <- to_datetime parse text ;;
  let df1 := setitem df "DateTime" (Datetime64 stamps) in
  dt <- getitem df1 "DateTime" ;;
  hours <- dt_field hour_of dt ;;
  let df2 := setitem df1 "Hour" hours in
  dt' <- getitem df2 "DateTime" ;;
  days <- dt_field day_of dt' ;;
  Ok (setitem df2 "Day" days).

(** The table with the three derived columns set, in the order of the cell. *)
Definition derived (df : DataFrame) (stamps : list (option Z)) : DataFrame :=
  setitem
    (setitem (setitem df "DateTime" (Datetime64 stamps))
       "Hour" (Float64 (map (option_map (fun t => IZR (hour_of t))) stamps)))
    "Day" (Float64 (map (option_map (fun t => IZR (day_of t))) stamps)).

(** The column [data['Date'] + ' ' + data['Time']] of two object columns. *)
Definition date_time_text (dates times : list (option string))
  : list (option string) :=
  map (fun p => cat (fst p) (snd p))
    (combine (map (option_map (fun a => String.append a " ")) dates) times).

(** How [to_datetime] reads the strs of a column. *)
Definition reading (parse : string -> string -> option Z)
  (text : list (option string)) : string -> option Z :=
  match present text with
  | [] => fun _ => None
  | first :: _ => parse first
  end.

(** ** The run of the consolidated cell

    The cell reads one file, shows two figures and writes one file.  The
    world it runs in holds the files by path and the figures shown so far,
    and what the operating system will do when a file is written: which
    paths can be opened for writing, the error raised for one that cannot,
    how many characters the file system will take before a write fails, and
    the error raised then.
    The [print] calls have no part in any property below and are left
    out. *)

(** [data.corr()] first converts the whole table to one float64 array, as
    pandas 2 does (the release that the notebook's Python 3.12 kernel
    needs): a str that [float] rejects raises [ValueError].  What is made of
    the other columns, and the drawing, is the parameter [heatmap] below. *)
Definition corr_to_float (float_of_str : string -> option (option R))
  (df : DataFrame) : result unit :=
  _ <- traverse (fun c => match snd c with
                          | Object xs =>
                              _ <- traverse (object_to_float float_of_str) xs ;;
                              Ok tt
                          | _ => Ok tt
                          end) (columns df) ;;
  Ok tt.

Section Run.

Variable Figure : Type.

Record World : Type := mkWorld {
  files : string -> option string;
  writable : string -> bool;
  refusal : string -> exn;
  room : nat;
  write_error : exn;
  shown : list Figure
}.

(** A statement of the cell: it returns or raises, and leaves a world. *)
Definition io (A : Type) : Type := World -> result A * World.

Definition io_bind {A B : Type} (m : io A) (k : A -> io B) : io B :=
  fun w =>
    match m w with
    | (Ok a, w') => k a w'
    | (Err e, w') => (Err e, w')
    end.

Definition io_ret {A : Type} (a : A) : io A := fun w => (Ok a, w).

(** A call that touches nothing outside the table. *)
Definition pure {A : Type} (r : result A) : io A := fun w => (r, w).

Definition read_file (path : string) : io string :=
  fun w =>
    match files w path with
    | Some text => (Ok text, w)
    | None => (Err FileNotFoundError, w)
    end.

Definition put_file (path text : string) (fs : string -> option string)
  : string -> option string :=
  fun p => if String.eqb p path then Some text else fs p.

Definition with_files (fs : string -> option string) (w : World) : World :=
  mkWorld fs (writable w) (refusal w) (room w) (write_error w) (shown w).

(** Writing a file is two steps.  The path is opened for writing: that
    raises and changes nothing when the path cannot be opened, and makes the
    file empty when it can.  Then the text is written: when the file system
    takes all of it the file holds the text; when it takes only the first
    [room] characters the file holds those and the call raises the error
    of the interruption, [write_error]: an [OSError] when the disk is
    full. *)
Definition write_file (path text : string) : io unit :=
  fun w =>
    if writable w path then
      if (String.length text <=? room w)%nat
      then (Ok tt, with_files (put_file path text (files w)) w)
      else (Err (write_error w),
            with_files (put_file path (substring 0 (room w) text) (files w)) w)
    else (Err (refusal w path), w).

(** [plt.show()] *)
Definition show (fig : Figure) : io unit :=
  fun w => (Ok tt,
            mkWorld (files w) (writable w) (refusal w) (room w) (write_error w)
              (shown w ++ [fig])).

(** The library routines whose results the properties do not depend on:
    the parse of the input text by [pd.read_csv(..., sep=';')], the two
    seaborn plots ([heatmap] stands for what [sns.heatmap(data.corr(), ...)]
    does once the table has been converted) and the text that
    [to_csv(..., index=False)] writes. *)
Variable read_csv : string -> result DataFrame.
Variable histplot : Series -> result Figure.
Variable heatmap : DataFrame -> result Figure.
Variable to_csv : DataFrame -> string.

Variable float_of_str : string -> option (option R).
Variable parse : string -> string -> option Z.

Definition input_path : string := "AirQualityUCI.csv".
Definition output_path : string := "AirQualityUCI_preprocessed.csv".

(** Stages 2 to 4 on the loaded table. *)
Definition transform_table (df : DataFrame) : result DataFrame :=
  df1 <- cleaner float_of_str df ;;
  df2 <- scaler float_of_str df1 ;;
  feature_deriver parse df2.

Definition pipeline : io DataFrame :=
  io_bind (read_file input_path) (fun text =>
  io_bind (pure (read_csv text)) (fun data =>
  io_bind (pure (transform_table data)) (fun data =>
  io_bind (pure (getitem data "CO(GT)")) (fun co =>
  io_bind (pure (histplot co)) (fun fig1 =>
  io_bind (show fig1) (fun _ =>
  io_bind (pure (corr_to_float float_of_str data)) (fun _ =>
  io_bind (pure (heatmap data)) (fun fig2 =>
  io_bind (show fig2) (fun _ =>
  io_bind (write_file output_path (to_csv data)) (fun _ =>
  io_ret data)))))))))).

End Run.

Arguments files {Figure} w.
Arguments writable {Figure} w.
Arguments refusal {Figure} w.
Arguments room {Figure} w.
Arguments write_error {Figure} w.
Arguments shown {Figure} w.

(** ** The output file as text, and its reading

    [data.to_csv(path, index=False)] writes the column names and then the
    rows through Python's [csv] writer with minimal quoting; [pd.read_csv]
    splits a text into records and fields, takes the first record for the
    column names and infers the dtype of each column. *)

Definition quote_char : ascii := "034"%char.
Definition LF : ascii := "010"%char.
Definition CR : ascii := "013"%char.

Definition is_newline (c : ascii) : bool := Ascii.eqb c LF || Ascii.eqb c CR.

Fixpoint string_exists (f : ascii -> bool) (s : string) : bool :=
  match s with
  | EmptyString => false
  | String c s' => f c || string_exists f s'
  end.

Definition string_mem (c : ascii) (s : string) : bool :=
  string_exists (Ascii.eqb c) s.

Fixpoint concat_strings (l : list string) : string :=
  match l with
  | [] => EmptyString
  | x :: l' => String.append x (concat_strings l')
  end.

(** The rows of [n] entries each that [cols] holds, one list per row. *)
Fixpoint records_of (n : nat) (cols : list (list string))
  : list (list string) :=
  match n with
  | O => []
  | S n' =>
      map (hd EmptyString) cols :: records_of n' (map (@tl string) cols)
  end.

Section CsvWriter.

(** The delimiter, a comma unless the call names another; the line
    terminator, [os.linesep]; the text of a number and of a timestamp,
    which pandas settles by column (an int64 column is written without a
    decimal point, a datetime column without the time when every time in
    it is midnight). *)
Variable sep : ascii.
Variable lineterminator : string.
Variable num_text : list (option R) -> R -> string.
Variable stamp_text : list (option Z) -> Z -> string.

(** A field is quoted when it holds the delimiter, the quote character or
    a character of the line terminator; inside the quotes a quote is
    doubled. *)
Definition needs_quote (s : string) : bool :=
  string_exists
    (fun c => Ascii.eqb c sep || Ascii.eqb c quote_char
              || string_mem c lineterminator) s.

Fixpoint double_quotes (s : string) : string :=
  match s with
  | EmptyString => EmptyString
  | String c s' =>
      if Ascii.eqb c quote_char
      then String c (String c (double_quotes s'))
      else String c (double_quotes s')
  end.

Definition csv_field (s : string) : string :=
  if needs_quote s
  then String quote_char
         (String.append (double_quotes s) (String quote_char EmptyString))
  else s.

Fixpoint csv_join (fields : list string) : string :=
  match fields with
  | [] => EmptyString
  | [f] => f
  | f :: fs => String.append f (String sep (csv_join fs))
  end.

(** One line of the file.  A record that is one empty field is written as
    two quotes, so that the line is not blank. *)
Definition csv_record (fields : list string) : string :=
  String.append
    (match fields with
     | [EmptyString] => String quote_char (String quote_char EmptyString)
     | _ => csv_join (map csv_field fields)
     end)
    lineterminator.

(** The text of each entry of a column; a missing entry is written as the
    empty text. *)
Definition series_texts (s : Series) : list string :=
  match s with
  | Float64 xs =>
      map (fun x => match x with
                    | Some r => num_text xs r
                    | None => EmptyString
                    end) xs
  | Object xs =>
      map (fun x => match x with
                    | Some t => t
                    | None => EmptyString
                    end) xs
  | Datetime64 ts =>
      map (fun x => match x with
                    | Some t => stamp_text ts t
                    | None => EmptyString
                    end) ts
  end.

(** The header and the rows; the index is not written. *)
Definition to_csv_text (df : DataFrame) : string :=
  String.append
    (csv_record (map fst (columns df)))
    (concat_strings
       (map csv_record
          (records_of (length (index df))
             (map (fun c => series_texts (snd c)) (columns df))))).

End CsvWriter.

Section CsvReader.

(** The delimiter of the call, and the number that pandas reads from a
    field, [None] for a field that is not a number. *)
Variable sep : ascii.
Variable parse_num : string -> option R.

Inductive lex_state : Type :=
| FieldStart
| Unquoted
| Quoted
| QuoteInQuoted.

Definition snoc (s : string) (c : ascii) : string :=
  String.append s (String c EmptyString).

(** The split of a text into records of fields.  A line feed and a carriage
    return both end a record; a line without any character is skipped;
    between quotes every character but the quote is part of the field, and
    two quotes are one.  A quote inside a field that did not begin with
    one, which the writer never produces, is kept as it is. *)
Fixpoint tokens (st : lex_state) (field : string) (rec : list string)
  (s : string) : list (list string) :=
  match s with
  | EmptyString =>
      match st, rec with
      | FieldStart, [] => []
      | _, _ => [(rec ++ [field])%list]
      end
  | String c s' =>
      match st with
      | FieldStart =>
          if Ascii.eqb c quote_char then tokens Quoted EmptyString rec s'
          else if Ascii.eqb c sep
          then tokens FieldStart EmptyString (rec ++ [EmptyString])%list s'
          else if is_newline c
          then match rec with
               | [] => tokens FieldStart EmptyString [] s'
               | _ :: _ =>
                   (rec ++ [EmptyString])%list
                   :: tokens FieldStart EmptyString [] s'
               end
          else tokens Unquoted (String c EmptyString) rec s'
      | Unquoted =>
          if Ascii.eqb c sep
          then tokens FieldStart EmptyString (rec ++ [field])%list s'
          else if is_newline c
          then (rec ++ [field])%list :: tokens FieldStart EmptyString [] s'
          else tokens Unquoted (snoc field c) rec s'
      | Quoted =>
          if Ascii.eqb c quote_char then tokens QuoteInQuoted field rec s'
          else tokens Quoted (snoc field c) rec s'
      | QuoteInQuoted =>
          if Ascii.eqb c quote_char
          then tokens Quoted (snoc field c) rec s'
          else if Ascii.eqb c sep
          then tokens FieldStart EmptyString (rec ++ [field])%list s'
          else if is_newline c
          then (rec ++ [field])%list :: tokens FieldStart EmptyString [] s'
          else tokens Unquoted (snoc field c) rec s'
      end
  end.

(** The fields that are read as a missing entry, quoted or not. *)
Definition na_values : list string :=
  [ "#N/A"; "#N/A N/A"; "#NA"; "-1.#IND"; "-1.#QNAN"; "-NaN"; "-nan";
    "1.#IND"; "1.#QNAN"; "<NA>"; "N/A"; "NA"; "NULL"; "NaN"; "None";
    "n/a"; "nan"; "null" ].

Definition is_na (s : string) : bool :=
  match s with
  | EmptyString => true
  | _ => existsb (String.eqb s) na_values
  end.

Definition field_value (s : string) : option string :=
  if is_na s then None else Some s.

Definition is_number (s : string) : bool :=
  match parse_num s with
  | Some _ => true
  | None => false
  end.

(** The dtype of a column: float64 when every field that is present is a
    number, in particular when none is present; object otherwise.  A column
    of the words True and False, which pandas reads as booleans, is left
    out: the cell writes none. *)
Definition infer (fields : list string) : Series :=
  let vals := map field_value fields in
  if forallb is_number (present vals)
  then Float64 (map (fun v => match v with
                              | Some t => parse_num t
                              | None => None
                              end) vals)
  else Object vals.

(** The columns under the names of the header: the fields of a record go
    to the columns in order, and a record that is short is filled with
    missing entries. *)
Fixpoint columns_of (header : list string) (records : list (list string))
  : list (string * Series) :=
  match header with
  | [] => []
  | name :: header' =>
      (name, infer (map (hd EmptyString) records))
      :: columns_of header' (map (@tl string) records)
  end.

(** [pd.read_csv(text, sep=sep)]: the rows are numbered from 0.  A text
    without a record raises; so does, here, a record with more fields than
    the header (pandas takes the fields in excess for an index when every
    record has them). *)
Definition read_csv_text (text : string) : result DataFrame :=
  match tokens FieldStart EmptyString [] text with
  | [] => Err (LibraryError "EmptyDataError")
  | header :: records =>
      if existsb (fun r => (length header <? length r)%nat) records
      then Err (LibraryError "ParserError")
      else Ok (mkDataFrame (seq 0 (length records))
                 (columns_of header records))
  end.

End CsvReader.

(** The words that pandas reads as booleans. *)
Definition bool_words : list string :=
  [ "True"; "TRUE"; "true"; "False"; "FALSE"; "false" ].

Definition is_bool_word (s : string) : bool := existsb (String.eqb s) bool_words.

(** A text that the writer gives back as it is, without quotes, holds no
    line break: a line feed or a carriage return in it would end the record
    when the file is read. *)
Definition no_bare_newline (sep : ascii) (lineterminator : string)
  (s : string) : Prop :=
  string_exists is_newline s = true -> needs_quote sep lineterminator s = true.

(** What a cell of the table is after the file has been written and read:
    a number is the number read from its text, a text is itself, a
    timestamp is its text, and a missing entry is missing. *)
Definition cell_reloaded (close : R -> R -> Prop) (stamp : Z -> string)
  (c c' : cell) : Prop :=
  match c, c' with
  | Num r, Num r' => close r r'
  | Text t, Text t' => t = t'
  | Stamp t, Text t' => stamp t = t'
  | Missing, Missing => True
  | _, _ => False
  end.

Definition series_reloaded (close : R -> R -> Prop)
  (stamp_text : list (option Z) -> Z -> string) (s s' : Series) : Prop :=
  Forall2
    (cell_reloaded close
       (match s with
        | Datetime64 ts => stamp_text ts
        | _ => fun _ => EmptyString
        end))
    (series_cells s) (series_cells s').

(** ** Example tables *)



(** The scenario of the spec: three rows, a sentinel in [CO(GT)] of the
    first and in [PT08.S1(CO)] of the second. *)
Definition scenario : DataFrame :=
  mkDataFrame [0; 1; 2]%nat
    [ ("Date", Object [Some "2004-03-10"; Some "2004-03-10"; Some "2004-03-10"]);
      ("Time", Object [Some "18:00:00"; Some "19:00:00"; Some "20:00:00"]);
      ("CO(GT)", Float64 [Some (-200); Some 2; Some 3]);
      ("PT08.S1(CO)", Float64 [Some 1100; Some (-200); Some 1200]) ].

(** An instance of [float_of_str] for the example tables: Python's [float]
    raises on every text that occurs in them (["2,6"], dates, times). *)
Definition float_raises : string -> option (option R) := fun _ => None.


(** [CO(GT)] with one reading missing. *)
Definition gap_table : DataFrame :=
  mkDataFrame [0; 1; 2]%nat
    [ ("CO(GT)", Float64 [Some 1; None; Some 3]);
      ("T", Float64 [Some 11; Some 12; Some (-200)]) ].

(** [CO(GT)] whose only present reading is the sentinel. *)
Definition sentinel_only_table : DataFrame :=
  mkDataFrame [0; 1]%nat
    [ ("CO(GT)", Float64 [Some (-200); None]);
      ("T", Float64 [Some 11; Some 12]) ].

(** Two rows in which every scaled column is constant. *)
Definition constant_table : DataFrame :=
  mkDataFrame [0; 1]%nat
    [ ("CO(GT)", Float64 [Some 1; Some 1]);
      ("PT08.S1(CO)", Float64 [Some 2; Some 2]);
      ("C6H6(GT)", Float64 [Some 3; Some 3]);
      ("T", Float64 [Some 4; Some 4]);
      ("RH", Float64 [Some 5; Some 5]);
      ("AH", Float64 [Some 6; Some 6]) ].

Definition zero_table : DataFrame :=
  mkDataFrame [0; 1]%nat
    [ ("CO(GT)", Float64 [Some 0; Some 0]);
      ("PT08.S1(CO)", Float64 [Some 0; Some 0]);
      ("C6H6(GT)", Float64 [Some 0; Some 0]);
      ("T", Float64 [Some 0; Some 0]);
      ("RH", Float64 [Some 0; Some 0]);
      ("AH", Float64 [Some 0; Some 0]) ].

(** Two rows in which every scaled column holds 0 and 2. *)
Definition spread_table : DataFrame :=
  mkDataFrame [0; 1]%nat
    [ ("CO(GT)", Float64 [Some 0; Some 2]);
      ("PT08.S1(CO)", Float64 [Some 0; Some 2]);
      ("C6H6(GT)", Float64 [Some 0; Some 2]);
      ("T", Float64 [Some 0; Some 2]);
      ("RH", Float64 [Some 0; Some 2]);
      ("AH", Float64 [Some 0; Some 2]) ].

(** What the Scaler makes of [spread_table]. *)
Definition spread_scaled : DataFrame :=
  mkDataFrame [0; 1]%nat
    [ ("CO(GT)", Float64 [Some (-1); Some 1]);
      ("PT08.S1(CO)", Float64 [Some (-1); Some 1]);
      ("C6H6(GT)", Float64 [Some (-1); Some 1]);
      ("T", Float64 [Some 0; Some 1]);
      ("RH", Float64 [Some 0; Some 1]);
      ("AH", Float64 [Some 0; Some 1]) ].

(** An instance of [parse] for the example tables: it reads the one date
    and time that is well formed in them, 2004-03-10 18:00:00, which is
    1078941600 seconds after the epoch, whatever the first str of the
    column. *)
Definition parse_example (first s : string) : option Z :=
  if String.eqb s "2004-03-10 18:00:00" then Some 1078941600000000000%Z
  else None.

(** A reading followed by a row without date and time. *)
Definition blank_row_table : DataFrame :=
  mkDataFrame [0; 1]%nat
    [ ("Date", Object [Some "2004-03-10"; None]);
      ("Time", Object [Some "18:00:00"; None]);
      ("CO(GT)", Float64 [Some 2; None]) ].


(** What the Feature Deriver makes of [blank_row_table]. *)
Definition blank_row_derived : DataFrame :=
  mkDataFrame [0; 1]%nat
    [ ("Date", Object [Some "2004-03-10"; None]);
      ("Time", Object [Some "18:00:00"; None]);
      ("CO(GT)", Float64 [Some 2; None]);
      ("DateTime", Datetime64 [Some 1078941600000000000%Z; None]);
      ("Hour", Float64 [Some 18; None]);
      ("Day", Float64 [Some 10; None]) ].

(** A loaded table whose last line is blank: two readings and a row in
    which every column is missing. *)
Definition blank_line_loaded : DataFrame :=
  mkDataFrame [0; 1; 2]%nat
    [ ("Date", Object [Some "2004-03-10"; Some "2004-03-10"; None]);
      ("Time", Object [Some "18:00:00"; Some "18:00:00"; None]);
      ("CO(GT)", Float64 [Some 0; Some 2; None]);
      ("PT08.S1(CO)", Float64 [Some 0; Some 2; None]);
      ("C6H6(GT)", Float64 [Some 0; Some 2; None]);
      ("T", Float64 [Some 0; Some 2; None]);
      ("RH", Float64 [Some 0; Some 2; None]);
      ("AH", Float64 [Some 0; Some 2; None]) ].

Definition blank_line_cleaned : DataFrame :=
  mkDataFrame [0; 1; 2]%nat
    [ ("Date", Object [Some "2004-03-10"; Some "2004-03-10"; None]);
      ("Time", Object [Some "18:00:00"; Some "18:00:00"; None]);
      ("CO(GT)", Float64 [Some 0; Some 2; Some 1]);
      ("PT08.S1(CO)", Float64 [Some 0; Some 2; None]);
      ("C6H6(GT)", Float64 [Some 0; Some 2; None]);
      ("T", Float64 [Some 0; Some 2; None]);
      ("RH", Float64 [Some 0; Some 2; None]);
      ("AH", Float64 [Some 0; Some 2; None]) ].

(** The text of a line feed, and a text made of lines. *)
Definition nl : string := String LF EmptyString.

Definition lines (ls : list string) : string :=
  concat_strings (map (fun l => String.append l nl) ls).

(** An instance of [parse_num] for the example texts: the numbers that
    occur in them; no other field of them is a number. *)
Definition number_example (s : string) : option R :=
  if String.eqb s "-200" then Some (-200)
  else if String.eqb s "0" then Some 0
  else if String.eqb s "2" then Some 2
  else if String.eqb s "-1.0" then Some (-1)
  else if String.eqb s "0.0" then Some 0
  else if String.eqb s "1.0" then Some 1
  else if String.eqb s "10" then Some 10
  else if String.eqb s "18" then Some 18
  else None.

(** The text of a number of the example tables: the scaled columns are
    float64 and hold -1, 0 and 1, [Hour] and [Day] are integers. *)
Definition num_text_example : list (option R) -> R -> string :=
  fun _ r =>
    if Reqb r 0 then "0.0"
    else if Reqb r 1 then "1.0"
    else if Reqb r (-1) then "-1.0"
    else if Reqb r 18 then "18"
    else "10".

(** The text of the one timestamp of the example tables. *)
Definition stamp_example : list (option Z) -> Z -> string :=
  fun _ _ => "2004-03-10 18:00:00".

(** An input file of three readings: one dated, with the sentinel in
    [CO(GT)], and two without date and time. *)
Definition undated_input : string :=
  lines [ "Date;Time;CO(GT);PT08.S1(CO);C6H6(GT);T;RH;AH";
          "2004-03-10;18:00:00;-200;2;0;0;2;0";
          ";;0;2;0;0;2;0";
          ";;2;0;2;2;0;2" ].

Definition undated_loaded : DataFrame :=
  mkDataFrame [0; 1; 2]%nat
    [ ("Date", Object [Some "2004-03-10"; None; None]);
      ("Time", Object [Some "18:00:00"; None; None]);
      ("CO(GT)", Float64 [Some (-200); Some 0; Some 2]);
      ("PT08.S1(CO)", Float64 [Some 2; Some 2; Some 0]);
      ("C6H6(GT)", Float64 [Some 0; Some 0; Some 2]);
      ("T", Float64 [Some 0; Some 0; Some 2]);
      ("RH", Float64 [Some 2; Some 2; Some 0]);
      ("AH", Float64 [Some 0; Some 0; Some 2]) ].

(** What stages 2 to 4 make of it: the dated row is removed, and no row
    that is left has a timestamp. *)
Definition undated_final : DataFrame :=
  mkDataFrame [1; 2]%nat
    [ ("Date", Object [None; None]);
      ("Time", Object [None; None]);
      ("CO(GT)", Float64 [Some (-1); Some 1]);
      ("PT08.S1(CO)", Float64 [Some 1; Some (-1)]);
      ("C6H6(GT)", Float64 [Some (-1); Some 1]);
      ("T", Float64 [Some 0; Some 1]);
      ("RH", Float64 [Some 1; Some 0]);
      ("AH", Float64 [Some 0; Some 1]);
      ("DateTime", Datetime64 [None; None]);
      ("Hour", Float64 [None; None]);
      ("Day", Float64 [None; None]) ].

Definition undated_output : string :=
  lines [ "Date,Time,CO(GT),PT08.S1(CO),C6H6(GT),T,RH,AH,DateTime,Hour,Day";
          ",,-1.0,1.0,-1.0,0.0,1.0,0.0,,,";
          ",,1.0,-1.0,1.0,1.0,0.0,1.0,,," ].

(** [undated_output] read as the Loader reads, with [sep=';']: every line
    is one field. *)
Definition undated_reloaded_by_loader : DataFrame :=
  mkDataFrame [0; 1]%nat
    [ ("Date,Time,CO(GT),PT08.S1(CO),C6H6(GT),T,RH,AH,DateTime,Hour,Day",
       Object [ Some ",,-1.0,1.0,-1.0,0.0,1.0,0.0,,,";
                Some ",,1.0,-1.0,1.0,1.0,0.0,1.0,,," ]) ].

(** Two dated readings. *)
Definition dated_loaded : DataFrame :=
  mkDataFrame [0; 1]%nat
    [ ("Date", Object [Some "2004-03-10"; Some "2004-03-10"]);
      ("Time", Object [Some "18:00:00"; Some "18:00:00"]);
      ("CO(GT)", Float64 [Some 0; Some 2]);
      ("PT08.S1(CO)", Float64 [Some 2; Some 0]);
      ("C6H6(GT)", Float64 [Some 0; Some 2]);
      ("T", Float64 [Some 0; Some 2]);
      ("RH", Float64 [Some 2; Some 0]);
      ("AH", Float64 [Some 0; Some 2]) ].

Definition dated_final : DataFrame :=
  mkDataFrame [0; 1]%nat
    [ ("Date", Object [Some "2004-03-10"; Some "2004-03-10"]);
      ("Time", Object [Some "18:00:00"; Some "18:00:00"]);
      ("CO(GT)", Float64 [Some (-1); Some 1]);
      ("PT08.S1(CO)", Float64 [Some 1; Some (-1)]);
      ("C6H6(GT)", Float64 [Some (-1); Some 1]);
      ("T", Float64 [Some 0; Some 1]);
      ("RH", Float64 [Some 1; Some 0]);
      ("AH", Float64 [Some 0; Some 1]);
      ("DateTime", Datetime64 [Some 1078941600000000000%Z;
                               Some 1078941600000000000%Z]);
      ("Hour", Float64 [Some 18; Some 18]);
      ("Day", Float64 [Some 10; Some 10]) ].

Definition dated_output : string :=
  lines [ "Date,Time,CO(GT),PT08.S1(CO),C6H6(GT),T,RH,AH,DateTime,Hour,Day";
          "2004-03-10,18:00:00,-1.0,1.0,-1.0,0.0,1.0,0.0,2004-03-10 18:00:00,18,10";
          "2004-03-10,18:00:00,1.0,-1.0,1.0,1.0,0.0,1.0,2004-03-10 18:00:00,18,10" ].

(** [dated_output] read with the default delimiter, the comma. *)
Definition dated_reloaded : DataFrame :=
  mkDataFrame [0; 1]%nat
    [ ("Date", Object [Some "2004-03-10"; Some "2004-03-10"]);
      ("Time", Object [Some "18:00:00"; Some "18:00:00"]);
      ("CO(GT)", Float64 [Some (-1); Some 1]);
      ("PT08.S1(CO)", Float64 [Some 1; Some (-1)]);
      ("C6H6(GT)", Float64 [Some (-1); Some 1]);
      ("T", Float64 [Some 0; Some 1]);
      ("RH", Float64 [Some 1; Some 0]);
      ("AH", Float64 [Some 0; Some 1]);
      ("DateTime", Object [Some "2004-03-10 18:00:00";
                           Some "2004-03-10 18:00:00"]);
      ("Hour", Float64 [Some 18; Some 18]);
      ("Day", Float64 [Some 10; Some 10]) ].

(** [dated_output] read as the Loader reads, with [sep=';']: every line is
    one field. *)
Definition dated_reloaded_by_loader : DataFrame :=
  mkDataFrame [0; 1]%nat
    [ ("Date,Time,CO(GT),PT08.S1(CO),C6H6(GT),T,RH,AH,DateTime,Hour,Day",
       Object
         [ Some "2004-03-10,18:00:00,-1.0,1.0,-1.0,0.0,1.0,0.0,2004-03-10 18:00:00,18,10";
           Some "2004-03-10,18:00:00,1.0,-1.0,1.0,1.0,0.0,1.0,2004-03-10 18:00:00,18,10" ]) ].

(** A world for the example runs: the input file is [undated_input], every
    path can be opened for writing, and the file system takes [free]
    characters. *)
Definition example_world (free : nat) : World unit :=
  mkWorld unit
    (fun p => if String.eqb p input_path then Some undated_input else None)
    (fun _ => true) (fun _ => PermissionError) free OSError [].

(** The cell with the file read as [read_csv_text] reads it, both plots
    succeeding, and the table written as [to_csv_text] writes it. *)
Definition example_run : io unit DataFrame :=
  pipeline unit (read_csv_text ";" number_example)
    (fun _ => Ok tt) (fun _ => Ok tt)
    (to_csv_text "," nl num_text_example stamp_example)
    float_raises parse_example.

(** The same world with no path that can be opened for writing. *)
Definition refusing_world : World unit :=
  mkWorld unit
    (fun p => if String.eqb p input_path then Some undated_input else None)
    (fun _ => false) (fun _ => PermissionError) 1000 OSError [].

(** An input file of two dated readings, and a world that holds it. *)
Definition dated_input : string :=
  lines [ "Date;Time;CO(GT);PT08.S1(CO);C6H6(GT);T;RH;AH";
          "2004-03-10;18:00:00;0;2;0;0;2;0";
          "2004-03-10;18:00:00;2;0;2;2;0;2" ].

Definition dated_world : World unit :=
  mkWorld unit
    (fun p => if String.eqb p input_path then Some dated_input else None)
    (fun _ => true) (fun _ => PermissionError) 1000 OSError [].

(** * Properties *)

(** ** Lists, masks and rows *)

Lemma Reqb_true_iff (x y : R) : Reqb x y = true <-> x = y.
Proof.
  unfold Reqb. destruct (Req_dec_T x y); split; intro H; congruence.
Qed.

Lemma Reqb_false_iff (x y : R) : Reqb x y = false <-> x <> y.
Proof.
  unfold Reqb. destruct (Req_dec_T x y); split; intro H; congruence.
Qed.

Lemma Reqb_refl (x : R) : Reqb x x = true.
Proof. now apply Reqb_true_iff. Qed.

Lemma select_map {A B : Type} (f : A -> B) (m : list bool) (l : list A) :
  select m (map f l) = map f (select m l).
Proof.
  revert l. induction m as [|b m IH]; intros [|x l]; simpl; auto.
  destruct b; simpl; now rewrite IH.
Qed.

Lemma select_map_filter {A : Type} (f : A -> bool) (l : list A) :
  select (map f l) l = filter f l.
Proof.
  induction l as [|x l IH]; simpl; auto.
  destruct (f x); now rewrite IH.
Qed.

Lemma select_combine {A B : Type} (m : list bool) (l : list A) (k : list B) :
  select m (combine l k) = combine (select m l) (select m k).
Proof.
  revert l k. induction m as [|b m IH]; intros [|x l] [|y k]; simpl; auto.
  - destruct b; auto. now destruct (select m l).
  - destruct b; simpl; now rewrite IH.
Qed.

Lemma select_In_nth {A : Type} (m : list bool) (l : list A) (x : A) :
  In x (select m l) ->
  exists p, nth_error m p = Some true /\ nth_error l p = Some x.
Proof.
  revert l. induction m as [|b m IH]; intros [|y l] H; simpl in H;
    try contradiction.
  destruct b.
  - destruct H as [H | H].
    + exists 0%nat. subst. auto.
    + destruct (IH _ H) as [p Hp]. now exists (S p).
  - destruct (IH _ H) as [p Hp]. now exists (S p).
Qed.

Lemma nth_In_select {A : Type} (m : list bool) (l : list A) (p : nat) (x : A) :
  nth_error m p = Some true -> nth_error l p = Some x -> In x (select m l).
Proof.
  revert l p. induction m as [|b m IH]; intros [|y l] [|p] Hm Hl;
    simpl in *; try discriminate.
  - injection Hm as ->. injection Hl as ->. now left.
  - destruct b; [right|]; eapply IH; eauto.
Qed.

Lemma and_rows_nth (c acc : list bool) (p : nat) :
  length c = length acc -> (p < length acc)%nat ->
  nth_error (and_rows c acc) p = Some (nth p c true && nth p acc true).
Proof.
  revert acc p. induction c as [|b c IH]; intros [|a acc] p Hlen Hp;
    simpl in *; try discriminate; try lia.
  destruct p as [|p]; simpl; auto.
  apply IH; lia.
Qed.

Lemma and_rows_length (c acc : list bool) :
  length c = length acc -> length (and_rows c acc) = length acc.
Proof.
  intro H. unfold and_rows. rewrite length_map, length_combine. lia.
Qed.

Lemma all_axis1_length (n : nat) (cols : list (list bool)) :
  Forall (fun c => length c = n) cols -> length (all_axis1 n cols) = n.
Proof.
  induction 1 as [|c cols Hc _ IH]; simpl.
  - apply repeat_length.
  - rewrite and_rows_length; congruence.
Qed.

Lemma all_axis1_nth (n : nat) (cols : list (list bool)) (p : nat) :
  Forall (fun c => length c = n) cols -> (p < n)%nat ->
  nth_error (all_axis1 n cols) p = Some (forallb (fun c => nth p c true) cols).
Proof.
  intros Hall Hp. induction Hall as [|c cols Hc Hcols IH]; simpl.
  - rewrite nth_error_repeat; auto.
  - pose proof (all_axis1_length n cols Hcols) as Hlen.
    unfold all_axis1 in *.
    rewrite and_rows_nth by (rewrite ?Hlen; lia).
    f_equal. f_equal.
    apply nth_error_nth with (d := true) in IH. exact IH.
Qed.

Lemma series_cells_length (s : Series) :
  length (series_cells s) = series_len s.
Proof. destruct s; simpl; apply length_map. Qed.

Lemma series_cells_select (m : list bool) (s : Series) :
  series_cells (series_select m s) = select m (series_cells s).
Proof. destruct s; simpl; now rewrite select_map. Qed.

Lemma ne_scalar_cells (s : Series) :
  ne_scalar sentinel s = map (fun c => negb (is_sentinel c)) (series_cells s).
Proof.
  destruct s; simpl; rewrite map_map; apply map_ext; intros [x|]; reflexivity.
Qed.

Lemma all_axis1_nil (cols : list (list bool)) :
  Forall (fun c => c = []) cols -> all_axis1 0 cols = [].
Proof.
  induction 1 as [|c cols Hc _ IH]; simpl; auto.
  now subst.
Qed.

Lemma all_axis1_cons (g : cell -> bool) (n : nat) (cols : list (list cell)) :
  Forall (fun c => c <> []) cols ->
  all_axis1 (S n) (map (map g) cols)
  = forallb g (map (hd Missing) cols)
    :: all_axis1 n (map (map g) (map (@tl cell) cols)).
Proof.
  induction 1 as [|c cols Hc _ IH]; simpl; auto.
  destruct c as [|x c]; [contradiction|].
  unfold all_axis1 in *. rewrite IH. reflexivity.
Qed.

Lemma aligned_cons_nonempty {A : Type} (n : nat) (cols : list (list A)) :
  Forall (fun c => length c = S n) cols ->
  Forall (fun c => c <> []) cols
  /\ Forall (fun c => length c = n) (map (@tl A) cols).
Proof.
  induction 1 as [|c cols Hc _ [IH1 IH2]]; simpl; split; auto;
    constructor; auto; destruct c; simpl in *; try discriminate; lia.
Qed.

Lemma all_axis1_rows (g : cell -> bool) (idx : list nat)
  (cols : list (list cell)) :
  Forall (fun c => length c = length idx) cols ->
  all_axis1 (length idx) (map (map g) cols)
  = map (fun r => forallb g (snd r)) (rows_of idx cols).
Proof.
  revert cols. induction idx as [|l idx IH]; intros cols Hall; simpl.
  - apply all_axis1_nil. rewrite Forall_map.
    eapply Forall_impl; [|exact Hall]. simpl. intros c Hc.
    apply length_zero_iff_nil in Hc. now subst.
  - destruct (aligned_cons_nonempty _ _ Hall) as [Hne Htl].
    rewrite all_axis1_cons by assumption. f_equal. now apply IH.
Qed.

Lemma rows_of_select (m : list bool) (idx : list nat)
  (cols : list (list cell)) :
  length m = length idx ->
  Forall (fun c => length c = length idx) cols ->
  rows_of (select m idx) (map (select m) cols) = select m (rows_of idx cols).
Proof.
  revert m cols. induction idx as [|l idx IH]; intros [|b m] cols Hm Hall;
    try discriminate; auto.
  simpl in Hm, Hall.
  destruct (aligned_cons_nonempty _ _ Hall) as [Hne Htl].
  assert (Hsel : map (select (b :: m)) cols
                 = if b
                   then map (fun c => hd Missing c :: select m (tl c)) cols
                   else map (select m) (map (@tl cell) cols)).
  { destruct b; [|rewrite map_map]; apply map_ext_in; intros c Hc;
      rewrite Forall_forall in Hne; specialize (Hne c Hc);
      destruct c; simpl; congruence. }
  rewrite Hsel. destruct b; simpl.
  - rewrite !map_map. simpl. f_equal.
    rewrite <- (map_map (@tl cell) (select m)). apply IH; auto.
  - apply IH; auto.
Qed.

Lemma row_mask_rows (df : DataFrame) :
  aligned df -> row_mask df = map row_clean (rows df).
Proof.
  intro Hal. unfold row_mask, rows, row_clean.
  rewrite (map_ext _ (fun c => map (fun c => negb (is_sentinel c))
                                 (series_cells (snd c))))
    by (intros; apply ne_scalar_cells).
  rewrite <- (map_map (fun c => series_cells (snd c))
                (map (fun c => negb (is_sentinel c)))).
  apply all_axis1_rows.
  rewrite Forall_map. eapply Forall_impl; [|exact Hal].
  intros c Hc. simpl. now rewrite series_cells_length.
Qed.

Lemma rows_length (idx : list nat) (cols : list (list cell)) :
  length (rows_of idx cols) = length idx.
Proof.
  revert cols. induction idx as [|l idx IH]; intros cols; simpl; auto.
Qed.

Lemma rows_drop_sentinel (df : DataFrame) :
  aligned df -> rows (drop_sentinel df) = filter_rows_spec (rows df).
Proof.
  intro Hal. unfold filter_rows_spec.
  rewrite <- select_map_filter, <- row_mask_rows by assumption.
  unfold drop_sentinel, getitem_mask, rows at 1. simpl.
  rewrite map_map. simpl.
  rewrite (map_ext _ (fun c => select (row_mask df) (series_cells (snd c))))
    by (intros; apply series_cells_select).
  rewrite <- (map_map (fun c => series_cells (snd c)) (select (row_mask df))).
  apply rows_of_select.
  - rewrite row_mask_rows by assumption. rewrite length_map. apply rows_length.
  - rewrite Forall_map. eapply Forall_impl; [|exact Hal].
    intros c Hc. simpl. now rewrite series_cells_length.
Qed.

Lemma row_mask_length (df : DataFrame) :
  aligned df -> length (row_mask df) = length (index df).
Proof.
  intro Hal. unfold row_mask. apply all_axis1_length.
  rewrite Forall_map. eapply Forall_impl; [|exact Hal].
  intros c Hc. simpl. rewrite ne_scalar_cells, length_map.
  now rewrite series_cells_length.
Qed.

Lemma row_mask_nth (df : DataFrame) (p : nat) :
  aligned df -> (p < length (index df))%nat ->
  nth_error (row_mask df) p
  = Some (forallb (fun c => nth p (ne_scalar sentinel (snd c)) true)
            (columns df)).
Proof.
  intros Hal Hp. unfold row_mask. rewrite all_axis1_nth; auto.
  - f_equal. induction (columns df) as [|c cols IH]; simpl; congruence.
  - rewrite Forall_map. eapply Forall_impl; [|exact Hal].
    intros c Hc. simpl. rewrite ne_scalar_cells, length_map.
    now rewrite series_cells_length.
Qed.

Lemma ne_scalar_nth_cell (s : Series) (p : nat) (c : cell) :
  nth_error (series_cells s) p = Some c ->
  nth p (ne_scalar sentinel s) true = negb (is_sentinel c).
Proof.
  intro H. rewrite ne_scalar_cells.
  apply nth_error_nth.
  rewrite nth_error_map, H. reflexivity.
Qed.

Lemma is_sentinel_iff (c : cell) : is_sentinel c = true <-> c = Num sentinel.
Proof.
  destruct c; simpl; split; intro H; try discriminate.
  - apply Reqb_true_iff in H. now subst.
  - injection H as ->. apply Reqb_refl.
Qed.

Lemma row_clean_iff (r : nat * list cell) :
  row_clean r = true <-> forall c, In c (snd r) -> c <> Num sentinel.
Proof.
  unfold row_clean. rewrite forallb_forall. split; intros H c Hc.
  - specialize (H c Hc). intro Heq. apply is_sentinel_iff in Heq.
    rewrite Heq in H. discriminate.
  - destruct (is_sentinel c) eqn:E; auto.
    apply is_sentinel_iff in E. now apply H in Hc.
Qed.

(** ** Cleaner: the sentinel filter *)

(** C1.  After the filter step the table, read row by row, is the input
    with exactly the rows removed in which some column equals the sentinel
    -200: a row stays if and only if none of its cells is the number -200,
    and no cell of any column of the result is the number -200. *)
Theorem drop_sentinel_removes_exactly_sentinel_rows (df : DataFrame) :
  aligned df ->
  rows (drop_sentinel df) = filter_rows_spec (rows df)
  /\ (forall r, In r (rows (drop_sentinel df)) <->
                In r (rows df) /\ forall c, In c (snd r) -> c <> Num sentinel)
  /\ (forall name s i c,
         In (name, s) (columns (drop_sentinel df)) ->
         nth_error (series_cells s) i = Some c ->
         c <> Num sentinel).
Proof.
  intro Hal. split; [|split].
  - now apply rows_drop_sentinel.
  - intro r. rewrite rows_drop_sentinel by assumption.
    unfold filter_rows_spec. rewrite filter_In, row_clean_iff. reflexivity.
  - intros name s i c Hin Hnth.
    unfold drop_sentinel, getitem_mask in Hin. simpl in Hin.
    apply in_map_iff in Hin. destruct Hin as [[n0 s0] [Heq Hin0]].
    simpl in Heq. injection Heq as _ <-.
    rewrite series_cells_select in Hnth.
    apply nth_error_In, select_In_nth in Hnth.
    destruct Hnth as [p [Hm Hc]].
    assert (Hp : (p < length (index df))%nat).
    { rewrite <- row_mask_length by assumption.
      apply nth_error_Some. congruence. }
    rewrite row_mask_nth in Hm by assumption.
    injection Hm as Hm. rewrite forallb_forall in Hm.
    specialize (Hm _ Hin0). simpl in Hm.
    rewrite (ne_scalar_nth_cell _ _ _ Hc) in Hm.
    intro Heq. apply is_sentinel_iff in Heq. rewrite Heq in Hm. discriminate.
Qed.

Ltac Reqb_decide :=
  repeat match goal with
         | |- context [Reqb ?x ?y] =>
             first [ rewrite (proj2 (Reqb_true_iff x y)) by lra
                   | rewrite (proj2 (Reqb_false_iff x y)) by lra ]
         end.

Lemma scenario_aligned : aligned scenario.
Proof. repeat constructor. Qed.

(** The spec's scenario: the filter leaves only the third row. *)
Example drop_sentinel_scenario :
  drop_sentinel scenario
  = mkDataFrame [2%nat]
      [ ("Date", Object [Some "2004-03-10"]);
        ("Time", Object [Some "20:00:00"]);
        ("CO(GT)", Float64 [Some 3]);
        ("PT08.S1(CO)", Float64 [Some 1200]) ].
Proof.
  unfold drop_sentinel, row_mask, scenario, getitem_mask, sentinel. simpl.
  unfold and_rows. simpl. Reqb_decide. reflexivity.
Qed.

Lemma drop_sentinel_removes_exactly_sentinel_rows_witness :
  aligned scenario
  /\ rows (drop_sentinel scenario) = filter_rows_spec (rows scenario).
Proof.
  split.
  - exact scenario_aligned.
  - exact (proj1 (drop_sentinel_removes_exactly_sentinel_rows
                    scenario scenario_aligned)).
Defined.

Lemma ne_scalar_false_iff (s : Series) (p : nat) :
  nth p (ne_scalar sentinel s) true = false <->
  exists xs, s = Float64 xs /\ nth_error xs p = Some (Some sentinel).
Proof.
  destruct s as [xs|xs|xs]; simpl.
  - destruct (nth_error xs p) as [x|] eqn:E.
    + erewrite nth_error_nth by (rewrite nth_error_map, E; reflexivity).
      destruct x as [r|]; split.
      * intro H. apply negb_false_iff, Reqb_true_iff in H. subst.
        exists xs. auto.
      * intros [ys [Heq Hy]]. injection Heq as <-. rewrite E in Hy.
        injection Hy as ->. now rewrite Reqb_refl.
      * discriminate.
      * intros [ys [Heq Hy]]. injection Heq as <-. congruence.
    + rewrite nth_overflow
        by (rewrite length_map; now apply nth_error_None).
      split; [discriminate|].
      intros [ys [Heq Hy]]. injection Heq as <-. congruence.
  - split; [|intros [ys [Heq _]]; discriminate].
    destruct (nth_error xs p) as [x|] eqn:E.
    + erewrite nth_error_nth by (rewrite nth_error_map, E; reflexivity).
      discriminate.
    + rewrite nth_overflow
        by (rewrite length_map; now apply nth_error_None).
      discriminate.
  - split; [|intros [ys [Heq _]]; discriminate].
    destruct (nth_error xs p) as [x|] eqn:E.
    + erewrite nth_error_nth by (rewrite nth_error_map, E; reflexivity).
      discriminate.
    + rewrite nth_overflow
        by (rewrite length_map; now apply nth_error_None).
      discriminate.
Qed.

Lemma row_mask_false_iff (df : DataFrame) (p : nat) :
  aligned df -> (p < length (index df))%nat ->
  (nth_error (row_mask df) p = Some false <->
   exists name xs, In (name, Float64 xs) (columns df)
                   /\ nth_error xs p = Some (Some sentinel)).
Proof.
  intros Hal Hp. rewrite row_mask_nth by assumption. split.
  - intro H. injection H as H.
    apply not_true_iff_false in H. rewrite forallb_forall in H.
    destruct (existsb (fun c => negb (nth p (ne_scalar sentinel (snd c)) true))
                (columns df)) eqn:E.
    + apply existsb_exists in E. destruct E as [[name s] [Hin Hneg]].
      simpl in Hneg. apply negb_true_iff, ne_scalar_false_iff in Hneg.
      destruct Hneg as [xs [-> Hx]]. now exists name, xs.
    + exfalso. apply H. intros c Hc.
      destruct (nth p (ne_scalar sentinel (snd c)) true) eqn:E'; auto.
      assert (existsb (fun c => negb (nth p (ne_scalar sentinel (snd c)) true))
                (columns df) = true); [|congruence].
      apply existsb_exists. exists c. rewrite E'. auto.
  - intros [name [xs [Hin Hx]]]. f_equal.
    apply not_true_iff_false. rewrite forallb_forall. intro H.
    specialize (H _ Hin). cbn [snd] in H.
    assert (Hf : nth p (ne_scalar sentinel (Float64 xs)) true = false)
      by (apply ne_scalar_false_iff; eauto).
    congruence.
Qed.

Lemma select_index_In (m : list bool) (idx : list nat) (p l : nat) :
  NoDup idx -> length m = length idx -> nth_error idx p = Some l ->
  (In l (select m idx) <-> nth_error m p = Some true).
Proof.
  intros Hnd Hlen Hp. split.
  - intro H. apply select_In_nth in H. destruct H as [q [Hq Hl]].
    assert (q = p); [|now subst].
    rewrite NoDup_nth_error in Hnd. apply Hnd; [|congruence].
    apply nth_error_Some. congruence.
  - intro H. eapply nth_In_select; eauto.
Qed.

Lemma and_rows_all_true (c acc : list bool) :
  Forall (fun b => b = true) c -> length c = length acc ->
  and_rows c acc = acc.
Proof.
  intro Hc. revert acc. induction Hc as [|b c Hb _ IH]; intros [|a acc] Hlen;
    simpl in Hlen; try discriminate; auto.
  subst b. unfold and_rows in *. simpl. f_equal. apply IH. lia.
Qed.

Lemma ne_scalar_not_float (s : Series) :
  is_float64 s = false -> Forall (fun b => b = true) (ne_scalar sentinel s).
Proof.
  destruct s as [xs|xs|xs]; simpl; intro H; try discriminate;
    apply Forall_forall; intros b Hb; apply in_map_iff in Hb;
    destruct Hb as [_ [Hb _]]; now subst.
Qed.

Lemma ne_scalar_length (s : Series) :
  length (ne_scalar sentinel s) = series_len s.
Proof. destruct s; simpl; apply length_map. Qed.

Lemma row_mask_numeric_part (df : DataFrame) :
  aligned df -> row_mask (numeric_part df) = row_mask df.
Proof.
  unfold aligned, row_mask, numeric_part. simpl.
  induction 1 as [|c cols Hc Hcols IH]; simpl; auto.
  assert (Hlen : length (all_axis1 (length (index df))
                           (map (fun c => ne_scalar sentinel (snd c)) cols))
                 = length (index df)).
  { apply all_axis1_length. rewrite Forall_map.
    eapply Forall_impl; [|exact Hcols].
    intros c' Hc'. simpl. now rewrite ne_scalar_length. }
  destruct (is_float64 (snd c)) eqn:E; simpl.
  - unfold all_axis1 in *. now rewrite IH.
  - unfold all_axis1 in *. rewrite IH.
    symmetry. apply and_rows_all_true.
    + now apply ne_scalar_not_float.
    + now rewrite ne_scalar_length, Hlen.
Qed.

(** C10.  In the sentinel filter the test against -200 is true at no entry
    of a string-valued (object) column, and the rows that the filter keeps
    are the same with and without the columns that are not numeric: [Date]
    and [Time] never cause a row to be removed.  The table that the filter
    returns is aligned, has the columns of the input, and holds exactly the
    rows of the input, label and cells, at the positions where no numeric
    column holds -200: a row is removed if and only if one of the numeric
    columns holds -200 in it. *)
Theorem sentinel_filter_removes_on_numeric_columns_only (df : DataFrame) :
  aligned df -> NoDup (index df) ->
  (forall name xs, In (name, Object xs) (columns df) ->
     Forall (fun b => b = true) (ne_scalar sentinel (Object xs)))
  /\ index (drop_sentinel (numeric_part df)) = index (drop_sentinel df)
  /\ aligned (drop_sentinel df)
  /\ map fst (columns (drop_sentinel df)) = map fst (columns df)
  /\ (forall l cs,
        In (l, cs) (rows (drop_sentinel df)) <->
        exists p, nth_error (rows df) p = Some (l, cs)
                  /\ forall name xs, In (name, Float64 xs) (columns df) ->
                                     nth_error xs p <> Some (Some sentinel))
  /\ (forall p l, nth_error (index df) p = Some l ->
        (~ In l (index (drop_sentinel df)) <->
         exists name xs, In (name, Float64 xs) (columns df)
                         /\ nth_error xs p = Some (Some sentinel))).
Proof.
  intros Hal Hnd.
  pose proof (row_mask_length df Hal) as Hlen.
  assert (Hmask : forall p, (p < length (index df))%nat ->
            (nth_error (row_mask df) p = Some true <->
             forall name xs, In (name, Float64 xs) (columns df) ->
                             nth_error xs p <> Some (Some sentinel))).
  { intros p Hp. pose proof (row_mask_false_iff df p Hal Hp) as Hf.
    destruct (nth_error (row_mask df) p) as [[|]|] eqn:E.
    - split; auto. intros _ name xs Hin Hx.
      assert (Some true = Some false); [|discriminate].
      apply Hf. eauto.
    - split; [discriminate|]. intro H. exfalso.
      destruct (proj1 Hf eq_refl) as [name [xs [Hin Hx]]].
      now apply (H name xs).
    - apply nth_error_None in E. lia. }
  split; [|split; [|split; [|split; [|split]]]].
  - intros name xs _. simpl. apply Forall_forall. intros b Hb.
    apply in_map_iff in Hb. destruct Hb as [_ [Hb _]]. now subst.
  - unfold drop_sentinel, getitem_mask. simpl.
    now rewrite row_mask_numeric_part.
  - unfold aligned, drop_sentinel, getitem_mask. simpl.
    rewrite Forall_map. eapply Forall_impl; [|exact Hal].
    intros [n s] Hs. simpl in *.
    assert (Hsel : forall (A B : Type) (m : list bool) (u : list A)
                     (k : list B),
               length u = length k ->
               length (select m u) = length (select m k)).
    { intros A B m. induction m as [|b m IH]; intros [|x u] [|y k] H;
        simpl in *; try discriminate; auto.
      destruct b; simpl; auto. }
    destruct s; simpl in *; now apply Hsel.
  - unfold drop_sentinel, getitem_mask. simpl. now rewrite map_map.
  - intros l cs. rewrite rows_drop_sentinel by assumption.
    unfold filter_rows_spec. rewrite filter_In.
    assert (Hrl : length (rows df) = length (index df))
      by apply rows_length.
    split.
    + intros [Hin Hclean]. apply In_nth_error in Hin. destruct Hin as [p Hp].
      exists p. split; auto.
      assert (Hlt : (p < length (index df))%nat)
        by (rewrite <- Hrl; apply nth_error_Some; congruence).
      apply Hmask; auto.
      rewrite row_mask_rows by assumption.
      now rewrite nth_error_map, Hp, <- Hclean.
    + intros [p [Hp Hno]]. split; [eapply nth_error_In; eauto|].
      assert (Hlt : (p < length (index df))%nat)
        by (rewrite <- Hrl; apply nth_error_Some; congruence).
      apply Hmask in Hno; auto.
      rewrite row_mask_rows, nth_error_map, Hp in Hno by assumption.
      now injection Hno.
  - intros p l Hp.
    assert (Hlt : (p < length (index df))%nat)
      by (apply nth_error_Some; congruence).
    rewrite <- row_mask_false_iff by assumption.
    unfold drop_sentinel, getitem_mask. simpl.
    rewrite (select_index_In _ _ p l Hnd Hlen Hp).
    destruct (nth_error (row_mask df) p) as [[|]|] eqn:E.
    + split; [intro H; now elim H | discriminate].
    + split; auto. intros _ H. discriminate.
    + apply nth_error_None in E. lia.
Qed.

Lemma sentinel_filter_removes_on_numeric_columns_only_witness :
  aligned scenario /\ NoDup (index scenario)
  /\ (~ In 1%nat (index (drop_sentinel scenario)) <->
      exists name xs, In (name, Float64 xs) (columns scenario)
                      /\ nth_error xs 1 = Some (Some sentinel)).
Proof.
  assert (Hnd : NoDup (index scenario)).
  { simpl. repeat constructor; simpl; intuition discriminate. }
  split; [exact scenario_aligned|]. split; [exact Hnd|].
  exact (proj2 (proj2 (proj2 (proj2 (proj2
           (sentinel_filter_removes_on_numeric_columns_only
              scenario scenario_aligned Hnd))))) 1%nat 1%nat eq_refl).
Defined.

(** ** Columns by name *)

Lemma lookup_In (name : string) (cols : list (string * Series)) (s : Series) :
  lookup name cols = Some s -> In (name, s) cols.
Proof.
  induction cols as [|[n s0] cols IH]; simpl; [discriminate|].
  destruct (String.eqb n name) eqn:E.
  - intro H. injection H as ->. apply String.eqb_eq in E. subst. now left.
  - intro H. right. now apply IH.
Qed.

Lemma lookup_None_In (name : string) (cols : list (string * Series))
  (n : string) (s : Series) :
  lookup name cols = None -> In (n, s) cols -> n <> name.
Proof.
  induction cols as [|[n0 s0] cols IH]; simpl; [contradiction|].
  destruct (String.eqb n0 name) eqn:E; [discriminate|].
  intros Hl [Heq | Hin]; auto.
  injection Heq as <- _. now apply String.eqb_neq.
Qed.

Lemma lookup_map_replace (name n : string) (s : Series)
  (cols : list (string * Series)) :
  lookup n (map (fun c => if String.eqb (fst c) name then (fst c, s) else c)
              cols)
  = if String.eqb n name
    then match lookup n cols with Some _ => Some s | None => None end
    else lookup n cols.
Proof.
  induction cols as [|[n0 s0] cols IH]; simpl.
  - now destruct (String.eqb n name).
  - destruct (String.eqb n0 name) eqn:E0; simpl;
      destruct (String.eqb n0 n) eqn:E1; destruct (String.eqb n name) eqn:E2;
      auto; exfalso;
      rewrite ?String.eqb_eq, ?String.eqb_neq in *; subst; congruence.
Qed.

Lemma lookup_app_None (n : string) (cols more : list (string * Series)) :
  lookup n cols = None -> lookup n (cols ++ more) = lookup n more.
Proof.
  induction cols as [|[n0 s0] cols IH]; simpl; auto.
  destruct (String.eqb n0 n); [discriminate | auto].
Qed.

Lemma lookup_app_Some (n : string) (cols more : list (string * Series))
  (s : Series) :
  lookup n cols = Some s -> lookup n (cols ++ more) = Some s.
Proof.
  induction cols as [|[n0 s0] cols IH]; simpl; [discriminate|].
  destruct (String.eqb n0 n); auto.
Qed.

Lemma lookup_setitem_same (df : DataFrame) (name : string) (s : Series) :
  lookup name (columns (setitem df name s)) = Some s.
Proof.
  unfold setitem. destruct (lookup name (columns df)) eqn:E; simpl.
  - now rewrite lookup_map_replace, String.eqb_refl, E.
  - rewrite lookup_app_None by assumption. simpl.
    now rewrite String.eqb_refl.
Qed.

Lemma lookup_setitem_other (df : DataFrame) (name n : string) (s : Series) :
  n <> name ->
  lookup n (columns (setitem df name s)) = lookup n (columns df).
Proof.
  intro Hne. apply String.eqb_neq in Hne.
  unfold setitem. destruct (lookup name (columns df)) eqn:E; simpl.
  - now rewrite lookup_map_replace, Hne.
  - destruct (lookup n (columns df)) eqn:E'.
    + now apply lookup_app_Some.
    + rewrite lookup_app_None by assumption. simpl.
      rewrite String.eqb_sym in Hne. now rewrite Hne.
Qed.

Lemma getitem_setitem_same (df : DataFrame) (name : string) (s : Series) :
  getitem (setitem df name s) name = Ok s.
Proof. unfold getitem. now rewrite lookup_setitem_same. Qed.

Lemma getitem_setitem_other (df : DataFrame) (name n : string) (s : Series) :
  n <> name -> getitem (setitem df name s) n = getitem df n.
Proof. intro H. unfold getitem. now rewrite lookup_setitem_other. Qed.

Lemma index_setitem (df : DataFrame) (name : string) (s : Series) :
  index (setitem df name s) = index df.
Proof. unfold setitem. now destruct (lookup name (columns df)). Qed.

Lemma In_setitem (df : DataFrame) (name : string) (s : Series)
  (n : string) (s' : Series) :
  In (n, s') (columns (setitem df name s)) <->
  (n = name /\ s' = s) \/ (n <> name /\ In (n, s') (columns df)).
Proof.
  unfold setitem. destruct (lookup name (columns df)) as [old|] eqn:E; simpl.
  - rewrite in_map_iff. split.
    + intros [[n0 s0] [Heq Hin]]. simpl in Heq.
      destruct (String.eqb n0 name) eqn:E0.
      * injection Heq as <- <-. apply String.eqb_eq in E0. auto.
      * injection Heq as <- <-. apply String.eqb_neq in E0. auto.
    + intros [[-> ->] | [Hne Hin]].
      * exists (name, old). simpl. rewrite String.eqb_refl.
        split; auto. now apply lookup_In.
      * exists (n, s'). simpl. apply String.eqb_neq in Hne.
        now rewrite Hne.
  - rewrite in_app_iff. simpl. split.
    + intros [Hin | [Heq | []]].
      * right. split; auto. eapply lookup_None_In; eauto.
      * injection Heq as <- <-. auto.
    + intros [[-> ->] | [Hne Hin]]; auto.
Qed.

Lemma setitem_aligned (df : DataFrame) (name : string) (s : Series) :
  aligned df -> series_len s = length (index df) ->
  aligned (setitem df name s).
Proof.
  intros Hal Hlen. unfold aligned in *. rewrite index_setitem.
  apply Forall_forall. intros [n s'] Hin. apply In_setitem in Hin.
  destruct Hin as [[-> ->] | [_ Hin]]; simpl; auto.
  rewrite Forall_forall in Hal. now apply (Hal (n, s')).
Qed.

Lemma getitem_In (df : DataFrame) (name : string) (s : Series) :
  getitem df name = Ok s -> In (name, s) (columns df).
Proof.
  unfold getitem. destruct (lookup name (columns df)) eqn:E; [|discriminate].
  intro H. injection H as ->. now apply lookup_In.
Qed.

Lemma getitem_len (df : DataFrame) (name : string) (s : Series) :
  aligned df -> getitem df name = Ok s -> series_len s = length (index df).
Proof.
  intros Hal H. apply getitem_In in H.
  unfold aligned in Hal. rewrite Forall_forall in Hal.
  now apply (Hal (name, s)).
Qed.

(** ** Results *)

Lemma bind_Ok {A B : Type} (r : result A) (k : A -> result B) (b : B) :
  bind r k = Ok b -> exists a, r = Ok a /\ k a = Ok b.
Proof. destruct r as [a|e]; simpl; [eauto | discriminate]. Qed.

Lemma traverse_length {A B : Type} (f : A -> result B) (l : list A)
  (bs : list B) :
  traverse f l = Ok bs -> length bs = length l.
Proof.
  revert bs. induction l as [|a l IH]; simpl; intros bs H.
  - injection H as <-. reflexivity.
  - apply bind_Ok in H. destruct H as [b [_ H]].
    apply bind_Ok in H. destruct H as [bs' [Hbs H]].
    injection H as <-. simpl. f_equal. now apply IH.
Qed.

Lemma traverse_nth {A B : Type} (f : A -> result B) (l : list A)
  (bs : list B) (p : nat) (a : A) :
  traverse f l = Ok bs -> nth_error l p = Some a ->
  exists b, f a = Ok b /\ nth_error bs p = Some b.
Proof.
  revert bs p. induction l as [|a0 l IH]; simpl; intros bs p H Hp.
  - destruct p; discriminate.
  - apply bind_Ok in H. destruct H as [b [Hb H]].
    apply bind_Ok in H. destruct H as [bs' [Hbs H]].
    injection H as <-. destruct p as [|p]; simpl in *.
    + injection Hp as ->. eauto.
    + eapply IH; eauto.
Qed.

Lemma to_float64_length (conv : string -> option (option R)) (s : Series)
  (xs : list (option R)) :
  to_float64 conv s = Ok xs -> length xs = series_len s.
Proof.
  destruct s as [ys|ys|ys]; simpl; intro H.
  - now injection H as ->.
  - now apply traverse_length in H.
  - discriminate.
Qed.

(** ** Cleaner: mean imputation *)

Lemma fillna_length (m : R) (xs : list (option R)) :
  length (fillna m xs) = length xs.
Proof. apply length_map. Qed.

Lemma fillna_nth (m : R) (xs : list (option R)) (p : nat) :
  nth_error (fillna m xs) p
  = match nth_error xs p with
    | Some None => Some (Some m)
    | o => o
    end.
Proof.
  unfold fillna. rewrite nth_error_map.
  destruct (nth_error xs p) as [[r|]|]; reflexivity.
Qed.

Lemma fillna_no_missing (m : R) (xs : list (option R)) :
  Forall (fun y => y <> None) (fillna m xs).
Proof.
  apply Forall_forall. intros y Hy. apply in_map_iff in Hy.
  destruct Hy as [[r|] [<- _]]; discriminate.
Qed.

Lemma simple_imputer_ok (m : list R -> R) (xs : list (option R)) :
  present xs <> [] ->
  simple_imputer m xs = Ok (fillna (m (present xs)) xs).
Proof.
  intro H. unfold simple_imputer.
  destruct xs as [|x xs]; [now elim H|].
  destruct (present (x :: xs)); [now elim H | reflexivity].
Qed.

Lemma simple_imputer_inv (m : list R -> R) (xs ys : list (option R)) :
  simple_imputer m xs = Ok ys ->
  xs <> []
  /\ (present xs <> [] -> ys = fillna (m (present xs)) xs)
  /\ (present xs = [] -> ys = []).
Proof.
  unfold simple_imputer. destruct xs as [|x xs]; [discriminate|].
  destruct (present (x :: xs)) as [|r rs]; intro H; injection H as <-;
    repeat split; congruence.
Qed.

Lemma impute_CO_with_ok (m : list R -> R) (conv : string -> option (option R))
  (df : DataFrame) (s : Series) (xs : list (option R)) :
  getitem df "CO(GT)" = Ok s -> to_float64 conv s = Ok xs ->
  present xs <> [] ->
  impute_CO_with m conv df
  = Ok (setitem df "CO(GT)" (Float64 (fillna (m (present xs)) xs))).
Proof.
  intros Hg Hf Hp. unfold impute_CO_with. rewrite Hg. simpl. rewrite Hf. simpl.
  now rewrite simple_imputer_ok.
Qed.

Lemma impute_CO_with_inv (m : list R -> R)
  (conv : string -> option (option R)) (df df1 : DataFrame) :
  impute_CO_with m conv df = Ok df1 ->
  exists s xs ys, getitem df "CO(GT)" = Ok s /\ to_float64 conv s = Ok xs
                  /\ simple_imputer m xs = Ok ys
                  /\ df1 = setitem df "CO(GT)" (Float64 ys).
Proof.
  unfold impute_CO_with. intro H.
  apply bind_Ok in H. destruct H as [s [Hs H]].
  apply bind_Ok in H. destruct H as [xs [Hxs H]].
  apply bind_Ok in H. destruct H as [ys [Hys H]].
  injection H as <-. exists s, xs, ys. auto.
Qed.

Lemma impute_CO_ok (conv : string -> option (option R)) (df : DataFrame)
  (s : Series) (xs : list (option R)) :
  getitem df "CO(GT)" = Ok s -> to_float64 conv s = Ok xs ->
  present xs <> [] ->
  impute_CO conv df
  = Ok (setitem df "CO(GT)" (Float64 (fillna (mean (present xs)) xs))).
Proof. apply impute_CO_with_ok. Qed.

Lemma impute_CO_inv (conv : string -> option (option R)) (df df1 : DataFrame) :
  impute_CO conv df = Ok df1 ->
  exists s xs ys, getitem df "CO(GT)" = Ok s /\ to_float64 conv s = Ok xs
                  /\ simple_imputer mean xs = Ok ys
                  /\ df1 = setitem df "CO(GT)" (Float64 ys).
Proof. apply impute_CO_with_inv. Qed.

Lemma imputed_aligned (df : DataFrame) (s : Series) (xs : list (option R))
  (conv : string -> option (option R)) (m : R) :
  aligned df -> getitem df "CO(GT)" = Ok s -> to_float64 conv s = Ok xs ->
  aligned (setitem df "CO(GT)" (Float64 (fillna m xs))).
Proof.
  intros Hal Hg Hf. apply setitem_aligned; auto. simpl.
  rewrite fillna_length, (to_float64_length _ _ _ Hf).
  eapply getitem_len; eauto.
Qed.

Lemma lookup_map_snd (f : Series -> Series) (n : string)
  (cols : list (string * Series)) :
  lookup n (map (fun c => (fst c, f (snd c))) cols)
  = option_map f (lookup n cols).
Proof.
  induction cols as [|[n0 s0] cols IH]; simpl; auto.
  now destruct (String.eqb n0 n).
Qed.

Lemma getitem_drop_sentinel (df : DataFrame) (name : string) (s : Series) :
  getitem df name = Ok s ->
  getitem (drop_sentinel df) name = Ok (series_select (row_mask df) s).
Proof.
  unfold getitem, drop_sentinel, getitem_mask. simpl.
  rewrite lookup_map_snd.
  destruct (lookup name (columns df)); simpl; [|discriminate].
  now intros [= ->].
Qed.

Lemma nth_error_combine {A B : Type} (l : list A) (k : list B) (p : nat) :
  nth_error (combine l k) p
  = match nth_error l p, nth_error k p with
    | Some a, Some b => Some (a, b)
    | _, _ => None
    end.
Proof.
  revert k p. induction l as [|a l IH]; intros [|b k] [|p]; simpl; auto.
  - now destruct (nth_error l p).
Qed.


Lemma In_select {A : Type} (m : list bool) (l : list A) (x : A) :
  In x (select m l) -> In x l.
Proof.
  intro H. apply select_In_nth in H. destruct H as [p [_ H]].
  eapply nth_error_In; eauto.
Qed.


Lemma gap_table_aligned : aligned gap_table.
Proof. repeat constructor. Qed.

Lemma gap_table_NoDup : NoDup (index gap_table).
Proof. simpl. repeat constructor; simpl; intuition discriminate. Qed.


(** The mean that is imputed there is 2, and the Cleaner keeps the rows
    labelled 0 and 1. *)
Example cleaner_gap_table :
  cleaner float_raises gap_table
  = Ok (mkDataFrame [0; 1]%nat
          [ ("CO(GT)", Float64 [Some 1; Some 2]);
            ("T", Float64 [Some 11; Some 12]) ]).
Proof.
  unfold cleaner, cleaner_with, impute_CO_with, gap_table. simpl.
  replace (mean [1; 3]) with 2 by (unfold mean, sum; simpl; lra).
  unfold drop_sentinel, row_mask, getitem_mask, setitem, sentinel. simpl.
  unfold and_rows. simpl. Reqb_decide. reflexivity.
Qed.


(** ** Cleaner: imputation before the filter *)

Lemma cleaner_with_inv (m : list R -> R) (conv : string -> option (option R))
  (df df' : DataFrame) :
  cleaner_with m conv df = Ok df' ->
  exists df1, impute_CO_with m conv df = Ok df1 /\ df' = drop_sentinel df1.
Proof.
  unfold cleaner_with. intro H. apply bind_Ok in H.
  destruct H as [df1 [H1 H]]. injection H as <-. eauto.
Qed.

(** C5, as the code has it.  The value written into the missing entries of
    [CO(GT)] is the mean that the imputer computes over the present ones,
    the sentinel readings among them.  A row whose [CO(GT)] was imputed is
    absent from the table the Cleaner returns if and only if that value is
    -200 or another column holds -200 in the row; a row that stays holds
    the value in [CO(GT)].  So whenever the computed mean is not -200, an
    imputed entry never by itself causes the removal of its row. *)
Theorem imputed_row_removed_iff
  (np_mean : list R -> R) (conv : string -> option (option R))
  (df df' : DataFrame) (s : Series) (xs : list (option R)) :
  aligned df -> NoDup (index df) ->
  getitem df "CO(GT)" = Ok s -> to_float64 conv s = Ok xs ->
  present xs <> [] ->
  cleaner_with np_mean conv df = Ok df' ->
  let v := np_mean (present xs) in
  impute_CO_with np_mean conv df
  = Ok (setitem df "CO(GT)" (Float64 (fillna v xs)))
  /\ forall p l,
       nth_error (index df) p = Some l -> nth_error xs p = Some None ->
       (~ In l (index df') <->
        v = sentinel
        \/ exists name zs, name <> "CO(GT)"
                           /\ In (name, Float64 zs) (columns df)
                           /\ nth_error zs p = Some (Some sentinel))
       /\ (In l (index df') ->
           exists ys, getitem df' "CO(GT)" = Ok (Float64 ys)
                      /\ In (l, Some v) (combine (index df') ys)).
Proof.
  intros Hal Hnd Hg Hf Hne Hcl v.
  pose proof (impute_CO_with_ok np_mean conv df s xs Hg Hf Hne) as Himp.
  fold v in Himp. split; [exact Himp|].
  apply cleaner_with_inv in Hcl. destruct Hcl as [df1 [H1 ->]].
  rewrite Himp in H1. injection H1 as <-.
  set (df1 := setitem df "CO(GT)" (Float64 (fillna v xs))).
  assert (Hal1 : aligned df1) by (eapply imputed_aligned; eauto).
  assert (Hidx : index df1 = index df) by apply index_setitem.
  intros p l Hl Hp.
  assert (Hlt : (p < length (index df1))%nat)
    by (rewrite Hidx; apply nth_error_Some; congruence).
  assert (Hin : In l (index (drop_sentinel df1)) <->
                nth_error (row_mask df1) p = Some true).
  { unfold drop_sentinel, getitem_mask. simpl.
    apply select_index_In; rewrite ?Hidx; auto.
    rewrite <- Hidx. now apply row_mask_length. }
  assert (Hfalse : nth_error (row_mask df1) p = Some false <->
                   v = sentinel
                   \/ exists name zs, name <> "CO(GT)"
                                      /\ In (name, Float64 zs) (columns df)
                                      /\ nth_error zs p = Some (Some sentinel)).
  { rewrite row_mask_false_iff by assumption. split.
    - intros [name [zs [Hc Hz]]]. apply In_setitem in Hc.
      destruct Hc as [[-> Heq] | [Hn Hc]].
      + left. injection Heq as ->. rewrite fillna_nth, Hp in Hz. congruence.
      + right. exists name, zs. auto.
    - intros [Hv | [name [zs [Hn [Hc Hz]]]]].
      + exists "CO(GT)", (fillna v xs). split.
        * apply In_setitem. auto.
        * now rewrite fillna_nth, Hp, Hv.
      + exists name, zs. split; auto. apply In_setitem. auto. }
  pose proof (row_mask_length df1 Hal1) as Hlen.
  split.
  - rewrite <- Hfalse, Hin.
    destruct (nth_error (row_mask df1) p) as [[|]|] eqn:E.
    + split; [intro H; now elim H | discriminate].
    + split; auto. intros _ H. discriminate.
    + apply nth_error_None in E. lia.
  - intro Hkept. apply Hin in Hkept.
    exists (select (row_mask df1) (fillna v xs)). split.
    + apply (getitem_drop_sentinel df1 "CO(GT)" (Float64 (fillna v xs))).
      apply getitem_setitem_same.
    + unfold drop_sentinel, getitem_mask. simpl.
      rewrite <- select_combine. apply nth_In_select with p; auto.
      rewrite nth_error_combine, Hidx, Hl, fillna_nth, Hp. reflexivity.
Qed.

Lemma imputed_row_removed_iff_witness :
  ~ In 1%nat (index (mkDataFrame [0; 1]%nat
                       [ ("CO(GT)", Float64 [Some 1; Some 2]);
                         ("T", Float64 [Some 11; Some 12]) ])) <->
  mean (present [Some 1; None; Some 3]) = sentinel
  \/ exists name zs, name <> "CO(GT)"
                     /\ In (name, Float64 zs) (columns gap_table)
                     /\ nth_error zs 1 = Some (Some sentinel).
Proof.
  refine (proj1 (proj2 (imputed_row_removed_iff mean float_raises gap_table _
                          (Float64 [Some 1; None; Some 3])
                          [Some 1; None; Some 3]
                          gap_table_aligned gap_table_NoDup eq_refl eq_refl _
                          cleaner_gap_table) 1%nat 1%nat eq_refl eq_refl)).
  simpl. discriminate.
Defined.

(** C5 as stated fails: when the only present reading is -200, the mean
    that is imputed is -200, and the row labelled 1, which holds -200 in no
    column of the input, is removed by the filter. *)
Lemma imputed_value_can_equal_sentinel :
  mean (present [Some (-200); None]) = sentinel
  /\ impute_CO float_raises sentinel_only_table
     = Ok (mkDataFrame [0; 1]%nat
             [ ("CO(GT)", Float64 [Some (-200); Some (-200)]);
               ("T", Float64 [Some 11; Some 12]) ])
  /\ (forall name zs, In (name, Float64 zs) (columns sentinel_only_table) ->
                      nth_error zs 1 <> Some (Some sentinel))
  /\ cleaner float_raises sentinel_only_table
     = Ok (mkDataFrame []
             [ ("CO(GT)", Float64 []); ("T", Float64 []) ]).
Proof.
  assert (Hmean : mean [-200] = -200) by (unfold mean, sum; simpl; lra).
  split; [exact Hmean|]. split; [|split].
  - unfold impute_CO, impute_CO_with, sentinel_only_table. simpl.
    now rewrite Hmean.
  - intros name zs [H | [H | []]]; injection H as <- <-;
      unfold sentinel; simpl; intro H;
      first [discriminate H | injection H as H; lra].
  - unfold cleaner, cleaner_with, impute_CO_with, sentinel_only_table.
    simpl. rewrite Hmean.
    unfold drop_sentinel, row_mask, getitem_mask, setitem, sentinel. simpl.
    unfold and_rows. simpl. Reqb_decide. reflexivity.
Qed.

(** ** Sums, means and variances *)

Lemma present_map {A B : Type} (f : A -> B) (xs : list (option A)) :
  present (map (option_map f) xs) = map f (present xs).
Proof.
  induction xs as [|[a|] xs IH]; simpl; auto. now rewrite IH.
Qed.

Lemma sum_nonneg (xs : list R) :
  Forall (fun x => 0 <= x) xs -> 0 <= sum xs.
Proof.
  induction 1 as [|x xs Hx _ IH]; unfold sum in *; simpl; lra.
Qed.

Lemma sum_zero_all_zero (xs : list R) :
  Forall (fun x => 0 <= x) xs -> sum xs = 0 -> Forall (fun x => x = 0) xs.
Proof.
  induction 1 as [|x xs Hx Hxs IH]; intro Hs; constructor.
  - pose proof (sum_nonneg xs Hxs). unfold sum in *. simpl in Hs. lra.
  - apply IH. pose proof (sum_nonneg xs Hxs). unfold sum in *.
    simpl in Hs. lra.
Qed.

Lemma INR_length_pos {A : Type} (xs : list A) : xs <> [] -> 0 < INR (length xs).
Proof.
  destruct xs; [congruence|]. intros _. apply lt_0_INR. simpl. lia.
Qed.

Lemma squares_nonneg (c : R) (xs : list R) :
  Forall (fun x => 0 <= x) (map (fun x => (x - c) * (x - c)) xs).
Proof.
  apply Forall_forall. intros y Hy. apply in_map_iff in Hy.
  destruct Hy as [x [<- _]]. exact (Rle_0_sqr (x - c)).
Qed.

Lemma variance_nonneg (xs : list R) : 0 <= variance xs.
Proof.
  unfold variance, mean at 1. rewrite length_map.
  destruct xs as [|x xs].
  - unfold sum. simpl. unfold Rdiv. rewrite Rmult_0_l. lra.
  - apply Rmult_le_pos.
    + apply sum_nonneg, squares_nonneg.
    + left. apply Rinv_0_lt_compat, INR_length_pos. discriminate.
Qed.

Lemma variance_zero_constant (xs : list R) :
  variance xs = 0 -> Forall (fun x => x = mean xs) xs.
Proof.
  intro Hv. destruct xs as [|x0 xs0]; [constructor|].
  set (xs := x0 :: xs0) in *.
  assert (Hn : 0 < INR (length xs)) by (apply INR_length_pos; discriminate).
  unfold variance, mean at 1 in Hv. rewrite length_map in Hv.
  assert (Hs : sum (map (fun x => (x - mean xs) * (x - mean xs)) xs) = 0).
  { apply Rmult_integral in Hv. destruct Hv as [Hv | Hv]; auto.
    pose proof (Rinv_0_lt_compat _ Hn). lra. }
  apply sum_zero_all_zero in Hs; [|apply squares_nonneg].
  rewrite Forall_map in Hs. eapply Forall_impl; [|exact Hs].
  simpl. intros x Hx. nra.
Qed.

Lemma eps_pos : 0 < eps.
Proof. unfold eps. apply Rinv_0_lt_compat, pow_lt. lra. Qed.

Lemma eps_small : eps < / 1000.
Proof.
  unfold eps. apply Rinv_lt_contravar.
  - apply Rmult_lt_0_compat; [lra | apply pow_lt; lra].
  - apply Rlt_le_trans with (2 ^ 10); [simpl; lra|].
    apply Rle_pow; [lra | lia].
Qed.

Lemma Rleb_true_iff (x y : R) : Rleb x y = true <-> x <= y.
Proof. unfold Rleb. destruct (Rle_dec x y); split; auto; discriminate. Qed.

Lemma Rleb_false_iff (x y : R) : Rleb x y = false <-> y < x.
Proof.
  unfold Rleb. destruct (Rle_dec x y); split; auto; try discriminate; lra.
Qed.

Lemma Rltb_true_iff (x y : R) : Rltb x y = true <-> x < y.
Proof. unfold Rltb. destruct (Rlt_dec x y); split; auto; discriminate. Qed.

Lemma Rltb_false_iff (x y : R) : Rltb x y = false <-> y <= x.
Proof.
  unfold Rltb. destruct (Rlt_dec x y); split; auto; try discriminate; lra.
Qed.

Lemma is_constant_feature_exact (v m n : R) :
  is_constant_feature exact v m n
  = Rleb v (n * eps * v + (n * m * eps) * (n * m * eps)).
Proof. reflexivity. Qed.

Lemma is_constant_feature_zero (m n : R) :
  is_constant_feature exact 0 m n = true.
Proof.
  rewrite is_constant_feature_exact. apply Rleb_true_iff.
  pose proof (Rle_0_sqr (n * m * eps)) as H. unfold Rsqr in H. lra.
Qed.

(** ** Standardization *)

Lemma In_present {A : Type} (xs : list (option A)) (a : A) :
  In a (present xs) <-> In (Some a) xs.
Proof.
  unfold present. rewrite in_flat_map. split.
  - intros [[b|] [Hin Hb]]; simpl in Hb; [|contradiction].
    destruct Hb as [-> | []]. exact Hin.
  - intro H. exists (Some a). simpl. auto.
Qed.

Lemma option_map_ext_in {A B : Type} (f g : A -> B) (xs : list (option A)) :
  (forall a, In (Some a) xs -> f a = g a) ->
  map (option_map f) xs = map (option_map g) xs.
Proof.
  intro H. apply map_ext_in. intros [a|] Ha; simpl; auto.
  now rewrite H.
Qed.

(** In exact arithmetic the scale is never zero, and the two scalers are
    the affine maps of their definitions. *)
Lemma standard_scale_exact (xs : list (option R)) :
  standard_scale xs
  = map (option_map
           (fun x => (x - mean (present xs))
                     / (if constant_for_standard xs then 1
                        else sqrt (variance (present xs))))) xs.
Proof.
  unfold standard_scale, standard_scale_with, constant_for_standard,
    constant_for_standard_with.
  set (mu := mean (present xs)). set (v := variance (present xs)).
  set (n := INR (length (present xs))).
  destruct (is_constant_feature exact v mu n) eqn:E; simpl.
  - apply map_ext. intros [x|]; simpl; auto.
    unfold fdiv, exact. now rewrite (proj2 (Reqb_false_iff 1 0)) by lra.
  - assert (Hv : 0 < v).
    { pose proof (variance_nonneg (present xs)) as Hn. fold v in Hn.
      assert (v <> 0); [|lra]. intro H0.
      rewrite H0, is_constant_feature_zero in E. discriminate. }
    unfold fsqrt. rewrite (proj2 (Rltb_false_iff v 0)) by lra.
    apply map_ext. intros [x|]; simpl; auto.
    unfold fdiv, exact. pose proof (sqrt_lt_R0 v Hv).
    now rewrite (proj2 (Reqb_false_iff (sqrt v) 0)) by lra.
Qed.

Lemma standard_scale_constant (xs : list (option R)) :
  variance (present xs) = 0 ->
  standard_scale xs = map (option_map (fun _ => 0)) xs.
Proof.
  intro Hv. rewrite standard_scale_exact.
  unfold constant_for_standard, constant_for_standard_with.
  rewrite Hv, is_constant_feature_zero.
  apply option_map_ext_in. intros a Ha.
  apply In_present in Ha.
  pose proof (variance_zero_constant _ Hv) as Hc.
  rewrite Forall_forall in Hc. rewrite (Hc a Ha) at 1. field.
Qed.

(** ** Min-max scaling *)

Lemma fold_Rmin_le (x0 : R) (xs : list R) (x : R) :
  In x (x0 :: xs) -> fold_right Rmin x0 xs <= x.
Proof.
  induction xs as [|y xs IH]; simpl.
  - intros [-> | []]. lra.
  - intros [-> | [-> | Hin]].
    + eapply Rle_trans; [apply Rmin_r|]. apply IH. now left.
    + apply Rmin_l.
    + eapply Rle_trans; [apply Rmin_r|]. apply IH. now right.
Qed.

Lemma fold_Rmax_ge (x0 : R) (xs : list R) (x : R) :
  In x (x0 :: xs) -> x <= fold_right Rmax x0 xs.
Proof.
  induction xs as [|y xs IH]; simpl.
  - intros [-> | []]. lra.
  - intros [-> | [-> | Hin]].
    + eapply Rle_trans; [|apply Rmax_r]. apply IH. now left.
    + apply Rmax_l.
    + eapply Rle_trans; [|apply Rmax_r]. apply IH. now right.
Qed.

Lemma list_min_le (xs : list R) (x : R) : In x xs -> list_min xs <= x.
Proof. destruct xs; [contradiction|]. apply fold_Rmin_le. Qed.

Lemma list_max_ge (xs : list R) (x : R) : In x xs -> x <= list_max xs.
Proof. destruct xs; [contradiction|]. apply fold_Rmax_ge. Qed.

Lemma minmax_scale_exact (xs : list (option R)) :
  minmax_scale xs
  = map (option_map
           (fun x =>
              x * ((1 - 0)
                   / (if constant_for_minmax xs then 1
                      else list_max (present xs) - list_min (present xs)))
              + (0 - list_min (present xs)
                     * ((1 - 0)
                        / (if constant_for_minmax xs then 1
                           else list_max (present xs)
                                - list_min (present xs)))))) xs.
Proof.
  unfold minmax_scale, minmax_scale_with, constant_for_minmax, exact.
  set (lo := list_min (present xs)). set (hi := list_max (present xs)).
  assert (Hr : (if Rltb (hi - lo) (10 * eps) then 1 else hi - lo) <> 0).
  { destruct (Rltb (hi - lo) (10 * eps)) eqn:E; [lra|].
    apply Rltb_false_iff in E. pose proof eps_pos. lra. }
  unfold handle_zeros_in_scale, fdiv.
  destruct (Rltb (hi - lo) (10 * eps)) eqn:E;
    rewrite (proj2 (Reqb_false_iff _ 0)) by assumption;
    apply map_ext; intros [x|]; reflexivity.
Qed.

Lemma minmax_scale_constant (xs : list (option R)) :
  list_min (present xs) = list_max (present xs) ->
  minmax_scale xs = map (option_map (fun _ => 0)) xs.
Proof.
  intro Hr. rewrite minmax_scale_exact. unfold constant_for_minmax.
  replace (list_max (present xs) - list_min (present xs)) with 0 by lra.
  rewrite (proj2 (Rltb_true_iff 0 (10 * eps)))
    by (pose proof eps_pos; lra).
  apply option_map_ext_in. intros a Ha. apply In_present in Ha.
  pose proof (list_min_le _ _ Ha). pose proof (list_max_ge _ _ Ha).
  replace (list_min (present xs)) with a by lra. field.
Qed.

(** ** Scaler on the table *)

Lemma index_setitems (df : DataFrame) (names : list string)
  (vals : list (list (option R))) :
  index (setitems df names vals) = index df.
Proof.
  revert df vals. induction names as [|n names IH]; intros df [|v vals];
    simpl; auto.
  now rewrite IH, index_setitem.
Qed.

Lemma getitem_setitems_notin (df : DataFrame) (names : list string)
  (vals : list (list (option R))) (n : string) :
  ~ In n names -> getitem (setitems df names vals) n = getitem df n.
Proof.
  revert df vals. induction names as [|n0 names IH]; intros df [|v vals] Hn;
    simpl; auto.
  rewrite IH by (intro; apply Hn; now right).
  apply getitem_setitem_other. intro. apply Hn. now left.
Qed.

Lemma getitem_setitems_in (df : DataFrame) (names : list string)
  (vals : list (list (option R))) (k : nat) (n : string)
  (v : list (option R)) :
  NoDup names -> nth_error names k = Some n -> nth_error vals k = Some v ->
  getitem (setitems df names vals) n = Ok (Float64 v).
Proof.
  revert df vals k. induction names as [|n0 names IH];
    intros df [|v0 vals] k Hnd Hn Hv; destruct k; simpl in *;
    try discriminate.
  - injection Hn as ->. injection Hv as ->.
    rewrite getitem_setitems_notin by now inversion Hnd.
    apply getitem_setitem_same.
  - inversion Hnd; subst. eapply IH; eauto.
Qed.

Lemma fit_transform_inv (conv : string -> option (option R))
  (f : list (option R) -> list (option R)) (names : list string)
  (df df' : DataFrame) :
  fit_transform conv f names df = Ok df' ->
  exists cols xss,
    traverse (getitem df) names = Ok cols
    /\ traverse (to_float64 conv) cols = Ok xss
    /\ df' = setitems df names (map f xss).
Proof.
  unfold fit_transform. intro H.
  apply bind_Ok in H. destruct H as [cols [Hc H]].
  apply bind_Ok in H. destruct H as [xss [Hx H]].
  destruct (Nat.eqb (length (index df)) 0); [discriminate|].
  injection H as <-. eauto.
Qed.

Lemma fit_transform_column (conv : string -> option (option R))
  (f : list (option R) -> list (option R)) (names : list string)
  (df df' : DataFrame) (n : string) (s : Series) (xs : list (option R)) :
  fit_transform conv f names df = Ok df' -> NoDup names -> In n names ->
  getitem df n = Ok s -> to_float64 conv s = Ok xs ->
  getitem df' n = Ok (Float64 (f xs)).
Proof.
  intros H Hnd Hin Hg Hf. apply fit_transform_inv in H.
  destruct H as [cols [xss [Hc [Hx ->]]]].
  apply In_nth_error in Hin. destruct Hin as [k Hk].
  destruct (traverse_nth _ _ _ _ _ Hc Hk) as [s' [Hs' Hck]].
  destruct (traverse_nth _ _ _ _ _ Hx Hck) as [xs' [Hxs' Hxk]].
  assert (s' = s) by congruence. subst s'.
  assert (xs' = xs) by congruence. subst xs'.
  eapply getitem_setitems_in; eauto.
  now rewrite nth_error_map, Hxk.
Qed.

Lemma fit_transform_other (conv : string -> option (option R))
  (f : list (option R) -> list (option R)) (names : list string)
  (df df' : DataFrame) (n : string) :
  fit_transform conv f names df = Ok df' -> ~ In n names ->
  getitem df' n = getitem df n.
Proof.
  intros H Hn. apply fit_transform_inv in H.
  destruct H as [cols [xss [_ [_ ->]]]].
  now apply getitem_setitems_notin.
Qed.

Lemma fit_transform_index (conv : string -> option (option R))
  (f : list (option R) -> list (option R)) (names : list string)
  (df df' : DataFrame) :
  fit_transform conv f names df = Ok df' -> index df' = index df.
Proof.
  intro H. apply fit_transform_inv in H.
  destruct H as [cols [xss [_ [_ ->]]]]. apply index_setitems.
Qed.

Lemma traverse_ok {A B : Type} (f : A -> result B) (l : list A) :
  (forall a, In a l -> exists b, f a = Ok b) ->
  exists bs, traverse f l = Ok bs.
Proof.
  induction l as [|a l IH]; intro H; simpl; [eauto|].
  destruct (H a (or_introl eq_refl)) as [b Hb]. rewrite Hb. simpl.
  destruct IH as [bs Hbs]; [intros; apply H; now right|].
  rewrite Hbs. simpl. eauto.
Qed.

Lemma fit_transform_ok (conv : string -> option (option R))
  (f : list (option R) -> list (option R)) (names : list string)
  (df : DataFrame) :
  (forall n, In n names ->
     exists s xs, getitem df n = Ok s /\ to_float64 conv s = Ok xs) ->
  index df <> [] ->
  exists df', fit_transform conv f names df = Ok df'.
Proof.
  intros Hcols Hidx. unfold fit_transform.
  destruct (traverse_ok (getitem df) names) as [cols Hc].
  { intros n Hn. destruct (Hcols n Hn) as [s [_ [Hs _]]]. eauto. }
  rewrite Hc. simpl.
  destruct (traverse_ok (to_float64 conv) cols) as [xss Hx].
  { intros s Hs. apply In_nth_error in Hs. destruct Hs as [k Hk].
    assert (Hlen : (k < length names)%nat).
    { rewrite <- (traverse_length _ _ _ Hc). apply nth_error_Some. congruence. }
    destruct (nth_error names k) as [n|] eqn:En;
      [|apply nth_error_None in En; lia].
    destruct (traverse_nth _ _ _ _ _ Hc En) as [s' [Hs' Hk']].
    assert (s' = s) by congruence. subst s'.
    destruct (Hcols n (nth_error_In _ _ En)) as [s2 [xs [Hs2 Hxs]]].
    assert (s2 = s) by congruence. subst s2. eauto. }
  rewrite Hx. simpl.
  destruct (index df); [congruence|]. simpl. eauto.
Qed.

Lemma std_columns_NoDup : NoDup std_columns.
Proof.
  unfold std_columns. repeat constructor; simpl; intuition discriminate.
Qed.

Lemma minmax_columns_NoDup : NoDup minmax_columns.
Proof.
  unfold minmax_columns. repeat constructor; simpl; intuition discriminate.
Qed.

Lemma std_not_minmax (n : string) : In n std_columns -> ~ In n minmax_columns.
Proof.
  unfold std_columns, minmax_columns. simpl.
  intros [<- | [<- | [<- | []]]]; intuition discriminate.
Qed.

Lemma scaler_inv (conv : string -> option (option R)) (df df' : DataFrame) :
  scaler conv df = Ok df' ->
  exists df1, fit_transform conv standard_scale std_columns df = Ok df1
              /\ fit_transform conv minmax_scale minmax_columns df1 = Ok df'.
Proof. unfold scaler. intro H. now apply bind_Ok in H. Qed.

Lemma scaler_ok (conv : string -> option (option R)) (df : DataFrame) :
  (forall n, In n (std_columns ++ minmax_columns) ->
     exists s xs, getitem df n = Ok s /\ to_float64 conv s = Ok xs) ->
  index df <> [] ->
  exists df', scaler conv df = Ok df'.
Proof.
  intros Hcols Hidx.
  destruct (fit_transform_ok conv standard_scale std_columns df) as [df1 H1];
    auto.
  { intros n Hn. apply Hcols, in_or_app. now left. }
  destruct (fit_transform_ok conv minmax_scale minmax_columns df1) as [df' H2].
  - intros n Hn.
    rewrite (fit_transform_other _ _ _ _ _ _ H1)
      by (intro Hs; now apply (std_not_minmax n Hs)).
    apply Hcols, in_or_app. now right.
  - now rewrite (fit_transform_index _ _ _ _ _ H1).
  - exists df'. unfold scaler. now rewrite H1.
Qed.

Lemma variance_pair_constant (c : R) : variance [c; c] = 0.
Proof. unfold variance, mean, sum. simpl. field. Qed.

Lemma standard_scale_pair_constant (c : R) :
  standard_scale [Some c; Some c] = [Some 0; Some 0].
Proof.
  rewrite standard_scale_constant; [reflexivity|].
  apply variance_pair_constant.
Qed.

Lemma minmax_scale_pair_constant (c : R) :
  minmax_scale [Some c; Some c] = [Some 0; Some 0].
Proof.
  rewrite minmax_scale_constant; [reflexivity|].
  simpl. unfold Rmin, Rmax. destruct (Rle_dec c c); lra.
Qed.

Lemma scaler_constant_table : scaler float_raises constant_table = Ok zero_table.
Proof.
  unfold scaler, fit_transform, constant_table. simpl.
  rewrite !standard_scale_pair_constant.
  unfold setitem. simpl.
  rewrite !minmax_scale_pair_constant. reflexivity.
Qed.

Lemma spread_not_constant_for_standard :
  constant_for_standard [Some 0; Some 2] = false.
Proof.
  assert (Hm : mean [0; 2] = 1) by (unfold mean, sum; simpl; lra).
  assert (Hv : variance [0; 2] = 1).
  { unfold variance. rewrite Hm. unfold mean, sum. simpl. lra. }
  unfold constant_for_standard, constant_for_standard_with.
  rewrite is_constant_feature_exact. simpl present.
  rewrite Hm, Hv. apply Rleb_false_iff.
  pose proof eps_pos. pose proof eps_small. simpl. nra.
Qed.

Lemma spread_not_constant_for_minmax :
  constant_for_minmax [Some 0; Some 2] = false.
Proof.
  unfold constant_for_minmax. apply Rltb_false_iff. simpl.
  unfold Rmin, Rmax. pose proof eps_pos. pose proof eps_small.
  destruct (Rle_dec 2 0); lra.
Qed.

Lemma standard_scale_0_2 :
  standard_scale [Some 0; Some 2] = [Some (-1); Some 1].
Proof.
  assert (Hm : mean [0; 2] = 1) by (unfold mean, sum; simpl; lra).
  assert (Hv : variance [0; 2] = 1).
  { unfold variance. rewrite Hm. unfold mean, sum. simpl. lra. }
  rewrite standard_scale_exact, spread_not_constant_for_standard.
  simpl present. rewrite Hm, Hv, sqrt_1.
  simpl. repeat f_equal; lra.
Qed.

Lemma minmax_scale_0_2 :
  minmax_scale [Some 0; Some 2] = [Some 0; Some 1].
Proof.
  assert (Hlo : list_min [0; 2] = 0)
    by (simpl; unfold Rmin; destruct (Rle_dec 2 0); lra).
  assert (Hhi : list_max [0; 2] = 2)
    by (simpl; unfold Rmax; destruct (Rle_dec 2 0); lra).
  rewrite minmax_scale_exact, spread_not_constant_for_minmax.
  simpl present. rewrite Hlo, Hhi.
  simpl. repeat f_equal; lra.
Qed.

Lemma scaler_spread_table : scaler float_raises spread_table = Ok spread_scaled.
Proof.
  unfold scaler, fit_transform, spread_table. simpl.
  rewrite !standard_scale_0_2.
  unfold setitem. simpl.
  rewrite !minmax_scale_0_2. reflexivity.
Qed.

(** ** Scaler: the arithmetic of float64 *)

Lemma constant_table_columns (n : string) :
  In n (std_columns ++ minmax_columns) ->
  exists s xs, getitem constant_table n = Ok s
               /\ to_float64 float_raises s = Ok xs.
Proof.
  simpl. intros [<- | [<- | [<- | [<- | [<- | [<- | []]]]]]];
    eexists; eexists; split; reflexivity.
Qed.





(** The Scaler of the cell is the Scaler in exact arithmetic. *)
Lemma scaler_with_exact (conv : string -> option (option R)) (df : DataFrame) :
  scaler_with exact mean variance conv df = scaler conv df.
Proof. reflexivity. Qed.

Section Binary64Properties.

Variable rnd : R -> R.
Variable fit_mean : list R -> R.
Variable fit_var : list R -> R.

(** What is used of the rounding to the nearest float64: zero and one are
    float64, the rounding is symmetric about zero, a float64 is its own
    rounding, and the rounding keeps the order. *)
Hypothesis rnd_0 : rnd 0 = 0.
Hypothesis rnd_1 : rnd 1 = 1.
Hypothesis rnd_opp : forall x, rnd (- x) = - rnd x.
Hypothesis rnd_idem : forall x, rnd (rnd x) = rnd x.
Hypothesis rnd_mono : forall x y, x <= y -> rnd x <= rnd y.

Lemma rnd_nonneg (x : R) : 0 <= x -> 0 <= rnd x.
Proof. intro H. rewrite <- rnd_0. now apply rnd_mono. Qed.

Lemma zero_variance_is_constant (mean_ n : R) :
  is_constant_feature rnd 0 mean_ n = true.
Proof.
  unfold is_constant_feature. apply Rleb_true_iff.
  rewrite Rmult_0_r, rnd_0, Rplus_0_l.
  apply rnd_nonneg, rnd_nonneg.
  exact (Rle_0_sqr (rnd (rnd (n * mean_) * eps))).
Qed.

Lemma fdiv_1 (x : R) : fdiv rnd (rnd x) 1 = Some (rnd x).
Proof.
  unfold fdiv. rewrite (proj2 (Reqb_false_iff 1 0)) by lra.
  unfold Rdiv. now rewrite Rinv_1, Rmult_1_r, rnd_idem.
Qed.

Lemma standard_scale_with_constant (xs : list (option R)) :
  constant_for_standard_with rnd fit_mean fit_var xs = true ->
  standard_scale_with rnd fit_mean fit_var xs
  = map (option_map (fun x => rnd (x - fit_mean (present xs)))) xs.
Proof.
  intro Hc. unfold standard_scale_with. rewrite Hc. simpl.
  apply map_ext. intros [x|]; simpl; auto. apply fdiv_1.
Qed.

Lemma minmax_scale_with_constant (xs : list (option R)) :
  list_min (present xs) = list_max (present xs) ->
  minmax_scale_with rnd xs = map (option_map (fun _ => 0)) xs.
Proof.
  intro Hr. unfold minmax_scale_with.
  replace (list_max (present xs) - list_min (present xs)) with 0 by lra.
  rewrite rnd_0.
  rewrite (proj2 (Rltb_true_iff 0 (10 * eps)))
    by (pose proof eps_pos; lra).
  simpl handle_zeros_in_scale.
  unfold fdiv. rewrite (proj2 (Reqb_false_iff 1 0)) by lra.
  apply map_ext_in. intros [x|] Hx; simpl; auto.
  apply In_present in Hx.
  pose proof (list_min_le _ _ Hx). pose proof (list_max_ge _ _ Hx).
  replace (list_min (present xs)) with x by lra.
  set (p := rnd (x * rnd ((1 - 0) / 1))).
  replace (0 - p) with (- p) by lra.
  rewrite rnd_opp. unfold p at 2. rewrite rnd_idem. fold p.
  replace (p + - p) with 0 by lra. now rewrite rnd_0.
Qed.

Lemma scaler_with_inv (conv : string -> option (option R))
  (df df' : DataFrame) :
  scaler_with rnd fit_mean fit_var conv df = Ok df' ->
  exists df1,
    fit_transform conv (standard_scale_with rnd fit_mean fit_var)
      std_columns df = Ok df1
    /\ fit_transform conv (minmax_scale_with rnd) minmax_columns df1 = Ok df'.
Proof. unfold scaler_with. intro H. now apply bind_Ok in H. Qed.

Lemma scaler_with_std_column (conv : string -> option (option R))
  (df df' : DataFrame) (n : string) (s : Series) (xs : list (option R)) :
  scaler_with rnd fit_mean fit_var conv df = Ok df' -> In n std_columns ->
  getitem df n = Ok s -> to_float64 conv s = Ok xs ->
  getitem df' n = Ok (Float64 (standard_scale_with rnd fit_mean fit_var xs)).
Proof.
  intros H Hn Hg Hf. apply scaler_with_inv in H. destruct H as [df1 [H1 H2]].
  rewrite (fit_transform_other _ _ _ _ _ _ H2 (std_not_minmax n Hn)).
  eapply fit_transform_column; eauto using std_columns_NoDup.
Qed.

Lemma scaler_with_minmax_column (conv : string -> option (option R))
  (df df' : DataFrame) (n : string) (s : Series) (xs : list (option R)) :
  scaler_with rnd fit_mean fit_var conv df = Ok df' -> In n minmax_columns ->
  getitem df n = Ok s -> to_float64 conv s = Ok xs ->
  getitem df' n = Ok (Float64 (minmax_scale_with rnd xs)).
Proof.
  intros H Hn Hg Hf. apply scaler_with_inv in H. destruct H as [df1 [H1 H2]].
  eapply fit_transform_column; eauto using minmax_columns_NoDup.
  rewrite (fit_transform_other _ _ _ _ _ _ H1); auto.
  intro Hs. now apply (std_not_minmax n Hs).
Qed.






(** C6, as the code has it.  The Scaler raises nothing on a column of zero
    variance or zero range: whenever the six columns are there and numeric
    and the table has a row, it returns a table.  A column to standardize
    whose fitted variance is zero is taken for constant, and a column taken
    for constant is divided by one, not by its deviation: each present
    value becomes its difference from the fitted mean, a number.  Each
    present value of a min-max column of zero range becomes 0, the range
    being replaced by one. *)
Theorem scaler_divides_constant_columns_by_one
  (conv : string -> option (option R)) (df : DataFrame) :
  (forall n, In n (std_columns ++ minmax_columns) ->
     exists s xs, getitem df n = Ok s /\ to_float64 conv s = Ok xs) ->
  index df <> [] ->
  exists df',
    scaler_with rnd fit_mean fit_var conv df = Ok df'
    /\ (forall xs, fit_var (present xs) = 0 ->
                   constant_for_standard_with rnd fit_mean fit_var xs = true)
    /\ (forall n s xs,
           In n std_columns ->
           getitem df n = Ok s -> to_float64 conv s = Ok xs ->
           constant_for_standard_with rnd fit_mean fit_var xs = true ->
           getitem df' n
           = Ok (Float64
                   (map (option_map
                           (fun x => rnd (x - fit_mean (present xs)))) xs)))
    /\ (forall n s xs,
           In n minmax_columns ->
           getitem df n = Ok s -> to_float64 conv s = Ok xs ->
           list_min (present xs) = list_max (present xs) ->
           getitem df' n = Ok (Float64 (map (option_map (fun _ => 0)) xs))).
Proof.
  intros Hcols Hidx.
  destruct (fit_transform_ok conv (standard_scale_with rnd fit_mean fit_var)
              std_columns df) as [df1 H1]; auto.
  { intros n Hn. apply Hcols, in_or_app. now left. }
  destruct (fit_transform_ok conv (minmax_scale_with rnd) minmax_columns df1)
    as [df' H2].
  { intros n Hn.
    rewrite (fit_transform_other _ _ _ _ _ _ H1)
      by (intro Hs; now apply (std_not_minmax n Hs)).
    apply Hcols, in_or_app. now right. }
  { now rewrite (fit_transform_index _ _ _ _ _ H1). }
  exists df'. split; [|split; [|split]].
  - unfold scaler_with. now rewrite H1.
  - intros xs Hv. unfold constant_for_standard_with. rewrite Hv.
    apply zero_variance_is_constant.
  - intros n s xs Hn Hg Hf Hc.
    rewrite <- standard_scale_with_constant by assumption.
    rewrite (fit_transform_other _ _ _ _ _ _ H2 (std_not_minmax n Hn)).
    eapply fit_transform_column; eauto using std_columns_NoDup.
  - intros n s xs Hn Hg Hf Hz.
    rewrite <- minmax_scale_with_constant by assumption.
    eapply fit_transform_column; eauto using minmax_columns_NoDup.
    rewrite (fit_transform_other _ _ _ _ _ _ H1); auto.
    intro Hs. now apply (std_not_minmax n Hs).
Qed.

End Binary64Properties.


(** On the columns of the example tables float64 rounds nothing: the
    scalers on binary64 numbers return what [standard_scale] and
    [minmax_scale] return in exact arithmetic. *)
Lemma example_columns_in_binary64 :
  f64_standard_scale [0; 2]%float = [(-1)%float; 1%float]
  /\ f64_standard_scale [2; 0]%float = [1%float; (-1)%float]
  /\ f64_minmax_scale [0; 2]%float = [0%float; 1%float]
  /\ f64_minmax_scale [2; 0]%float = [1%float; 0%float]
  /\ f64_standard_scale [1; 1]%float = [0%float; 0%float]
  /\ f64_minmax_scale [4; 4]%float = [0%float; 0%float].
Proof. repeat split; vm_compute; reflexivity. Qed.


Lemma scaler_divides_constant_columns_by_one_witness :
  exists df', scaler_with exact mean variance float_raises constant_table
              = Ok df'.
Proof.
  destruct (scaler_divides_constant_columns_by_one exact mean variance
              eq_refl (fun x => eq_refl) (fun x => eq_refl) (fun x y H => H)
              float_raises constant_table constant_table_columns)
    as [df' [H _]].
  - simpl. discriminate.
  - exists df'. exact H.
Defined.

(** C6 as stated fails: every scaled column of [constant_table] has zero
    variance or zero range, and the Scaler returns a table. *)
Lemma scaler_accepts_constant_columns :
  variance (present [Some 1; Some 1]) = 0
  /\ list_min (present [Some 4; Some 4]) = list_max (present [Some 4; Some 4])
  /\ getitem constant_table "CO(GT)" = Ok (Float64 [Some 1; Some 1])
  /\ getitem constant_table "T" = Ok (Float64 [Some 4; Some 4])
  /\ scaler float_raises constant_table = Ok zero_table.
Proof.
  split; [apply variance_pair_constant|]. split.
  - simpl. unfold Rmin, Rmax. destruct (Rle_dec 4 4); lra.
  - repeat split. exact scaler_constant_table.
Qed.

(** ** Feature deriver *)

Lemma hour_of_range (t : Z) : (0 <= hour_of t <= 23)%Z.
Proof.
  unfold hour_of.
  pose proof (Z.mod_pos_bound (t / ns_per_hour) 24 ltac:(lia)). lia.
Qed.

Lemma day_of_days_range (z : Z) : (1 <= day_of_days z <= 31)%Z.
Proof.
  unfold day_of_days. cbv zeta.
  set (doe := ((z + 719468) mod 146097)%Z).
  set (yoe := ((doe - doe / 1460 + doe / 36524 - doe / 146096) / 365)%Z).
  set (doy := (doe - (365 * yoe + yoe / 4 - yoe / 100))%Z).
  clearbody doy. clear.
  pose proof (Z.div_mod (5 * doy + 2) 153 ltac:(lia)) as H1.
  pose proof (Z.mod_pos_bound (5 * doy + 2) 153 ltac:(lia)) as H2.
  set (mp := ((5 * doy + 2) / 153)%Z) in *. clearbody mp.
  pose proof (Z.div_mod (153 * mp + 2) 5 ltac:(lia)) as H3.
  pose proof (Z.mod_pos_bound (153 * mp + 2) 5 ltac:(lia)) as H4.
  lia.
Qed.

Lemma day_of_range (t : Z) : (1 <= day_of t <= 31)%Z.
Proof. apply day_of_days_range. Qed.

(** The calendar on known dates: 1970-01-01, 1969-12-31, 1970-02-28,
    1970-03-01, 2000-02-29, 2004-02-29, 2004-03-10 and 2004-12-31. *)
Example day_of_days_known :
  map day_of_days [0; -1; 58; 59; 11016; 12477; 12487; 12783]%Z
  = [1; 31; 28; 1; 29; 29; 10; 31]%Z.
Proof. reflexivity. Qed.

Example fields_of_2004_03_10_18h :
  hour_of 1078941600000000000 = 18%Z /\ day_of 1078941600000000000 = 10%Z.
Proof. split; reflexivity. Qed.

Lemma date_time_text_nth (dates times : list (option string)) (p : nat)
  (od ot : option string) :
  nth_error dates p = Some od -> nth_error times p = Some ot ->
  nth_error (date_time_text dates times) p
  = Some (match od, ot with
          | Some d, Some t => Some (String.append (String.append d " ") t)
          | _, _ => None
          end).
Proof.
  intros Hd Ht. unfold date_time_text.
  rewrite nth_error_map, nth_error_combine, nth_error_map, Hd, Ht. simpl.
  destruct od, ot; reflexivity.
Qed.

Lemma to_datetime_nth (parse : string -> string -> option Z)
  (text : list (option string)) (stamps : list (option Z)) (p : nat) :
  to_datetime parse text = Ok stamps ->
  match nth_error text p with
  | Some (Some s) =>
      exists ts, reading parse text s = Some ts
                 /\ nth_error stamps p = Some (Some ts)
  | Some None => nth_error stamps p = Some None
  | None => nth_error stamps p = None
  end.
Proof.
  unfold to_datetime, reading. intro H.
  destruct (present text) as [|first rest] eqn:Ep.
  - injection H as <-. rewrite nth_error_map.
    destruct (nth_error text p) as [[s|]|] eqn:E; simpl; auto.
    apply nth_error_In, In_present in E. rewrite Ep in E. contradiction.
  - destruct (nth_error text p) as [x|] eqn:E.
    + destruct (traverse_nth _ _ _ _ _ H E) as [y [Hy Hp]].
      destruct x as [s|]; simpl in Hy.
      * destruct (parse first s) as [ts|]; [|discriminate].
        injection Hy as <-. eauto.
      * now injection Hy as <-.
    + apply nth_error_None. rewrite (traverse_length _ _ _ H).
      now apply nth_error_None.
Qed.

Lemma traverse_parse_entry_Err (f : string -> option Z)
  (xs : list (option string)) (s : string) :
  In (Some s) xs -> f s = None ->
  traverse (parse_entry f) xs = Err ValueError.
Proof.
  intros Hin Hf. induction xs as [|x xs IH]; [contradiction|]. simpl.
  destruct x as [s0|]; simpl.
  - destruct (f s0) as [t0|] eqn:E0; simpl; auto.
    destruct Hin as [Heq | Hin]; [congruence|].
    now rewrite (IH Hin).
  - destruct Hin as [Heq | Hin]; [discriminate|].
    now rewrite (IH Hin).
Qed.

Lemma to_datetime_Err (parse : string -> string -> option Z)
  (text : list (option string)) (s : string) :
  In (Some s) text -> reading parse text s = None ->
  to_datetime parse text = Err ValueError.
Proof.
  unfold to_datetime, reading. intros Hin Hr.
  destruct (present text) as [|first rest] eqn:Ep.
  - apply In_present in Hin. rewrite Ep in Hin. contradiction.
  - now apply traverse_parse_entry_Err with s.
Qed.

Lemma feature_deriver_unfold (parse : string -> string -> option Z)
  (df : DataFrame) (dates times : list (option string)) :
  getitem df "Date" = Ok (Object dates) ->
  getitem df "Time" = Ok (Object times) ->
  feature_deriver parse df
  = (stamps <- to_datetime parse (date_time_text dates times) ;;
     Ok (setitem
           (setitem (setitem df "DateTime" (Datetime64 stamps))
              "Hour"
              (Float64 (map (option_map (fun t => IZR (hour_of t))) stamps)))
           "Day"
           (Float64 (map (option_map (fun t => IZR (day_of t))) stamps)))).
Proof.
  intros Hd Ht. unfold feature_deriver. rewrite Hd. simpl. rewrite Ht. simpl.
  fold (date_time_text dates times).
  destruct (to_datetime parse (date_time_text dates times)) as [stamps|e];
    simpl; auto.
  rewrite getitem_setitem_same. simpl.
  rewrite getitem_setitem_other by discriminate.
  rewrite getitem_setitem_same. reflexivity.
Qed.

(** C4, as the code has it.  In the final table, a row whose [Date] and
    [Time] are both present has as [DateTime] the timestamp read from
    [Date], a space and [Time], as [Hour] the hour of that timestamp, in
    [0, 23], and as [Day] its day of the month, in [1, 31].  A row whose
    [Date] or [Time] is missing has [NaT] as [DateTime] and [NaN] as [Hour]
    and [Day]. *)
Theorem feature_deriver_fields
  (parse : string -> string -> option Z) (df df' : DataFrame)
  (dates times : list (option string)) :
  getitem df "Date" = Ok (Object dates) ->
  getitem df "Time" = Ok (Object times) ->
  feature_deriver parse df = Ok df' ->
  exists stamps hours days,
    getitem df' "DateTime" = Ok (Datetime64 stamps)
    /\ getitem df' "Hour" = Ok (Float64 hours)
    /\ getitem df' "Day" = Ok (Float64 days)
    /\ forall p od ot,
         nth_error dates p = Some od -> nth_error times p = Some ot ->
         match od, ot with
         | Some d, Some t =>
             exists ts,
               reading parse (date_time_text dates times)
                 (String.append (String.append d " ") t) = Some ts
               /\ nth_error stamps p = Some (Some ts)
               /\ nth_error hours p = Some (Some (IZR (hour_of ts)))
               /\ nth_error days p = Some (Some (IZR (day_of ts)))
               /\ (0 <= hour_of ts <= 23)%Z
               /\ (1 <= day_of ts <= 31)%Z
         | _, _ =>
             nth_error stamps p = Some None
             /\ nth_error hours p = Some None
             /\ nth_error days p = Some None
         end.
Proof.
  intros Hd Ht H. rewrite (feature_deriver_unfold parse df dates times Hd Ht) in H.
  apply bind_Ok in H. destruct H as [stamps [Hs H]]. injection H as <-.
  exists stamps,
    (map (option_map (fun t => IZR (hour_of t))) stamps),
    (map (option_map (fun t => IZR (day_of t))) stamps).
  split; [|split; [|split]].
  - rewrite !getitem_setitem_other by discriminate.
    apply getitem_setitem_same.
  - rewrite getitem_setitem_other by discriminate.
    apply getitem_setitem_same.
  - apply getitem_setitem_same.
  - intros p od ot Hod Hot.
    pose proof (to_datetime_nth parse _ stamps p Hs) as Hp.
    rewrite (date_time_text_nth dates times p od ot Hod Hot) in Hp.
    rewrite !nth_error_map.
    destruct od as [d|], ot as [t|];
      try (rewrite Hp; simpl; auto).
    destruct Hp as [ts [Hr Hts]]. exists ts. rewrite Hts. simpl.
    repeat split; auto; try apply hour_of_range; apply day_of_range.
Qed.

Lemma feature_deriver_blank_row :
  feature_deriver parse_example blank_row_table = Ok blank_row_derived.
Proof. reflexivity. Qed.

Lemma feature_deriver_fields_witness :
  exists stamps hours days,
    getitem blank_row_derived "DateTime" = Ok (Datetime64 stamps)
    /\ getitem blank_row_derived "Hour" = Ok (Float64 hours)
    /\ getitem blank_row_derived "Day" = Ok (Float64 days)
    /\ nth_error hours 0 = Some (Some 18)
    /\ nth_error days 0 = Some (Some 10).
Proof.
  destruct (feature_deriver_fields parse_example blank_row_table
              blank_row_derived _ _ eq_refl eq_refl feature_deriver_blank_row)
    as [stamps [hours [days [Hs [Hh [Hd Hrows]]]]]].
  exists stamps, hours, days. repeat split; auto.
  - injection Hh as <-. reflexivity.
  - injection Hd as <-. reflexivity.
Defined.

(** C4 as stated fails on a row without date and time: the run goes on,
    and the row has no hour and no day. *)
Lemma blank_row_has_no_hour :
  feature_deriver parse_example blank_row_table = Ok blank_row_derived
  /\ getitem blank_row_derived "DateTime"
     = Ok (Datetime64 [Some 1078941600000000000%Z; None])
  /\ getitem blank_row_derived "Hour" = Ok (Float64 [Some 18; None])
  /\ getitem blank_row_derived "Day" = Ok (Float64 [Some 10; None])
  /\ (forall h : R, nth_error [Some 18; None] 1 <> Some (Some h))
  /\ (forall d : R, nth_error [Some 10; None] 1 <> Some (Some d)).
Proof. repeat split; discriminate. Qed.



(** ** A blank line of the input, through stages 2 to 4 *)

Lemma scaler_other_column (conv : string -> option (option R))
  (df df' : DataFrame) (n : string) :
  scaler conv df = Ok df' ->
  ~ In n std_columns -> ~ In n minmax_columns ->
  getitem df' n = getitem df n.
Proof.
  intros H Hs Hm. apply scaler_inv in H. destruct H as [df1 [H1 H2]].
  rewrite (fit_transform_other _ _ _ _ _ _ H2 Hm).
  now rewrite (fit_transform_other _ _ _ _ _ _ H1 Hs).
Qed.

Lemma cleaner_blank_line :
  cleaner float_raises blank_line_loaded = Ok blank_line_cleaned.
Proof.
  unfold cleaner, cleaner_with, impute_CO_with, blank_line_loaded. simpl.
  replace (mean [0; 2]) with 1 by (unfold mean, sum; simpl; lra).
  unfold drop_sentinel, row_mask, getitem_mask, setitem, sentinel. simpl.
  unfold and_rows. simpl. Reqb_decide. reflexivity.
Qed.

(** The blank line passes the Cleaner and the Scaler, and the final table
    has a row without [Hour] and [Day]. *)
Example blank_line_reaches_final_table :
  exists final,
    transform_table float_raises parse_example blank_line_loaded = Ok final
    /\ getitem final "Hour" = Ok (Float64 [Some 18; Some 18; None])
    /\ getitem final "Day" = Ok (Float64 [Some 10; Some 10; None]).
Proof.
  unfold transform_table. rewrite cleaner_blank_line. cbn [bind].
  destruct (scaler_ok float_raises blank_line_cleaned) as [df2 H2].
  { simpl. intros n [<- | [<- | [<- | [<- | [<- | [<- | []]]]]]];
      eexists; eexists; split; reflexivity. }
  { simpl. discriminate. }
  rewrite H2. cbn [bind].
  assert (Hd : getitem df2 "Date"
               = Ok (Object [Some "2004-03-10"; Some "2004-03-10"; None])).
  { rewrite (scaler_other_column _ _ _ "Date" H2); [reflexivity| |];
      simpl; intuition discriminate. }
  assert (Ht : getitem df2 "Time"
               = Ok (Object [Some "18:00:00"; Some "18:00:00"; None])).
  { rewrite (scaler_other_column _ _ _ "Time" H2); [reflexivity| |];
      simpl; intuition discriminate. }
  rewrite (feature_deriver_unfold parse_example df2 _ _ Hd Ht).
  eexists. split; [reflexivity|]. split.
  - rewrite getitem_setitem_other by discriminate.
    now rewrite getitem_setitem_same.
  - now rewrite getitem_setitem_same.
Qed.

(** ** The run: the output file *)

Lemma put_file_same (path text : string) (fs : string -> option string) :
  put_file path text fs path = Some text.
Proof. unfold put_file. now rewrite String.eqb_refl. Qed.

Lemma put_file_other (path text : string) (fs : string -> option string)
  (p : string) :
  p <> path -> put_file path text fs p = fs p.
Proof.
  intro H. unfold put_file. apply String.eqb_neq in H. now rewrite H.
Qed.

Lemma substring_length (n : nat) (s : string) :
  (n <= String.length s)%nat -> String.length (substring 0 n s) = n.
Proof.
  revert s. induction n as [|n IH]; intros [|c s] H; simpl in *; try lia; auto.
  f_equal. apply IH. lia.
Qed.

Lemma standard_scale_2_0 :
  standard_scale [Some 2; Some 0] = [Some 1; Some (-1)].
Proof.
  assert (Hm : mean [2; 0] = 1) by (unfold mean, sum; simpl; lra).
  assert (Hv : variance [2; 0] = 1).
  { unfold variance. rewrite Hm. unfold mean, sum. simpl. lra. }
  assert (Hc : constant_for_standard [Some 2; Some 0] = false).
  { unfold constant_for_standard, constant_for_standard_with.
    rewrite is_constant_feature_exact. simpl present.
    rewrite Hm, Hv. apply Rleb_false_iff.
    pose proof eps_pos. pose proof eps_small. simpl. nra. }
  rewrite standard_scale_exact, Hc.
  simpl present. rewrite Hm, Hv, sqrt_1.
  simpl. repeat f_equal; lra.
Qed.

Lemma minmax_scale_2_0 :
  minmax_scale [Some 2; Some 0] = [Some 1; Some 0].
Proof.
  assert (Hlo : list_min [2; 0] = 0)
    by (simpl; unfold Rmin; destruct (Rle_dec 0 2); lra).
  assert (Hhi : list_max [2; 0] = 2)
    by (simpl; unfold Rmax; destruct (Rle_dec 0 2); lra).
  assert (Hc : constant_for_minmax [Some 2; Some 0] = false).
  { unfold constant_for_minmax. simpl present. rewrite Hlo, Hhi.
    apply Rltb_false_iff. pose proof eps_pos. pose proof eps_small. lra. }
  rewrite minmax_scale_exact, Hc.
  simpl present. rewrite Hlo, Hhi.
  simpl. repeat f_equal; lra.
Qed.

Lemma scaler_spread_rows (a b : nat) (dates times : list (option string)) :
  scaler float_raises
    (mkDataFrame [a; b]
       [ ("Date", Object dates);
         ("Time", Object times);
         ("CO(GT)", Float64 [Some 0; Some 2]);
         ("PT08.S1(CO)", Float64 [Some 2; Some 0]);
         ("C6H6(GT)", Float64 [Some 0; Some 2]);
         ("T", Float64 [Some 0; Some 2]);
         ("RH", Float64 [Some 2; Some 0]);
         ("AH", Float64 [Some 0; Some 2]) ])
  = Ok (mkDataFrame [a; b]
          [ ("Date", Object dates);
            ("Time", Object times);
            ("CO(GT)", Float64 [Some (-1); Some 1]);
            ("PT08.S1(CO)", Float64 [Some 1; Some (-1)]);
            ("C6H6(GT)", Float64 [Some (-1); Some 1]);
            ("T", Float64 [Some 0; Some 1]);
            ("RH", Float64 [Some 1; Some 0]);
            ("AH", Float64 [Some 0; Some 1]) ]).
Proof.
  unfold scaler, fit_transform. simpl.
  rewrite !standard_scale_0_2, standard_scale_2_0.
  unfold setitem. simpl.
  rewrite !minmax_scale_0_2, minmax_scale_2_0. reflexivity.
Qed.

Lemma transform_undated :
  transform_table float_raises parse_example undated_loaded = Ok undated_final.
Proof.
  assert (Hc : cleaner float_raises undated_loaded
               = Ok (mkDataFrame [1; 2]%nat
                       [ ("Date", Object [None; None]);
                         ("Time", Object [None; None]);
                         ("CO(GT)", Float64 [Some 0; Some 2]);
                         ("PT08.S1(CO)", Float64 [Some 2; Some 0]);
                         ("C6H6(GT)", Float64 [Some 0; Some 2]);
                         ("T", Float64 [Some 0; Some 2]);
                         ("RH", Float64 [Some 2; Some 0]);
                         ("AH", Float64 [Some 0; Some 2]) ])).
  { unfold cleaner, cleaner_with, impute_CO_with, undated_loaded. simpl.
    unfold drop_sentinel, row_mask, getitem_mask, setitem, sentinel. simpl.
    unfold and_rows. simpl. Reqb_decide. reflexivity. }
  unfold transform_table. rewrite Hc. cbn [bind].
  rewrite scaler_spread_rows. cbn [bind]. reflexivity.
Qed.

Lemma transform_dated :
  transform_table float_raises parse_example dated_loaded = Ok dated_final.
Proof.
  assert (Hc : cleaner float_raises dated_loaded = Ok dated_loaded).
  { unfold cleaner, cleaner_with, impute_CO_with, dated_loaded. simpl.
    unfold drop_sentinel, row_mask, getitem_mask, setitem, sentinel. simpl.
    unfold and_rows. simpl. Reqb_decide. reflexivity. }
  unfold transform_table. rewrite Hc. cbn [bind].
  unfold dated_loaded. rewrite scaler_spread_rows. cbn [bind]. reflexivity.
Qed.

(** The Loader on the example input. *)
Lemma read_undated_input :
  read_csv_text ";" number_example undated_input = Ok undated_loaded.
Proof. vm_compute. reflexivity. Qed.

Lemma undated_output_text :
  to_csv_text "," nl num_text_example stamp_example undated_final
  = undated_output.
Proof.
  unfold to_csv_text, undated_final, num_text_example. simpl.
  Reqb_decide. reflexivity.
Qed.

Section RunProperties.

Variable Figure : Type.
Variable read_csv : string -> result DataFrame.
Variable histplot : Series -> result Figure.
Variable heatmap : DataFrame -> result Figure.
Variable to_csv : DataFrame -> string.
Variable float_of_str : string -> option (option R).
Variable parse : string -> string -> option Z.

Let run : io Figure DataFrame :=
  pipeline Figure read_csv histplot heatmap to_csv float_of_str parse.

(** A run in which the table is loaded, taken through stages 2 to 4 and
    plotted ends with the write of the output file, both figures shown. *)
Lemma pipeline_reaches_export (w : World Figure) (text : string)
  (loaded final : DataFrame) (co : Series) (fig1 fig2 : Figure) :
  files w input_path = Some text ->
  read_csv text = Ok loaded ->
  transform_table float_of_str parse loaded = Ok final ->
  getitem final "CO(GT)" = Ok co ->
  histplot co = Ok fig1 ->
  corr_to_float float_of_str final = Ok tt ->
  heatmap final = Ok fig2 ->
  run w
  = match write_file Figure output_path (to_csv final)
            (mkWorld Figure (files w) (writable w) (refusal w) (room w) (write_error w)
               (shown w ++ [fig1; fig2])) with
    | (Ok _, w') => (Ok final, w')
    | (Err e, w') => (Err e, w')
    end.
Proof.
  intros Ein Eload Etr Eco E1 Ec E2.
  unfold run, pipeline, io_bind, read_file, pure, show, io_ret.
  rewrite Ein, Eload, Etr, Eco, E1. simpl. rewrite Ec, E2. simpl.
  rewrite <- app_assoc. simpl.
  now destruct (write_file Figure output_path (to_csv final) _) as [[u|e] w'].
Qed.

(** C8, as the code has it.  A run writes to no file but the output file.
    If it completes, the output file holds the text of the final table,
    which is the loaded table taken through stages 2 to 4.  If it raises,
    then either the output file is as it was before the run, or every
    stage and both plots had been completed, the path had been opened and
    the write stopped before the end of the text: the run raises the error
    of the interruption and the output file holds the beginning of the
    text, which is shorter than the text.  The second case occurs whenever
    the stages and the plots succeed, the path can be opened and the file
    system takes fewer characters than the text has. *)
Theorem pipeline_output_file (w : World Figure) :
  match run w with
  | (Ok final, w') =>
      files w' output_path = Some (to_csv final)
      /\ (forall p, p <> output_path -> files w' p = files w p)
      /\ exists text loaded,
           files w input_path = Some text
           /\ read_csv text = Ok loaded
           /\ transform_table float_of_str parse loaded = Ok final
  | (Err e, w') =>
      (forall p, p <> output_path -> files w' p = files w p)
      /\ (files w' output_path = files w output_path
          \/ exists text loaded final,
               files w input_path = Some text
               /\ read_csv text = Ok loaded
               /\ transform_table float_of_str parse loaded = Ok final
               /\ writable w output_path = true
               /\ e = write_error w
               /\ files w' output_path
                  = Some (substring 0 (room w) (to_csv final))
               /\ (String.length (substring 0 (room w) (to_csv final))
                   < String.length (to_csv final))%nat)
  end
  /\ forall text loaded final co fig1 fig2,
       files w input_path = Some text ->
       read_csv text = Ok loaded ->
       transform_table float_of_str parse loaded = Ok final ->
       getitem final "CO(GT)" = Ok co ->
       histplot co = Ok fig1 ->
       corr_to_float float_of_str final = Ok tt ->
       heatmap final = Ok fig2 ->
       writable w output_path = true ->
       (room w < String.length (to_csv final))%nat ->
       fst (run w) = Err (write_error w)
       /\ files (snd (run w)) output_path
          = Some (substring 0 (room w) (to_csv final)).
Proof.
  split.
  - unfold run, pipeline, io_bind, read_file, pure, show, write_file, io_ret.
    destruct (files w input_path) as [text|] eqn:Ein; [|now auto].
    destruct (read_csv text) as [loaded|] eqn:Eload; [|now auto].
    destruct (transform_table float_of_str parse loaded) as [final|] eqn:Etr;
      [|now auto].
    destruct (getitem final "CO(GT)") as [co|]; [|now auto].
    destruct (histplot co) as [fig1|]; [|now auto]. simpl.
    destruct (corr_to_float float_of_str final) as [u|]; [|now auto].
    destruct (heatmap final) as [fig2|]; [|now auto]. simpl.
    destruct (writable w output_path) eqn:Ew; simpl; [|now auto].
    destruct (String.length (to_csv final) <=? room w)%nat eqn:El; simpl.
    + split; [apply put_file_same|]. split.
      * intros p Hp. now apply put_file_other.
      * exists text, loaded. auto.
    + split.
      * intros p Hp. now apply put_file_other.
      * right. exists text, loaded, final.
        apply Nat.leb_gt in El.
        rewrite substring_length by lia.
        repeat split; auto; try apply put_file_same; lia.
  - intros text loaded final co fig1 fig2 Ein Eload Etr Eco E1 Ec E2 Ew Hroom.
    rewrite (pipeline_reaches_export w text loaded final co fig1 fig2)
      by assumption.
    unfold write_file. simpl. rewrite Ew.
    apply Nat.leb_gt in Hroom. rewrite Hroom. simpl.
    split; [reflexivity | apply put_file_same].
Qed.

End RunProperties.

Lemma example_run_reaches_export (free : nat) :
  example_run (example_world free)
  = match write_file unit output_path undated_output
            (mkWorld unit (files (example_world free))
               (writable (example_world free))
               (refusal (example_world free)) free OSError [tt; tt]) with
    | (Ok _, w') => (Ok undated_final, w')
    | (Err e, w') => (Err e, w')
    end.
Proof.
  unfold example_run.
  rewrite (pipeline_reaches_export unit _ _ _ _ _ _ (example_world free)
             undated_input undated_loaded undated_final
             (Float64 [Some (-1); Some 1]) tt tt eq_refl read_undated_input
             transform_undated eq_refl eq_refl eq_refl eq_refl).
  now rewrite undated_output_text.
Qed.

(** A run that completes: with room for the text, the example run returns
    the final table and leaves the output file holding its text. *)
Lemma pipeline_output_file_witness :
  exists w',
    example_run (example_world 1000) = (Ok undated_final, w')
    /\ files w' output_path = Some undated_output.
Proof.
  pose proof (proj1 (pipeline_output_file unit
                       (read_csv_text ";" number_example)
                       (fun _ => Ok tt) (fun _ => Ok tt)
                       (to_csv_text "," nl num_text_example stamp_example)
                       float_raises parse_example (example_world 1000))) as H.
  fold example_run in H.
  rewrite (example_run_reaches_export 1000) in H.
  rewrite (example_run_reaches_export 1000).
  unfold write_file in *. simpl in *.
  eexists. split; [reflexivity|].
  rewrite undated_output_text in H. exact (proj1 H).
Defined.

(** C8 as stated fails: the stages and the plots of the example run
    complete, the output path is opened, and the file system takes five
    characters.  The run raises, and the output file, which was not there
    before the run, holds the first five characters of the text. *)
Lemma failed_write_leaves_partial_file :
  files (example_world 5) output_path = None
  /\ transform_table float_raises parse_example undated_loaded
     = Ok undated_final
  /\ exists w',
       example_run (example_world 5) = (Err OSError, w')
       /\ files w' output_path = Some "Date,"
       /\ "Date," <> undated_output.
Proof.
  split; [reflexivity|]. split; [exact transform_undated|].
  rewrite (example_run_reaches_export 5).
  unfold write_file. simpl.
  eexists. split; [reflexivity|]. split; [reflexivity | discriminate].
Qed.

(** ** The output file read again *)

Lemma str_app_nil_r (s : string) : String.append s EmptyString = s.
Proof. induction s as [|c s IH]; simpl; congruence. Qed.

Lemma str_app_assoc (a b c : string) :
  String.append (String.append a b) c = String.append a (String.append b c).
Proof. induction a as [|x a IH]; simpl; congruence. Qed.

Lemma string_exists_false (f : ascii -> bool) (c : ascii) (s : string) :
  string_exists f (String c s) = false ->
  f c = false /\ string_exists f s = false.
Proof. simpl. now apply orb_false_iff. Qed.

Lemma records_of_length (n : nat) (cols : list (list string)) :
  length (records_of n cols) = n.
Proof. revert cols. induction n as [|n IH]; intro cols; simpl; auto. Qed.

Lemma records_of_head (n : nat) (t : list string) (ts : list (list string)) :
  length t = n -> map (hd EmptyString) (records_of n (t :: ts)) = t.
Proof.
  revert t ts. induction n as [|n IH]; intros [|x t] ts H; simpl in *;
    try discriminate; auto.
  f_equal. apply IH. lia.
Qed.

Lemma records_of_tail (n : nat) (t : list string) (ts : list (list string)) :
  map (@tl string) (records_of n (t :: ts)) = records_of n ts.
Proof.
  revert t ts. induction n as [|n IH]; intros t ts; simpl; auto.
  f_equal. apply IH.
Qed.

Lemma records_of_Forall (P : string -> Prop) (n : nat)
  (cols : list (list string)) :
  P EmptyString -> Forall (Forall P) cols ->
  Forall (fun r => length r = length cols /\ Forall P r) (records_of n cols).
Proof.
  intro H0. revert cols. induction n as [|n IH]; intros cols Hc; simpl;
    constructor.
  - split; [apply length_map|].
    rewrite Forall_map. eapply Forall_impl; [|exact Hc].
    intros [|x t] Ht; simpl; auto. now inversion Ht.
  - replace (length cols) with (length (map (@tl string) cols))
      by apply length_map.
    apply IH. rewrite Forall_map. eapply Forall_impl; [|exact Hc].
    intros [|x t] Ht; simpl; auto. now inversion Ht.
Qed.

Section CsvRoundTrip.

(** The delimiter and the line terminator of the writer, the delimiter
    being that of the reader as well; the texts of numbers and timestamps
    and the number read from a text; and what it is for the number read to
    be the number written, up to the formatting. *)

Variable sep : ascii.
Variable lt : string.
Variable parse_num : string -> option R.
Variable num_text : list (option R) -> R -> string.
Variable stamp_text : list (option Z) -> Z -> string.
Variable close : R -> R -> Prop.

(** The delimiter is neither the quote nor a line break, and the line
    terminator is that of Linux or that of Windows. *)
Hypothesis sep_not_quote : Ascii.eqb sep quote_char = false.
Hypothesis sep_not_newline : is_newline sep = false.
Hypothesis lt_newline :
  lt = String LF EmptyString \/ lt = String CR (String LF EmptyString).

Lemma newline_not_quote (d : ascii) :
  is_newline d = true -> Ascii.eqb d quote_char = false.
Proof.
  unfold is_newline. intro H. apply orb_true_iff in H.
  destruct H as [H | H]; apply Ascii.eqb_eq in H; subst; reflexivity.
Qed.

Lemma newline_not_sep (d : ascii) :
  is_newline d = true -> Ascii.eqb d sep = false.
Proof.
  intro H. destruct (Ascii.eqb d sep) eqn:E; auto.
  apply Ascii.eqb_eq in E. subst. congruence.
Qed.

Lemma tokens_unquoted_run (f acc : string) (rec : list string) (rest : string) :
  string_exists (fun c => Ascii.eqb c sep || is_newline c) f = false ->
  tokens sep Unquoted acc rec (String.append f rest)
  = tokens sep Unquoted (String.append acc f) rec rest.
Proof.
  revert acc. induction f as [|c f IH]; intros acc H.
  - simpl. now rewrite str_app_nil_r.
  - apply string_exists_false in H. destruct H as [Hc Hf].
    apply orb_false_iff in Hc. destruct Hc as [Hs Hn].
    simpl. rewrite Hs, Hn. rewrite IH by assumption.
    unfold snoc. now rewrite str_app_assoc.
Qed.

Lemma tokens_quoted_run (f acc : string) (rec : list string) (rest : string) :
  tokens sep Quoted acc rec (String.append (double_quotes f) (String quote_char rest))
  = tokens sep QuoteInQuoted (String.append acc f) rec rest.
Proof.
  revert acc. induction f as [|c f IH]; intros acc.
  - cbn [double_quotes String.append tokens].
    rewrite Ascii.eqb_refl. now rewrite str_app_nil_r.
  - cbn [double_quotes]. destruct (Ascii.eqb c quote_char) eqn:E;
      cbn [String.append tokens]; rewrite ?E.
    + rewrite IH. unfold snoc. now rewrite str_app_assoc.
    + rewrite IH. unfold snoc. now rewrite str_app_assoc.
Qed.

Lemma needs_quote_false (s : string) :
  needs_quote sep lt s = false -> no_bare_newline sep lt s ->
  string_exists (fun c => Ascii.eqb c sep || is_newline c) s = false
  /\ match s with
     | EmptyString => True
     | String c _ => Ascii.eqb c quote_char = false
     end.
Proof.
  intros Hq Hok.
  assert (Hn : string_exists is_newline s = false).
  { destruct (string_exists is_newline s) eqn:E; auto.
    rewrite (Hok E) in Hq. discriminate. }
  clear Hok. unfold needs_quote in Hq. split.
  - induction s as [|c s IH]; simpl in *; auto.
    apply orb_false_iff in Hq. destruct Hq as [Hc Hq].
    apply orb_false_iff in Hn. destruct Hn as [Hnc Hn].
    apply orb_false_iff in Hc. destruct Hc as [Hc _].
    apply orb_false_iff in Hc. destruct Hc as [Hc _].
    rewrite Hc, Hnc. simpl. now apply IH.
  - destruct s as [|c s]; auto. simpl in Hq.
    apply orb_false_iff in Hq. destruct Hq as [Hc _].
    apply orb_false_iff in Hc. destruct Hc as [Hc _].
    apply orb_false_iff in Hc. now destruct Hc.
Qed.

Lemma tokens_field (f : string) (rec : list string) (rest : string)
  (d : ascii) :
  d = sep \/ is_newline d = true ->
  no_bare_newline sep lt f -> (f <> EmptyString \/ rec <> [] \/ d = sep) ->
  tokens sep FieldStart EmptyString rec
    (String.append (csv_field sep lt f) (String d rest))
  = if Ascii.eqb d sep
    then tokens sep FieldStart EmptyString (rec ++ [f])%list rest
    else (rec ++ [f])%list :: tokens sep FieldStart EmptyString [] rest.
Proof.
  intros Hd Hok Hne.
  assert (Hdq : Ascii.eqb d quote_char = false).
  { destruct Hd as [-> | Hd]; auto. now apply newline_not_quote. }
  assert (Hafter : forall field,
            tokens sep QuoteInQuoted field rec (String d rest)
            = (if Ascii.eqb d sep
               then tokens sep FieldStart EmptyString (rec ++ [field])%list rest
               else (rec ++ [field])%list :: tokens sep FieldStart EmptyString [] rest)
            /\ tokens sep Unquoted field rec (String d rest)
            = (if Ascii.eqb d sep
               then tokens sep FieldStart EmptyString (rec ++ [field])%list rest
               else (rec ++ [field])%list
                    :: tokens sep FieldStart EmptyString [] rest)).
  { intro field. cbn [tokens]. rewrite Hdq.
    destruct Hd as [-> | Hd].
    - rewrite Ascii.eqb_refl. auto.
    - rewrite (newline_not_sep d Hd), Hd. auto. }
  unfold csv_field. destruct (needs_quote sep lt f) eqn:Hq.
  - cbn [String.append tokens]. rewrite Ascii.eqb_refl.
    rewrite str_app_assoc. cbn [String.append].
    rewrite tokens_quoted_run. cbn [String.append].
    apply (Hafter f).
  - destruct (needs_quote_false f Hq Hok) as [Hrun Hfirst].
    destruct f as [|c f].
    + cbn [String.append tokens]. rewrite Hdq. destruct Hd as [-> | Hd].
      * now rewrite Ascii.eqb_refl.
      * rewrite (newline_not_sep d Hd), Hd.
        destruct rec as [|r rec]; [|reflexivity]. exfalso.
        destruct Hne as [H | [H | H]];
          [now apply H | now apply H | subst d; congruence].
    + apply string_exists_false in Hrun. destruct Hrun as [Hc Hrun].
      apply orb_false_iff in Hc. destruct Hc as [Hcs Hcn].
      cbn [String.append tokens]. rewrite Hfirst, Hcs, Hcn.
      rewrite tokens_unquoted_run by assumption. cbn [String.append].
      apply (Hafter (String c f)).
Qed.

Lemma tokens_join (fields rec : list string) (rest : string) (d : ascii) :
  fields <> [] -> Forall (no_bare_newline sep lt) fields ->
  (rec <> [] \/ (2 <= length fields)%nat) ->
  is_newline d = true ->
  tokens sep FieldStart EmptyString rec
    (String.append (csv_join sep (map (csv_field sep lt) fields))
       (String d rest))
  = (rec ++ fields)%list :: tokens sep FieldStart EmptyString [] rest.
Proof.
  intros Hne Hok. revert rec.
  induction Hok as [|f fields Hf Hfs IH]; [congruence|].
  intros rec Hrec Hd. destruct fields as [|g fields].
  - simpl. rewrite tokens_field; auto.
    + now rewrite (newline_not_sep d Hd).
    + right. left. destruct Hrec as [H | H]; auto. simpl in H. lia.
  - change (csv_join sep (map (csv_field sep lt) (f :: g :: fields)))
      with (String.append (csv_field sep lt f)
              (String sep (csv_join sep (map (csv_field sep lt) (g :: fields))))).
    rewrite str_app_assoc. simpl String.append at 2.
    rewrite tokens_field; auto.
    rewrite Ascii.eqb_refl. rewrite IH; auto.
    + now rewrite <- app_assoc.
    + discriminate.
    + left. now destruct rec.
Qed.

Lemma csv_record_join (fields : list string) :
  (2 <= length fields)%nat ->
  csv_record sep lt fields
  = String.append (csv_join sep (map (csv_field sep lt) fields)) lt.
Proof.
  intro H. unfold csv_record.
  destruct fields as [|f [|g fields]]; simpl in H; try lia. now destruct f.
Qed.

Lemma tokens_record (fields : list string) (rest : string) :
  (2 <= length fields)%nat -> Forall (no_bare_newline sep lt) fields ->
  tokens sep FieldStart EmptyString [] (String.append (csv_record sep lt fields) rest)
  = fields :: tokens sep FieldStart EmptyString [] rest.
Proof.
  intros Hlen Hok. rewrite csv_record_join by assumption.
  rewrite str_app_assoc.
  assert (Hne : fields <> []) by (destruct fields; simpl in Hlen; [lia | discriminate]).
  destruct lt_newline as [H | H].
  - replace (String.append lt rest) with (String LF rest)
      by (rewrite H; reflexivity).
    rewrite tokens_join; auto.
  - replace (String.append lt rest) with (String CR (String LF rest))
      by (rewrite H; reflexivity).
    rewrite tokens_join; auto. f_equal.
    cbn [tokens]. assert (Hs : Ascii.eqb LF sep = false)
      by (apply newline_not_sep; reflexivity).
    now rewrite Hs.
Qed.

Lemma tokens_records (recs : list (list string)) :
  Forall (fun r => (2 <= length r)%nat /\ Forall (no_bare_newline sep lt) r) recs ->
  tokens sep FieldStart EmptyString [] (concat_strings (map (csv_record sep lt) recs))
  = recs.
Proof.
  induction 1 as [|r recs [Hlen Hok] _ IH]; simpl; auto.
  rewrite tokens_record by assumption. now rewrite IH.
Qed.

Lemma columns_of_records (n : nat) (cs : list (string * list string)) :
  Forall (fun c => length (snd c) = n) cs ->
  columns_of parse_num (map fst cs) (records_of n (map snd cs))
  = map (fun c => (fst c, infer parse_num (snd c))) cs.
Proof.
  induction 1 as [|c cs Hc _ IH]; simpl; auto.
  rewrite records_of_head by assumption. rewrite records_of_tail.
  now rewrite IH.
Qed.

Lemma Forall2_map_in {A B C : Type} (P : B -> C -> Prop) (f : A -> B)
  (g : A -> C) (l : list A) :
  (forall a, In a l -> P (f a) (g a)) -> Forall2 P (map f l) (map g l).
Proof.
  induction l as [|a l IH]; intro H; simpl; constructor.
  - apply H. now left.
  - apply IH. intros b Hb. apply H. now right.
Qed.

Lemma field_values_of_texts {A : Type} (g : A -> string)
  (xs : list (option A)) :
  (forall a, In (Some a) xs -> is_na (g a) = false) ->
  map field_value
    (map (fun x => match x with Some a => g a | None => EmptyString end) xs)
  = map (option_map g) xs.
Proof.
  intro H. rewrite map_map. apply map_ext_in. intros [a|] Ha; simpl.
  - unfold field_value. now rewrite (H a Ha).
  - reflexivity.
Qed.

Lemma infer_numbers (g : R -> string) (xs : list (option R)) :
  (forall r, In (Some r) xs ->
     is_na (g r) = false
     /\ exists r', parse_num (g r) = Some r' /\ close r r') ->
  exists ys,
    infer parse_num
      (map (fun x => match x with Some r => g r | None => EmptyString end) xs)
    = Float64 ys
    /\ Forall2 (cell_reloaded close (fun _ => EmptyString))
         (map (opt_cell Num) xs) (map (opt_cell Num) ys).
Proof.
  intro H.
  exists (map (fun x => match x with
                        | Some r => parse_num (g r)
                        | None => None
                        end) xs).
  split.
  - unfold infer. rewrite field_values_of_texts by (intros; now apply H).
    rewrite present_map.
    assert (Hall : forallb (is_number parse_num) (map g (present xs)) = true).
    { apply forallb_forall. intros t Ht. apply in_map_iff in Ht.
      destruct Ht as [r [<- Hr]]. apply In_present in Hr.
      destruct (H r Hr) as [_ [r' [Hp _]]]. unfold is_number. now rewrite Hp. }
    rewrite Hall. f_equal. rewrite map_map. apply map_ext.
    now intros [r|].
  - rewrite map_map. apply Forall2_map_in. intros [r|] Hr; simpl; auto.
    destruct (H r Hr) as [_ [r' [Hp Hc]]]. now rewrite Hp.
Qed.

Lemma infer_texts {A : Type} (g : A -> string) (mk : A -> cell)
  (P : cell -> cell -> Prop) (xs : list (option A)) :
  (forall a, P (mk a) (Text (g a))) -> P Missing Missing ->
  (forall a, In (Some a) xs -> is_na (g a) = false) ->
  (present xs <> [] ->
   exists a, In (Some a) xs /\ parse_num (g a) = None) ->
  Forall2 P (map (opt_cell mk) xs)
    (series_cells
       (infer parse_num
          (map (fun x => match x with Some a => g a | None => EmptyString end)
             xs))).
Proof.
  intros Hmk Hmiss Hna Htext. unfold infer.
  rewrite field_values_of_texts by assumption. rewrite present_map.
  destruct (forallb (is_number parse_num) (map g (present xs))) eqn:E.
  - assert (Hnone : present xs = []).
    { destruct (present xs) as [|a0 rest] eqn:Ep; auto. exfalso.
      destruct Htext as [a [Ha Hp]]; [discriminate|].
      rewrite forallb_forall in E.
      assert (Hin : In (g a) (map g (a0 :: rest))).
      { apply in_map. rewrite <- Ep. now apply In_present. }
      specialize (E _ Hin). unfold is_number in E. now rewrite Hp in E. }
    simpl. rewrite !map_map. apply Forall2_map_in. intros [a|] Ha; simpl; auto.
    apply In_present in Ha. rewrite Hnone in Ha. contradiction.
  - simpl. rewrite map_map. apply Forall2_map_in. intros [a|] Ha; simpl; auto.
Qed.

Lemma series_texts_length (s : Series) :
  length (series_texts num_text stamp_text s) = series_len s.
Proof. destruct s; simpl; apply length_map. Qed.

(** C9, as the code has it.  The output file is written with commas.  Read
    again with the comma as delimiter, it gives a table with as many rows,
    numbered from 0, and the same column names in the same order, in which
    a number is the number read from its text, a text is the same text, a
    missing entry is missing, and a timestamp is the text that was written
    for it: [DateTime] comes back as a column of text.  This holds for a
    table of at least two columns with distinct, non-empty names, in which
    the text of no number, timestamp or str is one that is read as a
    missing entry or holds a line break that the writer does not quote, no
    text of a timestamp is read as a number, and every column of strs
    holds one that is read neither as a number nor as a boolean. *)
Theorem csv_round_trip (df : DataFrame) :
  aligned df -> (2 <= length (columns df))%nat ->
  NoDup (map fst (columns df)) ->
  Forall (fun n => n <> EmptyString /\ no_bare_newline sep lt n)
    (map fst (columns df)) ->
  (forall name xs r, In (name, Float64 xs) (columns df) -> In (Some r) xs ->
     is_na (num_text xs r) = false
     /\ no_bare_newline sep lt (num_text xs r)
     /\ exists r', parse_num (num_text xs r) = Some r' /\ close r r') ->
  (forall name ts t, In (name, Datetime64 ts) (columns df) -> In (Some t) ts ->
     is_na (stamp_text ts t) = false
     /\ no_bare_newline sep lt (stamp_text ts t)
     /\ parse_num (stamp_text ts t) = None) ->
  (forall name xs t, In (name, Object xs) (columns df) -> In (Some t) xs ->
     is_na t = false /\ no_bare_newline sep lt t) ->
  (forall name xs, In (name, Object xs) (columns df) -> present xs <> [] ->
     exists t, In (Some t) xs /\ parse_num t = None
               /\ is_bool_word t = false) ->
  exists df',
    read_csv_text sep parse_num (to_csv_text sep lt num_text stamp_text df)
    = Ok df'
    /\ index df' = seq 0 (length (index df))
    /\ map fst (columns df') = map fst (columns df)
    /\ Forall2 (fun c c' => fst c = fst c'
                            /\ series_reloaded close stamp_text
                                 (snd c) (snd c'))
         (columns df) (columns df').
Proof.
  intros Hal Hcols _ Hnames Hnum Hstamp Htext Hobj.
  set (n := length (index df)).
  set (texts := map (fun c => series_texts num_text stamp_text (snd c))
                  (columns df)).
  assert (Hempty : no_bare_newline sep lt EmptyString)
    by (intro H; discriminate).
  assert (Htexts : Forall (Forall (no_bare_newline sep lt)) texts).
  { unfold texts. rewrite Forall_map. apply Forall_forall.
    intros [name s] Hin. simpl.
    destruct s as [xs|xs|ts]; simpl; rewrite Forall_map;
      apply Forall_forall; intros [a|] Ha; auto.
    - now destruct (Hnum name xs a Hin Ha) as [_ [H _]].
    - now destruct (Htext name xs a Hin Ha) as [_ H].
    - now destruct (Hstamp name ts a Hin Ha) as [_ [H _]]. }
  pose proof (records_of_Forall _ n texts Hempty Htexts) as Hrecs0.
  assert (Hwidth : length texts = length (columns df))
    by (unfold texts; apply length_map).
  assert (Hrecs : Forall (fun r => (2 <= length r)%nat
                                   /\ Forall (no_bare_newline sep lt) r)
                    (records_of n texts)).
  { eapply Forall_impl; [|exact Hrecs0].
    intros r [Hl Hr]. split; auto. now rewrite Hl, Hwidth. }
  assert (Htok : tokens sep FieldStart EmptyString []
                   (to_csv_text sep lt num_text stamp_text df)
                 = map fst (columns df) :: records_of n texts).
  { unfold to_csv_text. fold n texts. rewrite tokens_record.
    - now rewrite tokens_records.
    - now rewrite length_map.
    - eapply Forall_impl; [|exact Hnames]. now intros a [_ Ha]. }
  assert (Hcolumns : columns_of parse_num (map fst (columns df))
                       (records_of n texts)
                     = map (fun c => (fst c,
                                      infer parse_num
                                        (series_texts num_text stamp_text
                                           (snd c))))
                         (columns df)).
  { set (cs := map (fun c => (fst c,
                               series_texts num_text stamp_text (snd c)))
                  (columns df)).
    assert (H1 : map fst (columns df) = map fst cs)
      by (unfold cs; now rewrite map_map).
    assert (H2 : texts = map snd cs)
      by (unfold cs, texts; now rewrite map_map).
    rewrite H1, H2, columns_of_records.
    - unfold cs. now rewrite map_map.
    - unfold cs. rewrite Forall_map. eapply Forall_impl; [|exact Hal].
      intros c Hc. simpl. now rewrite series_texts_length. }
  eexists. unfold read_csv_text. rewrite Htok.
  assert (Hlong : existsb (fun r => (length (map fst (columns df))
                                     <? length r)%nat)
                    (records_of n texts) = false).
  { apply not_true_iff_false. intro H. apply existsb_exists in H.
    destruct H as [r [Hr Hlt]]. rewrite Forall_forall in Hrecs0.
    destruct (Hrecs0 r Hr) as [Hlen _].
    apply Nat.ltb_lt in Hlt. rewrite length_map in Hlt. lia. }
  rewrite Hlong. split; [reflexivity|]. simpl.
  rewrite records_of_length, Hcolumns. split; [reflexivity|]. split.
  - rewrite map_map. reflexivity.
  - rewrite <- (map_id (columns df)) at 1. apply Forall2_map_in.
    intros [name s] Hin. simpl. split; auto.
    unfold series_reloaded.
    destruct s as [xs|xs|ts]; simpl series_texts; simpl series_cells at 1.
    + destruct (infer_numbers (num_text xs) xs) as [ys [Hys Hrel]].
      { intros r Hr. destruct (Hnum name xs r Hin Hr) as [H1 [_ H2]]. auto. }
      rewrite Hys. exact Hrel.
    + apply infer_texts; simpl; auto.
      * intros a Ha. now destruct (Htext name xs a Hin Ha).
      * intro Hp. destruct (Hobj name xs Hin Hp) as [t [Ht [Hn _]]]. eauto.
    + apply infer_texts; simpl; auto.
      * intros a Ha. now destruct (Hstamp name ts a Hin Ha).
      * intro Hp. destruct (present ts) as [|t rest] eqn:Ep; [congruence|].
        assert (Ht : In (Some t) ts)
          by (apply In_present; rewrite Ep; now left).
        exists t. split; auto. now destruct (Hstamp name ts t Hin Ht) as [_ [_ H]].
Qed.

End CsvRoundTrip.

(** The text written for [dated_final]. *)
Lemma dated_output_text :
  to_csv_text "," nl num_text_example stamp_example dated_final = dated_output.
Proof.
  unfold to_csv_text, dated_final, num_text_example. simpl.
  Reqb_decide. reflexivity.
Qed.

Lemma csv_round_trip_witness :
  exists df',
    read_csv_text "," number_example
      (to_csv_text "," nl num_text_example stamp_example dated_final)
    = Ok df'
    /\ index df' = [0; 1]%nat
    /\ map fst (columns df') = map fst (columns dated_final).
Proof.
  destruct (csv_round_trip "," nl number_example num_text_example
              stamp_example eq eq_refl eq_refl (or_introl eq_refl)
              dated_final) as [df' [H1 [H2 [H3 _]]]].
  - repeat constructor.
  - simpl. lia.
  - simpl. repeat constructor; simpl; intuition discriminate.
  - simpl. repeat constructor; try discriminate; intro H; discriminate H.
  - intros name xs r Hin Hr. simpl in Hin.
    repeat (destruct Hin as [Hin | Hin];
            [ first [ discriminate Hin
                    | injection Hin as <- <-; simpl in Hr;
                      repeat (destruct Hr as [Hr | Hr];
                              [injection Hr as <-; unfold num_text_example;
                               Reqb_decide; repeat split;
                               [intro H; discriminate H
                               | eexists; split; reflexivity]|]);
                      contradiction ] |]).
    contradiction.
  - intros name ts t Hin Ht. simpl in Hin.
    repeat (destruct Hin as [Hin | Hin];
            [ first [ discriminate Hin
                    | injection Hin as <- <-; repeat split;
                      intro H; discriminate H ] |]).
    contradiction.
  - intros name xs t Hin Ht. simpl in Hin.
    repeat (destruct Hin as [Hin | Hin];
            [ first [ discriminate Hin
                    | injection Hin as <- <-; simpl in Ht;
                      repeat (destruct Ht as [Ht | Ht];
                              [injection Ht as <-; split;
                               [reflexivity | intro H; discriminate H]|]);
                      contradiction ] |]).
    contradiction.
  - intros name xs Hin Hp. simpl in Hin.
    repeat (destruct Hin as [Hin | Hin];
            [ first [ discriminate Hin
                    | injection Hin as <- <-; eexists; split;
                      [left; reflexivity | split; reflexivity] ] |]).
    contradiction.
  - exists df'. auto.
Defined.

Lemma read_dated_output :
  read_csv_text "," number_example dated_output = Ok dated_reloaded.
Proof. vm_compute. reflexivity. Qed.

Lemma read_dated_output_by_loader :
  read_csv_text ";" number_example dated_output = Ok dated_reloaded_by_loader.
Proof. vm_compute. reflexivity. Qed.

Lemma read_undated_output_by_loader :
  read_csv_text ";" number_example undated_output
  = Ok undated_reloaded_by_loader.
Proof. vm_compute. reflexivity. Qed.

(** C9 as stated fails.  The example run writes [undated_output] for its
    final table of eleven columns; read as the Loader reads its input, with
    [sep=';'], the file is a table of one column, each line being one
    field.  And the file written for [dated_final], read with the comma, is
    a table whose [DateTime] holds text where the final table holds
    timestamps. *)
Lemma reloaded_file_differs :
  (exists w',
      example_run (example_world 1000) = (Ok undated_final, w')
      /\ files w' output_path = Some undated_output)
  /\ read_csv_text ";" number_example undated_output
     = Ok undated_reloaded_by_loader
  /\ length (columns undated_reloaded_by_loader) = 1%nat
  /\ length (columns undated_final) = 11%nat
  /\ transform_table float_raises parse_example dated_loaded = Ok dated_final
  /\ to_csv_text "," nl num_text_example stamp_example dated_final
     = dated_output
  /\ read_csv_text ";" number_example dated_output
     = Ok dated_reloaded_by_loader
  /\ length (columns dated_reloaded_by_loader) = 1%nat
  /\ read_csv_text "," number_example dated_output = Ok dated_reloaded
  /\ getitem dated_final "DateTime"
     = Ok (Datetime64 [Some 1078941600000000000%Z;
                       Some 1078941600000000000%Z])
  /\ getitem dated_reloaded "DateTime"
     = Ok (Object [Some "2004-03-10 18:00:00"; Some "2004-03-10 18:00:00"]).
Proof.
  split.
  { rewrite (example_run_reaches_export 1000).
    unfold write_file. simpl. eexists. split; reflexivity. }
  split; [exact read_undated_output_by_loader|].
  split; [reflexivity|]. split; [reflexivity|].
  split; [exact transform_dated|]. split; [exact dated_output_text|].
  split; [exact read_dated_output_by_loader|].
  split; [reflexivity|].
  split; [exact read_dated_output|]. split; reflexivity.
Qed.

(** * Further properties of the stages *)

(** ** The sentinel filter: what it keeps *)

Lemma select_length_eq {A B : Type} (m : list bool) (l : list A) (k : list B) :
  length l = length k -> length (select m l) = length (select m k).
Proof.
  revert l k. induction m as [|b m IH]; intros [|x l] [|y k] H; simpl in *;
    try discriminate; auto.
  destruct b; simpl; auto.
Qed.

Lemma select_length_le {A : Type} (m : list bool) (l : list A) :
  (length (select m l) <= length l)%nat.
Proof.
  revert l. induction m as [|b m IH]; intros [|x l]; simpl; try lia.
  specialize (IH l). destruct b; simpl; lia.
Qed.

Lemma select_all_true {A : Type} (l : list A) :
  select (repeat true (length l)) l = l.
Proof. induction l as [|x l IH]; simpl; congruence. Qed.

Lemma select_full_all_true {A : Type} (m : list bool) (l : list A) :
  length m = length l -> length (select m l) = length l ->
  m = repeat true (length l).
Proof.
  revert l. induction m as [|b m IH]; intros [|x l] Hm Hs; simpl in *;
    try discriminate; auto.
  destruct b; simpl in Hs.
  - f_equal. apply IH; lia.
  - pose proof (select_length_le m l). lia.
Qed.

Lemma select_NoDup {A : Type} (m : list bool) (l : list A) :
  NoDup l -> NoDup (select m l).
Proof.
  revert l. induction m as [|b m IH]; intros [|x l] H; simpl;
    try constructor.
  inversion H as [|? ? Hx Hl]; subst. destruct b; auto.
  constructor; auto. intro Hin. apply Hx. eapply In_select; eauto.
Qed.

Lemma map_filter_true {A : Type} (f : A -> bool) (l : list A) :
  map f (filter f l) = repeat true (length (filter f l)).
Proof.
  induction l as [|x l IH]; simpl; auto.
  destruct (f x) eqn:E; simpl; congruence.
Qed.

Lemma series_select_len (m : list bool) (s : Series) (idx : list nat) :
  series_len s = length idx ->
  series_len (series_select m s) = length (select m idx).
Proof.
  destruct s; simpl; intro H; now apply select_length_eq.
Qed.

Lemma getitem_mask_aligned (df : DataFrame) (m : list bool) :
  aligned df -> aligned (getitem_mask df m).
Proof.
  intro Hal. unfold aligned, getitem_mask in *. simpl.
  rewrite Forall_map. eapply Forall_impl; [|exact Hal].
  intros c Hc. simpl. now apply series_select_len.
Qed.

Lemma drop_sentinel_aligned (df : DataFrame) :
  aligned df -> aligned (drop_sentinel df).
Proof. apply getitem_mask_aligned. Qed.

Lemma series_select_all_true (s : Series) :
  series_select (repeat true (series_len s)) s = s.
Proof. destruct s; simpl; now rewrite select_all_true. Qed.

Lemma getitem_mask_all_true (df : DataFrame) :
  aligned df -> getitem_mask df (repeat true (length (index df))) = df.
Proof.
  intro Hal. destruct df as [idx cols]. unfold getitem_mask, aligned in *.
  simpl in *. rewrite select_all_true. f_equal.
  induction Hal as [|[n s] cols Hc _ IH]; simpl; auto.
  simpl in Hc. rewrite <- Hc at 1. rewrite series_select_all_true.
  now rewrite IH.
Qed.

Lemma row_mask_drop_sentinel (df : DataFrame) :
  aligned df ->
  row_mask (drop_sentinel df)
  = repeat true (length (index (drop_sentinel df))).
Proof.
  intro Hal.
  rewrite row_mask_rows by now apply drop_sentinel_aligned.
  assert (E : rows (drop_sentinel df) = filter row_clean (rows df))
    by now apply rows_drop_sentinel.
  rewrite E, map_filter_true, <- E. f_equal. apply rows_length.
Qed.

(** X1.  Filtering a filtered table changes nothing: the cell can be run
    again on its own result. *)
Theorem drop_sentinel_idempotent (df : DataFrame) :
  aligned df -> drop_sentinel (drop_sentinel df) = drop_sentinel df.
Proof.
  intro Hal. unfold drop_sentinel at 1.
  rewrite row_mask_drop_sentinel by assumption.
  apply getitem_mask_all_true. now apply drop_sentinel_aligned.
Qed.

Lemma drop_sentinel_idempotent_witness :
  drop_sentinel (drop_sentinel scenario) = drop_sentinel scenario.
Proof. exact (drop_sentinel_idempotent scenario scenario_aligned). Defined.

(** X2.  The filter keeps the shape of the table: the columns, their names
    and order stay, the table stays aligned, and the index of the result
    consists of labels of the input, none of them twice if none was. *)
Theorem drop_sentinel_keeps_shape (df : DataFrame) :
  aligned df ->
  aligned (drop_sentinel df)
  /\ map fst (columns (drop_sentinel df)) = map fst (columns df)
  /\ (length (index (drop_sentinel df)) <= length (index df))%nat
  /\ incl (index (drop_sentinel df)) (index df)
  /\ (NoDup (index df) -> NoDup (index (drop_sentinel df))).
Proof.
  intro Hal. split; [now apply drop_sentinel_aligned|].
  unfold drop_sentinel, getitem_mask. simpl. repeat split.
  - rewrite map_map. reflexivity.
  - apply select_length_le.
  - intros l Hl. eapply In_select; eauto.
  - apply select_NoDup.
Qed.

Lemma drop_sentinel_keeps_shape_witness :
  aligned (drop_sentinel scenario)
  /\ map fst (columns (drop_sentinel scenario)) = map fst (columns scenario).
Proof.
  destruct (drop_sentinel_keeps_shape scenario scenario_aligned)
    as [H1 [H2 _]].
  split; assumption.
Defined.

(** X3.  The filter returns the table as it is exactly when no numeric
    column holds -200. *)
Theorem drop_sentinel_fixpoint_iff (df : DataFrame) :
  aligned df ->
  (drop_sentinel df = df <->
   forall name xs, In (name, Float64 xs) (columns df) ->
                   ~ In (Some sentinel) xs).
Proof.
  intro Hal. pose proof (row_mask_length df Hal) as Hlen. split.
  - intros Heq name xs Hin Hs.
    apply In_nth_error in Hs. destruct Hs as [p Hp].
    assert (Hlt : (p < length (index df))%nat).
    { unfold aligned in Hal. rewrite Forall_forall in Hal.
      specialize (Hal _ Hin). simpl in Hal. rewrite <- Hal.
      apply nth_error_Some. congruence. }
    assert (Hm : row_mask df = repeat true (length (index df))).
    { apply select_full_all_true; auto.
      apply (f_equal index) in Heq. unfold drop_sentinel in Heq.
      simpl in Heq. now rewrite Heq. }
    assert (Hf : nth_error (row_mask df) p = Some false)
      by (apply row_mask_false_iff; eauto).
    rewrite Hm, nth_error_repeat in Hf by assumption. discriminate.
  - intro Hno.
    assert (Hm : row_mask df = repeat true (length (index df))).
    { apply nth_error_ext. intro p.
      destruct (Nat.lt_ge_cases p (length (index df))) as [Hlt | Hge].
      - rewrite nth_error_repeat by assumption.
        destruct (nth_error (row_mask df) p) as [[|]|] eqn:E; auto.
        + apply row_mask_false_iff in E; auto.
          destruct E as [name [xs [Hin Hx]]]. exfalso.
          apply (Hno name xs Hin). eapply nth_error_In; eauto.
        + apply nth_error_None in E. lia.
      - rewrite (proj2 (nth_error_None _ _)) by lia.
        symmetry. apply nth_error_None. rewrite repeat_length. lia. }
    unfold drop_sentinel. rewrite Hm. now apply getitem_mask_all_true.
Qed.

Lemma drop_sentinel_fixpoint_iff_witness :
  drop_sentinel gap_table = gap_table <->
  forall name xs, In (name, Float64 xs) (columns gap_table) ->
                  ~ In (Some sentinel) xs.
Proof. exact (drop_sentinel_fixpoint_iff gap_table gap_table_aligned). Defined.

(** ** Mean imputation: errors and what it leaves alone *)

Lemma traverse_error_kind {A B : Type} (P : exn -> Prop) (f : A -> result B)
  (l : list A) (e : exn) :
  (forall a e', f a = Err e' -> P e') -> traverse f l = Err e -> P e.
Proof.
  intro Hf. induction l as [|a l IH]; simpl; [discriminate|].
  destruct (f a) as [b|e'] eqn:Ea; simpl.
  - destruct (traverse f l) as [bs|e'']; simpl; [discriminate|].
    intro H. injection H as <-. now apply IH.
  - intro H. injection H as <-. eapply Hf; eauto.
Qed.

Lemma to_float64_error_kind (conv : string -> option (option R)) (s : Series)
  (e : exn) :
  to_float64 conv s = Err e -> e = ValueError \/ e = TypeError.
Proof.
  destruct s as [xs|xs|xs]; simpl; intro H.
  - discriminate.
  - left. eapply (traverse_error_kind (fun e0 => e0 = ValueError));
      [|exact H].
    intros [t|] e'; simpl; [|discriminate].
    destruct (conv t); [discriminate|]. now intros [= <-].
  - right. now injection H as <-.
Qed.

Lemma names_setitem_existing (df : DataFrame) (name : string) (s old : Series) :
  lookup name (columns df) = Some old ->
  map fst (columns (setitem df name s)) = map fst (columns df).
Proof.
  intro H. unfold setitem. rewrite H. simpl. rewrite map_map.
  apply map_ext. intros [n s0]. simpl. now destruct (String.eqb n name).
Qed.

Lemma names_setitem_new (df : DataFrame) (name : string) (s : Series) :
  lookup name (columns df) = None ->
  map fst (columns (setitem df name s)) = (map fst (columns df) ++ [name])%list.
Proof.
  intro H. unfold setitem. rewrite H. simpl. now rewrite map_app.
Qed.

Lemma getitem_lookup (df : DataFrame) (name : string) (s : Series) :
  getitem df name = Ok s <-> lookup name (columns df) = Some s.
Proof.
  unfold getitem. destruct (lookup name (columns df)); split; congruence.
Qed.

(** X4.  Whatever the mean that the imputer computes, the imputation step
    raises [KeyError] exactly when the table has no [CO(GT)] column; it
    returns a table exactly when the column is numeric and has an entry,
    present or not; on a numeric column without entries, that of a table
    without rows, it raises [ValueError]. *)
Theorem impute_CO_outcomes (np_mean : list R -> R)
  (conv : string -> option (option R)) (df : DataFrame) :
  (impute_CO_with np_mean conv df = Err KeyError <->
   lookup "CO(GT)" (columns df) = None)
  /\ ((exists df1, impute_CO_with np_mean conv df = Ok df1) <->
      exists s xs, getitem df "CO(GT)" = Ok s
                   /\ to_float64 conv s = Ok xs /\ xs <> [])
  /\ (forall s, getitem df "CO(GT)" = Ok s -> to_float64 conv s = Ok [] ->
                impute_CO_with np_mean conv df = Err ValueError).
Proof.
  split; [|split].
  - unfold impute_CO_with, getitem.
    destruct (lookup "CO(GT)" (columns df)) as [s|]; simpl;
      [|split; reflexivity].
    split; [|discriminate]. intro H. exfalso.
    destruct (to_float64 conv s) as [xs|e] eqn:Ef; simpl in H.
    + unfold simple_imputer in H.
      destruct xs; [discriminate|]. destruct (present (o :: xs)); discriminate.
    + injection H as ->.
      destruct (to_float64_error_kind _ _ _ Ef); discriminate.
  - split.
    + intros [df1 H]. apply impute_CO_with_inv in H.
      destruct H as [s [xs [ys [H1 [H2 [H3 _]]]]]].
      apply simple_imputer_inv in H3. destruct H3 as [H3 _]. eauto.
    + intros [s [xs [H1 [H2 H3]]]].
      unfold impute_CO_with. rewrite H1. simpl. rewrite H2. simpl.
      unfold simple_imputer. destruct xs as [|x xs]; [congruence|].
      destruct (present (x :: xs)); simpl; eauto.
  - intros s Hg Hf. unfold impute_CO_with. rewrite Hg. simpl.
    rewrite Hf. reflexivity.
Qed.

(** X5.  On a table whose [CO(GT)] is numeric and has a present entry, the
    imputation step touches nothing but the missing entries of [CO(GT)],
    whatever the mean that the imputer computes: the index, the names and
    order of the columns and every other column are as before, [CO(GT)]
    keeps its length, the entries that were present keep their values, and
    an aligned table stays aligned. *)
Theorem impute_CO_leaves_rest (np_mean : list R -> R)
  (conv : string -> option (option R))
  (df df1 : DataFrame) (s : Series) (xs : list (option R)) :
  getitem df "CO(GT)" = Ok s -> to_float64 conv s = Ok xs ->
  present xs <> [] ->
  impute_CO_with np_mean conv df = Ok df1 ->
  index df1 = index df
  /\ map fst (columns df1) = map fst (columns df)
  /\ (forall n, n <> "CO(GT)" -> getitem df1 n = getitem df n)
  /\ (exists ys,
         getitem df1 "CO(GT)" = Ok (Float64 ys)
         /\ length ys = length xs
         /\ forall p r, nth_error xs p = Some (Some r) ->
                        nth_error ys p = Some (Some r))
  /\ (aligned df -> aligned df1).
Proof.
  intros Hg Hf Hp H.
  rewrite (impute_CO_with_ok np_mean conv df s xs Hg Hf Hp) in H.
  injection H as <-.
  split; [apply index_setitem|]. split; [|split; [|split]].
  - apply getitem_lookup in Hg. eapply names_setitem_existing; eauto.
  - intros n Hn. now apply getitem_setitem_other.
  - exists (fillna (np_mean (present xs)) xs). repeat split.
    + apply getitem_setitem_same.
    + apply fillna_length.
    + intros p r Hr. now rewrite fillna_nth, Hr.
  - intro Hal. eapply imputed_aligned; eauto.
Qed.

Lemma impute_CO_gap_table :
  impute_CO float_raises gap_table
  = Ok (setitem gap_table "CO(GT)"
          (Float64 (fillna (mean [1; 3]) [Some 1; None; Some 3]))).
Proof.
  apply (impute_CO_ok float_raises gap_table
           (Float64 [Some 1; None; Some 3]) [Some 1; None; Some 3]);
    try reflexivity.
  simpl. discriminate.
Qed.

Lemma impute_CO_leaves_rest_witness :
  getitem (setitem gap_table "CO(GT)"
             (Float64 (fillna (mean [1; 3]) [Some 1; None; Some 3]))) "T"
  = getitem gap_table "T".
Proof.
  refine (proj1 (proj2 (proj2 (impute_CO_leaves_rest mean float_raises
                                 gap_table _
                                 (Float64 [Some 1; None; Some 3])
                                 [Some 1; None; Some 3]
                                 eq_refl eq_refl _ impute_CO_gap_table)))
            "T" _); simpl; discriminate.
Defined.

(** ** The Cleaner run again *)

Lemma map_replace_absent (name : string) (s : Series)
  (cols : list (string * Series)) :
  lookup name cols = None ->
  map (fun c => if String.eqb (fst c) name then (fst c, s) else c) cols = cols.
Proof.
  induction cols as [|[n0 s0] cols IH]; simpl; auto.
  destruct (String.eqb n0 name); [discriminate|].
  intro H. now rewrite IH.
Qed.

Lemma setitem_idempotent (df : DataFrame) (name : string) (s : Series) :
  setitem (setitem df name s) name s = setitem df name s.
Proof.
  unfold setitem at 1. rewrite lookup_setitem_same.
  rewrite index_setitem. unfold setitem.
  destruct (lookup name (columns df)) as [old|] eqn:E; simpl; f_equal.
  - rewrite map_map. apply map_ext. intros [n0 s0]. simpl.
    destruct (String.eqb n0 name) eqn:E0; simpl; now rewrite E0.
  - rewrite map_app, map_replace_absent by assumption. simpl.
    now rewrite String.eqb_refl.
Qed.

Lemma getitem_mask_setitem (df : DataFrame) (name : string) (s : Series)
  (m : list bool) :
  getitem_mask (setitem df name s) m
  = setitem (getitem_mask df m) name (series_select m s).
Proof.
  unfold setitem, getitem_mask. simpl. rewrite lookup_map_snd.
  destruct (lookup name (columns df)) as [old|]; simpl; f_equal.
  - rewrite !map_map. apply map_ext. intros [n0 s0]. simpl.
    now destruct (String.eqb n0 name).
  - now rewrite map_app.
Qed.

Lemma fillna_present_id (m : R) (xs : list (option R)) :
  Forall (fun y => y <> None) xs -> fillna m xs = xs.
Proof.
  induction 1 as [|[r|] xs Hx _ IH]; simpl; try congruence.
Qed.

Lemma present_nonempty (xs : list (option R)) :
  Forall (fun y => y <> None) xs -> xs <> [] -> present xs <> [].
Proof.
  intros H Hne. destruct xs as [|[r|] xs]; try congruence.
  - simpl. discriminate.
  - inversion H; congruence.
Qed.

(** X7.  Running the Cleaner on its own result, for a table whose
    [CO(GT)] is numeric and has a present entry, whatever the mean that the
    imputer computes: if the result has a row, the second run returns it
    unchanged; if the filter has removed every row, the second run raises
    [ValueError], the imputer refusing a table without rows. *)
Theorem cleaner_rerun (np_mean : list R -> R)
  (conv : string -> option (option R))
  (df df1 : DataFrame) (s : Series) (xs : list (option R)) :
  aligned df ->
  getitem df "CO(GT)" = Ok s -> to_float64 conv s = Ok xs ->
  present xs <> [] ->
  cleaner_with np_mean conv df = Ok df1 ->
  (index df1 <> [] -> cleaner_with np_mean conv df1 = Ok df1)
  /\ (index df1 = [] -> cleaner_with np_mean conv df1 = Err ValueError).
Proof.
  intros Hal Hg Hf Hne H.
  apply cleaner_with_inv in H. destruct H as [D [HD ->]].
  rewrite (impute_CO_with_ok np_mean conv df s xs Hg Hf Hne) in HD.
  injection HD as HD.
  symmetry in HD.
  set (zs := fillna (np_mean (present xs)) xs) in *.
  assert (HalD : aligned D) by (subst D; eapply imputed_aligned; eauto).
  set (ws := select (row_mask D) zs).
  assert (Hshape : drop_sentinel D
                   = setitem (getitem_mask df (row_mask D)) "CO(GT)"
                       (Float64 ws)).
  { unfold drop_sentinel.
    change (Float64 ws) with (series_select (row_mask D) (Float64 zs)).
    rewrite <- getitem_mask_setitem. now rewrite <- HD. }
  assert (Hgw : getitem (drop_sentinel D) "CO(GT)" = Ok (Float64 ws))
    by (rewrite Hshape; apply getitem_setitem_same).
  assert (Hno : Forall (fun y => y <> None) ws).
  { apply Forall_forall. intros y Hy. apply In_select in Hy.
    pose proof (fillna_no_missing (np_mean (present xs)) xs) as Hz.
    rewrite Forall_forall in Hz. now apply Hz. }
  assert (Hlen : length ws = length (index (drop_sentinel D))).
  { apply (getitem_len _ _ _ (drop_sentinel_aligned D HalD) Hgw). }
  split; intro Hidx.
  - assert (Hws : ws <> []).
    { intro H0. rewrite H0 in Hlen. simpl in Hlen.
      apply Hidx. now apply length_zero_iff_nil. }
    unfold cleaner_with.
    rewrite (impute_CO_with_ok np_mean conv _ (Float64 ws) ws Hgw eq_refl
               (present_nonempty ws Hno Hws)).
    simpl. rewrite (fillna_present_id _ ws Hno).
    replace (setitem (drop_sentinel D) "CO(GT)" (Float64 ws))
      with (drop_sentinel D)
      by (rewrite Hshape; symmetry; apply setitem_idempotent).
    f_equal. unfold drop_sentinel at 1.
    rewrite row_mask_drop_sentinel by assumption.
    apply getitem_mask_all_true. now apply drop_sentinel_aligned.
  - assert (Hws : ws = []).
    { apply length_zero_iff_nil. now rewrite Hlen, Hidx. }
    unfold cleaner_with, impute_CO_with. rewrite Hgw. simpl.
    now rewrite Hws.
Qed.

Lemma cleaner_rerun_witness :
  cleaner float_raises
    (mkDataFrame [0; 1]%nat
       [ ("CO(GT)", Float64 [Some 1; Some 2]);
         ("T", Float64 [Some 11; Some 12]) ])
  = Ok (mkDataFrame [0; 1]%nat
          [ ("CO(GT)", Float64 [Some 1; Some 2]);
            ("T", Float64 [Some 11; Some 12]) ]).
Proof.
  refine (proj1 (cleaner_rerun mean float_raises gap_table _
                   (Float64 [Some 1; None; Some 3]) [Some 1; None; Some 3]
                   gap_table_aligned eq_refl eq_refl _ cleaner_gap_table) _).
  - simpl. discriminate.
  - discriminate.
Defined.

(** ** Scaler: outcomes and shape *)

Lemma getitem_error (df : DataFrame) (n : string) (e : exn) :
  getitem df n = Err e -> e = KeyError.
Proof.
  unfold getitem. destruct (lookup n (columns df)); [discriminate|].
  now intros [= <-].
Qed.

Lemma traverse_getitem_missing (df : DataFrame) (names : list string)
  (n : string) :
  In n names -> lookup n (columns df) = None ->
  traverse (getitem df) names = Err KeyError.
Proof.
  intros Hin Hn. induction names as [|a names IH]; [contradiction|]. simpl.
  destruct (getitem df a) as [s|e] eqn:Ea; simpl.
  - destruct Hin as [-> | Hin].
    + unfold getitem in Ea. rewrite Hn in Ea. discriminate.
    + now rewrite (IH Hin).
  - now rewrite (getitem_error _ _ _ Ea).
Qed.

Lemma fit_transform_rows (conv : string -> option (option R))
  (f : list (option R) -> list (option R)) (names : list string)
  (df df' : DataFrame) :
  fit_transform conv f names df = Ok df' -> index df <> [].
Proof.
  unfold fit_transform. intro H.
  apply bind_Ok in H. destruct H as [cols [_ H]].
  apply bind_Ok in H. destruct H as [xss [_ H]].
  intro E. rewrite E in H. discriminate.
Qed.

Lemma fit_transform_columns (conv : string -> option (option R))
  (f : list (option R) -> list (option R)) (names : list string)
  (df df' : DataFrame) (n : string) :
  fit_transform conv f names df = Ok df' -> In n names ->
  exists s xs, getitem df n = Ok s /\ to_float64 conv s = Ok xs.
Proof.
  intros H Hin. apply fit_transform_inv in H.
  destruct H as [cols [xss [Hc [Hx _]]]].
  apply In_nth_error in Hin. destruct Hin as [k Hk].
  destruct (traverse_nth _ _ _ _ _ Hc Hk) as [s [Hs Hck]].
  destruct (traverse_nth _ _ _ _ _ Hx Hck) as [xs [Hxs _]].
  eauto.
Qed.

Lemma scaler_columns (conv : string -> option (option R))
  (df df' : DataFrame) (n : string) :
  scaler conv df = Ok df' -> In n (std_columns ++ minmax_columns) ->
  exists s xs, getitem df n = Ok s /\ to_float64 conv s = Ok xs.
Proof.
  intros H Hin. apply scaler_inv in H. destruct H as [df1 [H1 H2]].
  apply in_app_or in Hin. destruct Hin as [Hin | Hin].
  - eapply fit_transform_columns; eauto.
  - destruct (fit_transform_columns _ _ _ _ _ n H2 Hin) as [s [xs [Hs Hxs]]].
    rewrite (fit_transform_other _ _ _ _ _ _ H1) in Hs
      by (intro Hs'; now apply (std_not_minmax n Hs')).
    eauto.
Qed.

(** X8.  The Scaler returns a table exactly when the six scaled columns
    exist and are numeric and the table has a row.  It raises [KeyError]
    when a column to standardize is missing, and [ValueError] on a table
    without rows whose six columns are numeric. *)
Theorem scaler_outcomes (conv : string -> option (option R)) (df : DataFrame) :
  ((exists df', scaler conv df = Ok df') <->
   (forall n, In n (std_columns ++ minmax_columns) ->
      exists s xs, getitem df n = Ok s /\ to_float64 conv s = Ok xs)
   /\ index df <> [])
  /\ (forall n, In n std_columns -> lookup n (columns df) = None ->
                scaler conv df = Err KeyError)
  /\ ((forall n, In n (std_columns ++ minmax_columns) ->
         exists s xs, getitem df n = Ok s /\ to_float64 conv s = Ok xs) ->
      index df = [] -> scaler conv df = Err ValueError).
Proof.
  split; [|split].
  - split.
    + intros [df' H]. split.
      * intros n Hn. eapply scaler_columns; eauto.
      * apply scaler_inv in H. destruct H as [df1 [H1 _]].
        eapply fit_transform_rows; eauto.
    + intros [Hcols Hidx]. now apply scaler_ok.
  - intros n Hin Hn. unfold scaler, fit_transform.
    now rewrite (traverse_getitem_missing df std_columns n Hin Hn).
  - intros Hcols Hidx. unfold scaler, fit_transform.
    destruct (traverse_ok (getitem df) std_columns) as [cols Hc].
    { intros n Hn. destruct (Hcols n) as [s [_ [Hs _]]]; eauto.
      apply in_or_app. now left. }
    rewrite Hc. simpl.
    destruct (traverse_ok (to_float64 conv) cols) as [xss Hx].
    { intros s Hs. apply In_nth_error in Hs. destruct Hs as [k Hk].
      destruct (nth_error std_columns k) as [n|] eqn:En.
      - destruct (traverse_nth _ _ _ _ _ Hc En) as [s' [Hs' Hk']].
        assert (s' = s) by congruence. subst s'.
        destruct (Hcols n) as [s2 [xs [Hs2 Hxs]]].
        { apply in_or_app. left. eapply nth_error_In; eauto. }
        assert (s2 = s) by congruence. subst s2. eauto.
      - apply nth_error_None in En.
        assert (k < length cols)%nat by (apply nth_error_Some; congruence).
        rewrite (traverse_length _ _ _ Hc) in H. lia. }
    rewrite Hx. simpl. now rewrite Hidx.
Qed.

Lemma names_setitems (df : DataFrame) (names : list string)
  (vals : list (list (option R))) :
  (forall n, In n names -> lookup n (columns df) <> None) ->
  map fst (columns (setitems df names vals)) = map fst (columns df).
Proof.
  revert df vals. induction names as [|n names IH]; intros df [|v vals] H;
    simpl; auto.
  destruct (lookup n (columns df)) as [old|] eqn:E.
  - rewrite IH.
    + eapply names_setitem_existing; eauto.
    + intros n' Hn'. destruct (String.eqb n' n) eqn:En.
      * apply String.eqb_eq in En. subst.
        rewrite lookup_setitem_same. discriminate.
      * apply String.eqb_neq in En. rewrite lookup_setitem_other by assumption.
        apply H. now right.
  - exfalso. apply (H n); auto. now left.
Qed.

Lemma setitems_aligned (df : DataFrame) (names : list string)
  (vals : list (list (option R))) :
  aligned df -> Forall (fun v => length v = length (index df)) vals ->
  aligned (setitems df names vals).
Proof.
  revert df vals. induction names as [|n names IH]; intros df [|v vals] Hal Hv;
    simpl; auto.
  inversion Hv; subst. apply IH.
  - now apply setitem_aligned.
  - now rewrite index_setitem.
Qed.

Lemma traverse_Forall {A B : Type} (P : B -> Prop) (f : A -> result B)
  (l : list A) (bs : list B) :
  traverse f l = Ok bs ->
  (forall a b, In a l -> f a = Ok b -> P b) -> Forall P bs.
Proof.
  revert bs. induction l as [|a l IH]; simpl; intros bs H HP.
  - injection H as <-. constructor.
  - apply bind_Ok in H. destruct H as [b [Hb H]].
    apply bind_Ok in H. destruct H as [bs' [Hbs H]].
    injection H as <-. constructor; eauto.
Qed.

Lemma fit_transform_shape (conv : string -> option (option R))
  (f : list (option R) -> list (option R)) (names : list string)
  (df df' : DataFrame) :
  (forall xs, length (f xs) = length xs) ->
  fit_transform conv f names df = Ok df' ->
  map fst (columns df') = map fst (columns df)
  /\ (aligned df -> aligned df').
Proof.
  intros Hlen H. pose proof H as H0. apply fit_transform_inv in H.
  destruct H as [cols [xss [Hc [Hx ->]]]]. split.
  - apply names_setitems. intros n Hn.
    destruct (fit_transform_columns _ _ _ _ _ n H0 Hn) as [s [_ [Hs _]]].
    apply getitem_lookup in Hs. congruence.
  - intro Hal. apply setitems_aligned; auto.
    rewrite Forall_map.
    assert (Hcols : Forall (fun s => series_len s = length (index df)) cols).
    { apply (traverse_Forall _ _ _ _ Hc).
      intros n s' _ Hs'. eapply getitem_len; eauto. }
    rewrite Forall_forall in Hcols.
    apply (traverse_Forall _ _ _ _ Hx). intros s xs Hs Hxs.
    rewrite Hlen, (to_float64_length _ _ _ Hxs). now apply Hcols.
Qed.

(** X9.  The Scaler keeps the shape of the table, whatever the rounding
    of its arithmetic: the index, the names and order of the columns and
    every column other than the six are as before; a scaled column is a
    float64 column as long as it was; an aligned table stays aligned. *)
Theorem scaler_keeps_shape (rnd : R -> R) (fit_mean fit_var : list R -> R)
  (conv : string -> option (option R)) (df df' : DataFrame) :
  scaler_with rnd fit_mean fit_var conv df = Ok df' ->
  index df' = index df
  /\ map fst (columns df') = map fst (columns df)
  /\ (forall n, ~ In n (std_columns ++ minmax_columns) ->
                getitem df' n = getitem df n)
  /\ (forall n s xs,
         In n (std_columns ++ minmax_columns) ->
         getitem df n = Ok s -> to_float64 conv s = Ok xs ->
         exists ys, getitem df' n = Ok (Float64 ys)
                    /\ length ys = length xs)
  /\ (aligned df -> aligned df').
Proof.
  intro H. pose proof H as H0. apply scaler_with_inv in H.
  destruct H as [df1 [H1 H2]].
  assert (Hstd : forall xs,
             length (standard_scale_with rnd fit_mean fit_var xs) = length xs)
    by (intro; apply length_map).
  assert (Hmm : forall xs, length (minmax_scale_with rnd xs) = length xs)
    by (intro; apply length_map).
  destruct (fit_transform_shape _ _ _ _ _ Hstd H1) as [Hn1 Ha1].
  destruct (fit_transform_shape _ _ _ _ _ Hmm H2) as [Hn2 Ha2].
  split; [|split; [|split; [|split]]].
  - rewrite (fit_transform_index _ _ _ _ _ H2).
    apply (fit_transform_index _ _ _ _ _ H1).
  - congruence.
  - intros n Hn.
    rewrite (fit_transform_other _ _ _ _ _ _ H2)
      by (intro Hin; apply Hn, in_or_app; auto).
    apply (fit_transform_other _ _ _ _ _ _ H1).
    intro Hin. apply Hn, in_or_app. auto.
  - intros n s xs Hn Hg Hf. apply in_app_or in Hn. destruct Hn as [Hn | Hn].
    + exists (standard_scale_with rnd fit_mean fit_var xs). split; auto.
      eapply scaler_with_std_column; eauto.
    + exists (minmax_scale_with rnd xs). split; auto.
      eapply scaler_with_minmax_column; eauto.
  - auto.
Qed.

Lemma scaler_keeps_shape_witness :
  index spread_scaled = index spread_table
  /\ map fst (columns spread_scaled) = map fst (columns spread_table).
Proof.
  destruct (scaler_keeps_shape exact mean variance float_raises
              spread_table spread_scaled scaler_spread_table) as [H1 [H2 _]].
  split; assumption.
Defined.

(** ** Feature deriver: outcomes and shape *)

Lemma to_datetime_error (parse : string -> string -> option Z)
  (text : list (option string)) (e : exn) :
  to_datetime parse text = Err e -> e = ValueError.
Proof.
  unfold to_datetime. destruct (present text) as [|first rest];
    [discriminate|].
  apply (traverse_error_kind (fun e0 => e0 = ValueError)).
  intros [t|] e'; simpl; [|discriminate].
  destruct (parse first t); [discriminate|]. now intros [= <-].
Qed.

Lemma to_datetime_length (parse : string -> string -> option Z)
  (text : list (option string)) (stamps : list (option Z)) :
  to_datetime parse text = Ok stamps -> length stamps = length text.
Proof.
  unfold to_datetime. destruct (present text) as [|first rest].
  - intros [= <-]. apply length_map.
  - apply traverse_length.
Qed.

Lemma to_datetime_ok (parse : string -> string -> option Z)
  (text : list (option string)) :
  (forall t, In (Some t) text -> reading parse text t <> None) ->
  exists stamps, to_datetime parse text = Ok stamps.
Proof.
  unfold to_datetime, reading. intro H.
  destruct (present text) as [|first rest]; [eauto|].
  apply traverse_ok. intros [t|] Ht; simpl; [|eauto].
  specialize (H t Ht). destruct (parse first t); [eauto | congruence].
Qed.

Lemma add_series_error (left : list (option string)) (s : Series) (e : exn) :
  add_series left s = Err e -> e = TypeError.
Proof.
  destruct s as [ys|ys|ys]; simpl; try discriminate;
    destruct (existsb both_present (combine left ys)); try discriminate;
    now intros [= <-].
Qed.

Lemma add_series_length (left : list (option string)) (s : Series)
  (text : list (option string)) :
  add_series left s = Ok text ->
  length text = Nat.min (length left) (series_len s).
Proof.
  destruct s as [ys|ys|ys]; simpl.
  - destruct (existsb both_present (combine left ys)); [discriminate|].
    intros [= <-]. now rewrite length_map, length_combine.
  - intros [= <-]. now rewrite length_map, length_combine.
  - destruct (existsb both_present (combine left ys)); [discriminate|].
    intros [= <-]. now rewrite length_map, length_combine.
Qed.

Lemma feature_deriver_steps (parse : string -> string -> option Z)
  (df : DataFrame) (dates : list (option string)) (time : Series) :
  getitem df "Date" = Ok (Object dates) ->
  getitem df "Time" = Ok time ->
  feature_deriver parse df
  = (text <- add_series
               (map (option_map (fun a => String.append a " ")) dates) time ;;
     stamps <- to_datetime parse text ;;
     Ok (derived df stamps)).
Proof.
  intros Hd Ht. unfold feature_deriver. rewrite Hd. simpl. rewrite Ht. simpl.
  destruct (add_series _ time) as [text|e]; simpl; auto.
  destruct (to_datetime parse text) as [stamps|e]; simpl; auto.
  rewrite getitem_setitem_same. simpl.
  rewrite getitem_setitem_other by discriminate.
  rewrite getitem_setitem_same. reflexivity.
Qed.

Lemma feature_deriver_inv (parse : string -> string -> option Z)
  (df df' : DataFrame) :
  feature_deriver parse df = Ok df' ->
  exists dates time text stamps,
    getitem df "Date" = Ok (Object dates)
    /\ getitem df "Time" = Ok time
    /\ add_series (map (option_map (fun a => String.append a " ")) dates) time
       = Ok text
    /\ to_datetime parse text = Ok stamps
    /\ df' = derived df stamps.
Proof.
  intro H.
  destruct (getitem df "Date") as [[xs|dates|xs]|e] eqn:Ed;
    try (unfold feature_deriver in H; rewrite Ed in H; discriminate).
  destruct (getitem df "Time") as [time|e] eqn:Et;
    [|unfold feature_deriver in H; rewrite Ed in H; simpl in H;
      rewrite Et in H; discriminate].
  rewrite (feature_deriver_steps parse df dates time Ed Et) in H.
  apply bind_Ok in H. destruct H as [text [Ha H]].
  apply bind_Ok in H. destruct H as [stamps [Hs H]].
  injection H as <-. exists dates, time, text, stamps. auto.
Qed.

(** X14.  The Feature Deriver raises [KeyError] exactly when [Date] is
    missing, or [Date] is a str column and [Time] is missing.  It raises
    [TypeError] when [Date] is not a str column, and when [Time] is a
    numeric column with a number in a row that has a date. *)
Theorem feature_deriver_errors (parse : string -> string -> option Z)
  (df : DataFrame) :
  (feature_deriver parse df = Err KeyError <->
   lookup "Date" (columns df) = None
   \/ (exists dates, lookup "Date" (columns df) = Some (Object dates)
                     /\ lookup "Time" (columns df) = None))
  /\ (forall s, getitem df "Date" = Ok s ->
                (forall dates, s <> Object dates) ->
                feature_deriver parse df = Err TypeError)
  /\ (forall dates ys p d y,
         getitem df "Date" = Ok (Object dates) ->
         getitem df "Time" = Ok (Float64 ys) ->
         nth_error dates p = Some (Some d) -> nth_error ys p = Some (Some y) ->
         feature_deriver parse df = Err TypeError).
Proof.
  split; [|split].
  - destruct (lookup "Date" (columns df)) as [[xs|dates|xs]|] eqn:Ed.
    + split.
      * unfold feature_deriver, getitem. rewrite Ed. discriminate.
      * intros [H | [dates [H _]]]; discriminate.
    + destruct (lookup "Time" (columns df)) as [time|] eqn:Et.
      * split; [|intros [H | [dates' [_ H]]]; discriminate].
        rewrite (feature_deriver_steps parse df dates time)
          by (apply getitem_lookup; assumption).
        destruct (add_series _ time) as [text|e] eqn:Ea; simpl.
        -- destruct (to_datetime parse text) as [stamps|e] eqn:Es; simpl;
             [discriminate|].
           rewrite (to_datetime_error _ _ _ Es). discriminate.
        -- rewrite (add_series_error _ _ _ Ea). discriminate.
      * split; [intros _; right; eauto|]. intros _.
        unfold feature_deriver, getitem. rewrite Ed. simpl. now rewrite Et.
    + split.
      * unfold feature_deriver, getitem. rewrite Ed. discriminate.
      * intros [H | [dates [H _]]]; discriminate.
    + split; [auto|]. intros _. unfold feature_deriver, getitem.
      now rewrite Ed.
  - intros s Hs Hno. unfold feature_deriver. rewrite Hs. simpl.
    destruct s as [xs|dates|xs]; auto. now elim (Hno dates).
  - intros dates ys p d y Hd Ht Hpd Hpy.
    rewrite (feature_deriver_steps parse df dates (Float64 ys) Hd Ht).
    simpl.
    assert (He : existsb both_present
                   (combine (map (option_map (fun a => String.append a " "))
                               dates) ys) = true).
    { apply existsb_exists.
      exists (Some (String.append d " "), Some y). split; auto.
      apply (nth_error_In _ p).
      now rewrite nth_error_combine, nth_error_map, Hpd, Hpy. }
    now rewrite He.
Qed.

(** X15.  The Feature Deriver keeps every row and every column: the index
    and the columns other than [DateTime], [Hour] and [Day] are as before;
    the three derived columns have one length, and an aligned table stays
    aligned. *)
Theorem feature_deriver_keeps_rows (parse : string -> string -> option Z)
  (df df' : DataFrame) :
  feature_deriver parse df = Ok df' ->
  index df' = index df
  /\ (forall n, n <> "DateTime" -> n <> "Hour" -> n <> "Day" ->
                getitem df' n = getitem df n)
  /\ (exists stamps hours days,
         getitem df' "DateTime" = Ok (Datetime64 stamps)
         /\ getitem df' "Hour" = Ok (Float64 hours)
         /\ getitem df' "Day" = Ok (Float64 days)
         /\ length hours = length stamps /\ length days = length stamps)
  /\ (aligned df -> aligned df').
Proof.
  intro H. apply feature_deriver_inv in H.
  destruct H as [dates [time [text [stamps [Hd [Ht [Ha [Hs ->]]]]]]]].
  unfold derived. split; [|split; [|split]].
  - now rewrite !index_setitem.
  - intros n H1 H2 H3. now rewrite !getitem_setitem_other by assumption.
  - eexists stamps, _, _. repeat split.
    + rewrite !getitem_setitem_other by discriminate.
      apply getitem_setitem_same.
    + rewrite getitem_setitem_other by discriminate.
      apply getitem_setitem_same.
    + apply getitem_setitem_same.
    + apply length_map.
    + apply length_map.
  - intro Hal.
    assert (Hlen : length stamps = length (index df)).
    { rewrite (to_datetime_length _ _ _ Hs), (add_series_length _ _ _ Ha).
      rewrite length_map.
      pose proof (getitem_len _ _ _ Hal Hd) as H1. simpl in H1.
      pose proof (getitem_len _ _ _ Hal Ht) as H2. lia. }
    repeat apply setitem_aligned; auto; simpl;
      rewrite ?index_setitem, ?length_map; assumption.
Qed.

Lemma feature_deriver_keeps_rows_witness :
  index blank_row_derived = index blank_row_table
  /\ getitem blank_row_derived "CO(GT)" = getitem blank_row_table "CO(GT)".
Proof.
  destruct (feature_deriver_keeps_rows parse_example blank_row_table
              blank_row_derived feature_deriver_blank_row) as [H1 [H2 _]].
  split; [exact H1|]. apply H2; discriminate.
Defined.

(** X16.  On str columns [Date] and [Time], the Feature Deriver returns a
    table exactly when every text made of a date, a space and a time can be
    read; a row in which one of the two is missing stands in the way of
    nothing, and a table without such a text, as one without rows, goes
    through. *)
Theorem feature_deriver_succeeds_iff (parse : string -> string -> option Z)
  (df : DataFrame) (dates times : list (option string)) :
  getitem df "Date" = Ok (Object dates) ->
  getitem df "Time" = Ok (Object times) ->
  ((exists df', feature_deriver parse df = Ok df') <->
   forall t, In (Some t) (date_time_text dates times) ->
             reading parse (date_time_text dates times) t <> None).
Proof.
  intros Hd Ht. rewrite (feature_deriver_unfold parse df dates times Hd Ht).
  split.
  - intros [df' H] t Hin Hr.
    rewrite (to_datetime_Err parse _ t Hin Hr) in H. discriminate.
  - intro H. destruct (to_datetime_ok parse _ H) as [stamps Hs].
    rewrite Hs. simpl. eauto.
Qed.

Lemma feature_deriver_succeeds_iff_witness :
  (exists df', feature_deriver parse_example blank_row_table = Ok df') <->
  forall t,
    In (Some t) (date_time_text [Some "2004-03-10"; None]
                   [Some "18:00:00"; None]) ->
    reading parse_example
      (date_time_text [Some "2004-03-10"; None] [Some "18:00:00"; None]) t
    <> None.
Proof.
  exact (feature_deriver_succeeds_iff parse_example blank_row_table
           _ _ eq_refl eq_refl).
Defined.

(** ** Stages 2 to 4 together *)

Lemma lookup_None_names (n : string) (cols : list (string * Series)) :
  lookup n cols = None <-> ~ In n (map fst cols).
Proof.
  induction cols as [|[n0 s0] cols IH]; simpl; [tauto|].
  destruct (String.eqb n0 n) eqn:E.
  - apply String.eqb_eq in E. split; [discriminate|]. intro H. elim H. auto.
  - apply String.eqb_neq in E. rewrite IH. tauto.
Qed.

Lemma cleaner_inv (conv : string -> option (option R)) (df df1 : DataFrame) :
  cleaner conv df = Ok df1 ->
  exists D, impute_CO conv df = Ok D /\ df1 = drop_sentinel D
            /\ index D = index df
            /\ map fst (columns D) = map fst (columns df).
Proof.
  intro H. apply cleaner_with_inv in H. destruct H as [D [HD ->]].
  exists D. repeat split; auto.
  - apply impute_CO_inv in HD. destruct HD as [s [xs [ys [_ [_ [_ ->]]]]]].
    apply index_setitem.
  - apply impute_CO_inv in HD. destruct HD as [s [xs [ys [Hg [_ [_ ->]]]]]].
    apply getitem_lookup in Hg. eapply names_setitem_existing; eauto.
Qed.

Lemma transform_table_inv (conv : string -> option (option R))
  (parse : string -> string -> option Z) (df final : DataFrame) :
  transform_table conv parse df = Ok final ->
  exists df1 df2,
    cleaner conv df = Ok df1 /\ scaler conv df1 = Ok df2
    /\ feature_deriver parse df2 = Ok final.
Proof.
  unfold transform_table. intro H.
  apply bind_Ok in H. destruct H as [df1 [H1 H]].
  apply bind_Ok in H. destruct H as [df2 [H2 H]]. eauto.
Qed.

Lemma scaler_index (conv : string -> option (option R)) (df df' : DataFrame) :
  scaler conv df = Ok df' -> index df' = index df.
Proof.
  intro H. apply scaler_inv in H. destruct H as [df1 [H1 H2]].
  rewrite (fit_transform_index _ _ _ _ _ H2).
  apply (fit_transform_index _ _ _ _ _ H1).
Qed.

Lemma scaler_names (conv : string -> option (option R)) (df df' : DataFrame) :
  scaler conv df = Ok df' -> map fst (columns df') = map fst (columns df).
Proof.
  intro H. apply scaler_inv in H. destruct H as [df1 [H1 H2]].
  destruct (fit_transform_shape conv standard_scale _ _ _
              (fun xs => length_map _ xs) H1) as [Hn1 _].
  destruct (fit_transform_shape conv minmax_scale _ _ _
              (fun xs => length_map _ xs) H2) as [Hn2 _].
  congruence.
Qed.

(** X17.  Of the stages between loading and plotting only the filter
    removes rows: the index of the final table is that of the Cleaner's
    result, which consists of labels of the loaded table. *)
Theorem transform_table_rows (conv : string -> option (option R))
  (parse : string -> string -> option Z) (df final : DataFrame) :
  transform_table conv parse df = Ok final ->
  exists df1,
    cleaner conv df = Ok df1
    /\ index final = index df1
    /\ incl (index final) (index df)
    /\ (length (index final) <= length (index df))%nat
    /\ index final <> [].
Proof.
  intro H. apply transform_table_inv in H.
  destruct H as [df1 [df2 [H1 [H2 H3]]]].
  exists df1. split; auto.
  assert (Hi : index final = index df1).
  { apply feature_deriver_inv in H3.
    destruct H3 as [dates [time [text [stamps [_ [_ [_ [_ ->]]]]]]]].
    unfold derived. rewrite !index_setitem. now apply scaler_index with conv. }
  split; auto. rewrite Hi.
  pose proof (cleaner_inv _ _ _ H1) as [D [_ [-> [HiD _]]]].
  unfold drop_sentinel, getitem_mask in *. simpl in *. rewrite HiD.
  repeat split.
  - intros l Hl. eapply In_select; eauto.
  - apply select_length_le.
  - apply scaler_inv in H2. destruct H2 as [d [H2 _]].
    apply fit_transform_rows in H2. simpl in H2. now rewrite HiD in H2.
Qed.

Lemma transform_table_rows_witness :
  exists final df1,
    transform_table float_raises parse_example blank_line_loaded = Ok final
    /\ cleaner float_raises blank_line_loaded = Ok df1
    /\ index final = index df1.
Proof.
  destruct blank_line_reaches_final_table as [final [H _]].
  destruct (transform_table_rows float_raises parse_example blank_line_loaded
              final H) as [df1 [H1 [H2 _]]].
  exists final, df1. auto.
Defined.

(** X18.  The final table has the columns of the loaded table, in their
    order, followed by [DateTime], [Hour] and [Day], when the loaded table
    has no column of these names. *)
Theorem transform_table_columns (conv : string -> option (option R))
  (parse : string -> string -> option Z) (df final : DataFrame) :
  transform_table conv parse df = Ok final ->
  ~ In "DateTime" (map fst (columns df)) ->
  ~ In "Hour" (map fst (columns df)) ->
  ~ In "Day" (map fst (columns df)) ->
  map fst (columns final)
  = (map fst (columns df) ++ ["DateTime"; "Hour"; "Day"])%list.
Proof.
  intros H Hdt Hh Hd. apply transform_table_inv in H.
  destruct H as [df1 [df2 [H1 [H2 H3]]]].
  assert (Hn : map fst (columns df2) = map fst (columns df)).
  { rewrite (scaler_names _ _ _ H2).
    destruct (cleaner_inv _ _ _ H1) as [D [_ [-> [_ HnD]]]].
    unfold drop_sentinel, getitem_mask. simpl. rewrite map_map. exact HnD. }
  rewrite <- Hn in *.
  apply feature_deriver_inv in H3.
  destruct H3 as [dates [time [text [stamps [_ [_ [_ [_ ->]]]]]]]].
  unfold derived.
  rewrite names_setitem_new.
  - rewrite names_setitem_new.
    + rewrite names_setitem_new by now apply lookup_None_names.
      now rewrite <- !app_assoc.
    + rewrite lookup_setitem_other by discriminate.
      now apply lookup_None_names.
  - rewrite !lookup_setitem_other by discriminate.
    now apply lookup_None_names.
Qed.

Lemma transform_table_columns_witness :
  exists final,
    transform_table float_raises parse_example blank_line_loaded = Ok final
    /\ map fst (columns final)
       = ["Date"; "Time"; "CO(GT)"; "PT08.S1(CO)"; "C6H6(GT)"; "T"; "RH"; "AH";
          "DateTime"; "Hour"; "Day"].
Proof.
  destruct blank_line_reaches_final_table as [final [H _]].
  exists final. split; [exact H|].
  apply (transform_table_columns float_raises parse_example blank_line_loaded
           final H); simpl; intuition discriminate.
Defined.

(** ** The run: figures and failures *)

Lemma corr_to_float_text (conv : string -> option (option R))
  (df : DataFrame) (name : string) (xs : list (option string)) (t : string) :
  In (name, Object xs) (columns df) -> In (Some t) xs -> conv t = None ->
  corr_to_float conv df = Err ValueError.
Proof.
  intros Hc Hx Ht. unfold corr_to_float.
  destruct (traverse _ (columns df)) as [us|e] eqn:E; simpl.
  - exfalso. apply In_nth_error in Hc. destruct Hc as [k Hk].
    destruct (traverse_nth _ _ _ _ _ E Hk) as [u [Hu _]]. simpl in Hu.
    apply bind_Ok in Hu. destruct Hu as [zs [Hz _]].
    apply In_nth_error in Hx. destruct Hx as [j Hj].
    destruct (traverse_nth _ _ _ _ _ Hz Hj) as [z [Hzj _]]. simpl in Hzj.
    rewrite Ht in Hzj. discriminate.
  - f_equal.
    eapply (traverse_error_kind (fun e0 => e0 = ValueError)); [|exact E].
    intros [n s0] e'. simpl. destruct s0 as [ys|ys|ys]; try discriminate.
    destruct (traverse (object_to_float conv) ys) as [zs|e2] eqn:E2; simpl;
      [discriminate|].
    intros [= <-].
    eapply (traverse_error_kind (fun e0 => e0 = ValueError)); [|exact E2].
    intros [t0|] e3; simpl; [|discriminate].
    destruct (conv t0); [discriminate|]. now intros [= <-].
Qed.

Lemma read_dated_input :
  read_csv_text ";" number_example dated_input = Ok dated_loaded.
Proof. vm_compute. reflexivity. Qed.

Section RunOutcomes.

Variable Figure : Type.
Variable read_csv : string -> result DataFrame.
Variable histplot : Series -> result Figure.
Variable heatmap : DataFrame -> result Figure.
Variable to_csv : DataFrame -> string.
Variable float_of_str : string -> option (option R).
Variable parse : string -> string -> option Z.

Let run : io Figure DataFrame :=
  pipeline Figure read_csv histplot heatmap to_csv float_of_str parse.

(** X20.  Whatever happens, a run only appends figures, at most two, and
    leaves the rights to write as they were; when the table could not be
    loaded or taken through stages 2 to 4, it leaves the world as it
    was. *)
Theorem pipeline_figures (w : World Figure) :
  (exists figs, shown (snd (run w)) = (shown w ++ figs)%list
                /\ (length figs <= 2)%nat)
  /\ writable (snd (run w)) = writable w
  /\ ((forall text loaded final,
         files w input_path = Some text -> read_csv text = Ok loaded ->
         transform_table float_of_str parse loaded <> Ok final) ->
      snd (run w) = w).
Proof.
  unfold run, pipeline, io_bind, read_file, pure, show, write_file, io_ret.
  assert (Hnil : shown w = (shown w ++ [])%list) by now rewrite app_nil_r.
  destruct (files w input_path) as [text|] eqn:Ein;
    [|simpl; split; [exists []; auto | auto]].
  destruct (read_csv text) as [loaded|e] eqn:Eload;
    [|simpl; split; [exists []; auto | auto]].
  destruct (transform_table float_of_str parse loaded) as [final|e] eqn:Etr;
    [|simpl; split; [exists []; auto | auto]].
  assert (Hno : (forall text0 loaded0 final0,
                    Some text = Some text0 -> read_csv text0 = Ok loaded0 ->
                    transform_table float_of_str parse loaded0 <> Ok final0)
                -> False).
  { intro H. now apply (H text loaded final). }
  destruct (getitem final "CO(GT)") as [co|e];
    [|simpl; split; [exists []; auto | auto]].
  destruct (histplot co) as [fig1|e];
    [|simpl; split; [exists []; auto | auto]].
  simpl.
  destruct (corr_to_float float_of_str final) as [u|e];
    [|simpl; split; [exists [fig1]; auto
                    | split; [reflexivity | intro H; elim (Hno H)]]].
  destruct (heatmap final) as [fig2|e]; simpl.
  - destruct (writable w output_path); simpl;
      [destruct (String.length (to_csv final) <=? room w)%nat; simpl|];
      (split; [exists [fig1; fig2]; rewrite <- app_assoc; auto
              | split; [reflexivity | intro H; elim (Hno H)]]).
  - split; [exists [fig1]; auto
           | split; [reflexivity | intro H; elim (Hno H)]].
Qed.

(** X21.  The figures come before the file: when every stage and both
    plots succeed and the output path cannot be opened for writing, the
    run raises the error of the refusal with both figures shown and no file
    written. *)
Theorem pipeline_refused_write (w : World Figure) (text : string)
  (loaded final : DataFrame) (co : Series) (fig1 fig2 : Figure) :
  files w input_path = Some text ->
  read_csv text = Ok loaded ->
  transform_table float_of_str parse loaded = Ok final ->
  getitem final "CO(GT)" = Ok co ->
  histplot co = Ok fig1 ->
  corr_to_float float_of_str final = Ok tt ->
  heatmap final = Ok fig2 ->
  writable w output_path = false ->
  run w = (Err (refusal w output_path),
           mkWorld Figure (files w) (writable w) (refusal w) (room w) (write_error w)
             (shown w ++ [fig1; fig2])).
Proof.
  intros Ein Eload Etr Eco E1 Ec E2 Ew.
  unfold run.
  rewrite (pipeline_reaches_export _ _ _ _ _ _ _ w text loaded final co
             fig1 fig2) by assumption.
  unfold write_file. simpl. now rewrite Ew.
Qed.

(** X22.  A final table that holds a text which [float] rejects, as a
    table with a dated row does, stops the run at the correlation: the
    run raises [ValueError] with the histogram shown, the heatmap is not
    drawn and no file is written. *)
Theorem pipeline_raises_on_text (w : World Figure) (text : string)
  (loaded final : DataFrame) (co : Series) (fig1 : Figure)
  (name : string) (xs : list (option string)) (t : string) :
  files w input_path = Some text ->
  read_csv text = Ok loaded ->
  transform_table float_of_str parse loaded = Ok final ->
  getitem final "CO(GT)" = Ok co ->
  histplot co = Ok fig1 ->
  In (name, Object xs) (columns final) -> In (Some t) xs ->
  float_of_str t = None ->
  run w = (Err ValueError,
           mkWorld Figure (files w) (writable w) (refusal w) (room w) (write_error w)
             (shown w ++ [fig1])).
Proof.
  intros Ein Eload Etr Eco E1 Hc Hx Ht.
  unfold run, pipeline, io_bind, read_file, pure, show, io_ret.
  rewrite Ein, Eload, Etr, Eco, E1. simpl.
  now rewrite (corr_to_float_text _ _ _ _ _ Hc Hx Ht).
Qed.

End RunOutcomes.

Lemma pipeline_refused_write_witness :
  example_run refusing_world
  = (Err PermissionError,
     mkWorld unit (files refusing_world) (fun _ => false)
       (fun _ => PermissionError) 1000 OSError [tt; tt]).
Proof.
  exact (pipeline_refused_write unit (read_csv_text ";" number_example)
           (fun _ => Ok tt) (fun _ => Ok tt)
           (to_csv_text "," nl num_text_example stamp_example)
           float_raises parse_example refusing_world
           undated_input undated_loaded undated_final
           (Float64 [Some (-1); Some 1]) tt tt
           eq_refl read_undated_input transform_undated
           eq_refl eq_refl eq_refl eq_refl eq_refl).
Defined.

Lemma pipeline_raises_on_text_witness :
  pipeline unit (read_csv_text ";" number_example)
    (fun _ => Ok tt) (fun _ => Ok tt)
    (to_csv_text "," nl num_text_example stamp_example)
    float_raises parse_example dated_world
  = (Err ValueError,
     mkWorld unit (files dated_world) (fun _ => true)
       (fun _ => PermissionError) 1000 OSError [tt]).
Proof.
  refine (pipeline_raises_on_text unit (read_csv_text ";" number_example)
            (fun _ => Ok tt) (fun _ => Ok tt)
            (to_csv_text "," nl num_text_example stamp_example)
            float_raises parse_example dated_world
            dated_input dated_loaded dated_final
            (Float64 [Some (-1); Some 1]) tt
            "Date" [Some "2004-03-10"; Some "2004-03-10"] "2004-03-10"
            eq_refl read_dated_input transform_dated
            eq_refl eq_refl _ _ eq_refl); simpl; auto.
Defined.
